(** * AlphaFold2 impact analysis: matching and event-study engine

    A shallow embedding of the analysis pipeline

      - [analysis_pipeline/scripts/01_cem_matching.py]
      - [analysis_pipeline/scripts/02_semester_aggregation.py]
      - [analysis_pipeline/scripts/03_event_study.py]
      - [analysis_pipeline/scripts/04_integrate_dois.py]
      - [analysis_pipeline/run_pipeline.py]

    Data frames are lists of records (row order is the frame's order),
    float columns are exact rationals [Q], a missing value (NaN) is
    [None].  The two irrational NumPy operations ([np.sqrt], [np.arcsinh])
    are section variables of type [Q -> Q]. *)

From Stdlib Require Import ZArith QArith Qround Qabs List Bool Lia Lqa Permutation
  Sorting.Sorted Setoid Morphisms.
From Stdlib Require String.
Import ListNotations.

Set Implicit Arguments.

(** ** Values shared by the three scripts *)

(** Python exceptions the modelled code can raise. *)
Inductive exn : Type :=
| ValueError
| ZeroDivisionError
| KeyError
| IndexError
| LibraryError.

(** Outcome of a Python call: a value, or a raised exception. *)
Inductive py (A : Type) : Type :=
| Ret (a : A)
| Raise (e : exn).
Arguments Ret {A} a.
Arguments Raise {A} e.

Definition py_bind {A B} (c : py A) (f : A -> py B) : py B :=
  match c with
  | Ret a => f a
  | Raise e => Raise e
  end.

Section Sort.
Variable A : Type.
Variable leb : A -> A -> bool.

Fixpoint insert (x : A) (l : list A) : list A :=
  match l with
  | [] => [x]
  | y :: l' => if leb x y then x :: l else y :: insert x l'
  end.

(** Stable ascending sort ([sorted(...)], [sort_values]): an element is
    inserted in front of the elements that follow it in the input and
    compare equal to it. *)
Definition sort_by (l : list A) : list A := fold_right insert [] l.
End Sort.

Section Unique.
Variable A : Type.
Variable eqb : A -> A -> bool.

(** [Series.unique()]: distinct values in order of first appearance. *)
Fixpoint unique_acc (seen : list A) (l : list A) : list A :=
  match l with
  | [] => []
  | x :: l' =>
      if existsb (eqb x) seen then unique_acc seen l'
      else x :: unique_acc (x :: seen) l'
  end.

Definition unique (l : list A) : list A := unique_acc [] l.
End Unique.

(** [Series.sum()] of a float column. *)
Definition np_sum (xs : list Q) : Q := fold_right Qplus 0 xs.

(** Sum of an integer column. *)
Definition sumZ (xs : list Z) : Z := fold_right Z.add 0%Z xs.

(** [Series.fillna(0)] on one value. *)
Definition fillna0 (x : option Q) : Q :=
  match x with Some v => v | None => 0 end.

Definition Qlt_bool (a b : Q) : bool := negb (Qle_bool b a).

(** ** pandas binning: [pd.qcut] and [pd.cut] as the matching script calls
    them ([labels=False], [duplicates='drop'], integer [q] / [bins]), on a
    column without missing values; the properties below are stated for
    non-empty columns. *)
Module Binning.

(** [np.linspace(0, 1, q + 1)] in exact arithmetic: level [i] is [i / q].
    NumPy's binary64 levels can differ from these in the last place
    (0.30000000000000004 for 3/10), and so can the interpolated
    boundaries: a boundary that coincides with its neighbour here, and is
    dropped as a duplicate, can lie one rounding error away from it
    there and be kept. *)
Definition quantile_levels (q : nat) : list Q :=
  map (fun i => Z.of_nat i # Pos.of_nat q) (seq 0 (S q)).

(** [Series.quantile(p)], linear interpolation between order statistics:
    position [p * (n - 1)] in the sorted values. *)
Definition quantile (sorted : list Q) (p : Q) : Q :=
  let n := Z.of_nat (length sorted) in
  let pos := p * (inject_Z (n - 1)) in
  let lo := Qfloor pos in
  let frac := pos - inject_Z lo in
  let vlo := nth (Z.to_nat lo) sorted 0 in
  let vhi := nth (S (Z.to_nat lo)) sorted vlo in
  vlo + (vhi - vlo) * frac.

(** The [q + 1] quantile boundaries of a column. *)
Definition quantile_edges (x : list Q) (q : nat) : list Q :=
  let sorted := sort_by Qle_bool x in
  map (quantile sorted) (quantile_levels q).

(** [bins.searchsorted(v, side='left')] on ascending [bins]: the number of
    boundaries strictly below [v]. *)
Definition searchsorted_left (bins : list Q) (v : Q) : nat :=
  length (filter (fun b => Qlt_bool b v) bins).

(** [_bins_to_cuts(..., right=True, labels=False)] once the boundaries are
    fixed: bin index [ids - 1], NaN when the value falls outside all
    bins. *)
Definition bins_to_codes (include_lowest : bool) (bins : list Q) (x : list Q)
  : list (option Z) :=
  map (fun v =>
         let ids0 := searchsorted_left bins v in
         let ids := if include_lowest && Qeq_bool v (hd 0 bins) then 1%nat else ids0 in
         if (ids =? length bins)%nat || (ids =? 0)%nat then None
         else Some (Z.of_nat ids - 1)%Z) x.

(** [_bins_to_cuts]: repeated boundaries raise [ValueError] under
    [duplicates='raise'] and are dropped under [duplicates='drop']. *)
Definition bins_to_cuts (drop : bool) (include_lowest : bool)
           (bins : list Q) (x : list Q) : py (list (option Z)) :=
  let unique_bins := unique Qeq_bool bins in
  if (length unique_bins <? length bins)%nat && negb (length bins =? 2)%nat then
    if drop then Ret (bins_to_codes include_lowest unique_bins x)
    else Raise ValueError
  else Ret (bins_to_codes include_lowest bins x).

(** [pd.qcut(x, q, labels=False, duplicates=...)]. *)
Definition qcut (x : list Q) (q : nat) (drop : bool) : py (list (option Z)) :=
  bins_to_cuts drop true (quantile_edges x q) x.

Definition list_min (x : list Q) : Q :=
  fold_right (fun a m => if Qle_bool a m then a else m) (hd 0 x) x.
Definition list_max (x : list Q) : Q :=
  fold_right (fun a m => if Qle_bool m a then a else m) (hd 0 x) x.

(** [np.linspace(mn, mx, k + 1)]. *)
Definition linspace (mn mx : Q) (k : nat) : list Q :=
  map (fun i => mn + (mx - mn) * (Z.of_nat i # Pos.of_nat k)) (seq 0 (S k)).

Definition one_thousandth : Q := 1 # 1000.

(** Equal-width boundaries of [pd.cut(x, bins=k)]: the range is widened
    by 0.1% on the left, or on both sides when all values coincide. *)
Definition cut_edges (x : list Q) (k : nat) : list Q :=
  let mn := list_min x in
  let mx := list_max x in
  if Qeq_bool mn mx then
    let mn' := mn - (if Qeq_bool mn 0 then one_thousandth else one_thousandth * Qabs mn) in
    let mx' := mx + (if Qeq_bool mx 0 then one_thousandth else one_thousandth * Qabs mx) in
    linspace mn' mx' k
  else
    match linspace mn mx k with
    | [] => []
    | b0 :: rest => (b0 - (mx - mn) * one_thousandth) :: rest
    end.

(** [pd.cut(x, bins=k, labels=False, duplicates='drop')]. *)
Definition cut (x : list Q) (k : nat) (drop : bool) : py (list (option Z)) :=
  if (k <? 1)%nat then Raise ValueError
  else if (length x =? 0)%nat then Raise ValueError
  else bins_to_cuts drop false (cut_edges x k) x.

(** [Series.nunique()]. *)
Definition nunique (x : list Q) : nat := length (unique Qeq_bool x).

End Binning.

(** ** 01_cem_matching.py *)
Module Matching.
Import Binning.

(** One row of the gene-level feature table returned by
    [compute_pre_treatment_features]. *)
Record gene_features : Type := {
  gene_id : Z;
  pre_mean_papers : Q;
  pre_sd_papers : Q;
  pre_mean_newcom : Q;
  pre_mean_veteran : Q;
  pre_mean_top10 : Q;
  treated : Z;
  average_plddt : Q;
  gene_name : String.string;
  protein_id : String.string
}.

(** One row of the monthly panel, with the columns the matching script
    reads.  Count columns and [average_plddt] may hold missing values; the
    key, the treatment flag and the two names do not. *)
Record panel_row : Type := {
  p_gene_id : Z;
  ym_seq : Z;
  n_papers : option Q;
  n_newcomer_papers : option Q;
  n_veteran_papers : option Q;
  n_top10_y : option Q;
  p_treated : Z;
  p_average_plddt : option Q;
  p_gene_name : String.string;
  p_protein_id : String.string
}.

(** Group keys of [df.groupby('gene_id')]: distinct, ascending. *)
Definition group_keys (df : list panel_row) : list Z :=
  sort_by Z.leb (unique Z.eqb (map p_gene_id df)).

Definition group (df : list panel_row) (g : Z) : list panel_row :=
  filter (fun r => (p_gene_id r =? g)%Z) df.

Definition dropna_values (xs : list (option Q)) : list Q :=
  flat_map (fun x => match x with Some v => [v] | None => [] end) xs.

Definition count_Q (vs : list Q) : Q := inject_Z (Z.of_nat (length vs)).

(** Group aggregate ['mean']: mean of the non-missing values, NaN when
    there is none. *)
Definition agg_mean (xs : list (option Q)) : option Q :=
  match dropna_values xs with
  | [] => None
  | vs => Some (np_sum vs / count_Q vs)
  end.

(** Group aggregate ['first']: first non-missing value. *)
Definition agg_first (xs : list (option Q)) : option Q :=
  hd_error (dropna_values xs).

Section Features.
(** [np.sqrt] on non-negative floats. *)
Variable np_sqrt : Q -> Q.

(** Group aggregate ['std'] (pandas, [ddof=1]): NaN for fewer than two
    non-missing values. *)
Definition agg_std (xs : list (option Q)) : option Q :=
  let vs := dropna_values xs in
  if (length vs <=? 1)%nat then None
  else
    let m := np_sum vs / count_Q vs in
    Some (np_sqrt (np_sum (map (fun v => (v - m) * (v - m)) vs) / (count_Q vs - 1))).

(** A row of [pre_df.groupby('gene_id').agg(...)]. *)
Record feature_agg : Type := {
  fa_gene_id : Z;
  fa_mean_papers : option Q;
  fa_sd_papers : option Q;
  fa_mean_newcom : option Q;
  fa_mean_veteran : option Q;
  fa_mean_top10 : option Q
}.

(** A row of [gene_meta]. *)
Record gene_meta : Type := {
  gm_gene_id : Z;
  gm_treated : Z;
  gm_average_plddt : option Q;
  gm_gene_name : String.string;
  gm_protein_id : String.string
}.

Definition pre_period (treatment_seq : Z) (df : list panel_row) : list panel_row :=
  filter (fun r => (ym_seq r <? treatment_seq)%Z) df.

Definition aggregate_features (pre_df : list panel_row) : list feature_agg :=
  map (fun g =>
         let grp := group pre_df g in
         {| fa_gene_id := g;
            fa_mean_papers := agg_mean (map n_papers grp);
            fa_sd_papers := agg_std (map n_papers grp);
            fa_mean_newcom := agg_mean (map n_newcomer_papers grp);
            fa_mean_veteran := agg_mean (map n_veteran_papers grp);
            fa_mean_top10 := agg_mean (map n_top10_y grp) |})
      (group_keys pre_df).

(** [gene_features['pre_sd_papers'].fillna(0)]. *)
Definition fill_sd (fa : feature_agg) : feature_agg :=
  {| fa_gene_id := fa_gene_id fa;
     fa_mean_papers := fa_mean_papers fa;
     fa_sd_papers := Some (fillna0 (fa_sd_papers fa));
     fa_mean_newcom := fa_mean_newcom fa;
     fa_mean_veteran := fa_mean_veteran fa;
     fa_mean_top10 := fa_mean_top10 fa |}.

(** [df.groupby('gene_id').agg({... 'first'})] over the whole panel. *)
Definition aggregate_meta (df : list panel_row) : list gene_meta :=
  flat_map (fun g =>
              match group df g with
              | [] => []
              | r :: _ as grp =>
                  [{| gm_gene_id := g;
                      gm_treated := p_treated r;
                      gm_average_plddt := agg_first (map p_average_plddt grp);
                      gm_gene_name := p_gene_name r;
                      gm_protein_id := p_protein_id r |}]
              end)
           (group_keys df).

(** [gene_features.merge(gene_meta, on='gene_id', how='left')] and the
    final [fillna(0)] of the feature columns and of [average_plddt].
    The rows are those of the left table: every gene of the
    pre-period table has exactly one row in [gene_meta]
    ([meta_lookup_one]), so no metadata is missing after the join. *)
Definition merge_meta (feats : list feature_agg) (meta : list gene_meta)
  : list gene_features :=
  flat_map (fun fa =>
              map (fun gm =>
                     {| gene_id := fa_gene_id fa;
                        pre_mean_papers := fillna0 (fa_mean_papers fa);
                        pre_sd_papers := fillna0 (fa_sd_papers fa);
                        pre_mean_newcom := fillna0 (fa_mean_newcom fa);
                        pre_mean_veteran := fillna0 (fa_mean_veteran fa);
                        pre_mean_top10 := fillna0 (fa_mean_top10 fa);
                        treated := gm_treated gm;
                        average_plddt := fillna0 (gm_average_plddt gm);
                        gene_name := gm_gene_name gm;
                        protein_id := gm_protein_id gm |})
                  (filter (fun gm => (gm_gene_id gm =? fa_gene_id fa)%Z) meta))
           feats.

(** [compute_pre_treatment_features(df, treatment_seq)]. *)
Definition compute_pre_treatment_features (df : list panel_row)
           (treatment_seq : Z) : list gene_features :=
  let pre_df := pre_period treatment_seq df in
  let gene_features := map fill_sd (aggregate_features pre_df) in
  let gene_meta := aggregate_meta df in
  merge_meta gene_features gene_meta.

(** The five feature columns of an output row, with its key. *)
Definition feature_columns (g : gene_features) : Z * (Q * Q * Q * Q * Q) :=
  (gene_id g,
   (pre_mean_papers g, pre_sd_papers g, pre_mean_newcom g,
    pre_mean_veteran g, pre_mean_top10 g)).
End Features.

(** [match_vars]. *)
Definition match_vars : list (gene_features -> Q) :=
  [pre_mean_papers; pre_mean_newcom; pre_mean_veteran; pre_mean_top10; pre_sd_papers].

(** Body of the coarsening loop for one covariate column: quantile
    binning with [duplicates='drop'], equal-width binning when that
    raises [ValueError], then [fillna(0).astype(int)]. *)
Definition coarsen (x : list Q) (n_bins : nat) : py (list Z) :=
  py_bind
    (match qcut x n_bins true with
     | Raise ValueError => cut x (Nat.min n_bins (nunique x)) true
     | r => r
     end)
    (fun codes => Ret (map (fun c => match c with Some z => z | None => 0%Z end) codes)).

Fixpoint coarsen_all (vars : list (gene_features -> Q))
         (df : list gene_features) (n_bins : nat) : py (list (list Z)) :=
  match vars with
  | [] => Ret []
  | var :: vars' =>
      py_bind (coarsen (map var df) n_bins) (fun col =>
      py_bind (coarsen_all vars' df n_bins) (fun cols =>
      Ret (col :: cols)))
  end.

(** A gene with its stratum key.  The script's key is the string
    ['_'.join] of the five bin codes; the tuple of codes stands for it
    (the join is injective on tuples of fixed length). *)
Record binned_gene : Type := {
  features : gene_features;
  stratum : list Z
}.

Definition with_strata (df : list gene_features) (cols : list (list Z))
  : list binned_gene :=
  map (fun ig => {| features := snd ig;
                    stratum := map (fun col => nth (fst ig) col 0%Z) cols |})
      (combine (seq 0 (length df)) df).

Definition stratum_eqb (a b : list Z) : bool :=
  if list_eq_dec Z.eq_dec a b then true else false.

(** One row of [stratum_counts]. *)
Record stratum_count : Type := {
  sc_stratum : list Z;
  sc_n_treated : Z;
  sc_n_total : Z;
  sc_n_control : Z
}.

(** [df.groupby('stratum').agg({'treated': ['sum', 'count']})] followed by
    [n_control = n_total - n_treated].  Group keys are listed in order of
    first appearance; the table is only used through [isin] and a merge
    on the key, so the order of its rows is immaterial. *)
Definition stratum_counts (df : list binned_gene) : list stratum_count :=
  map (fun s =>
         let grp := filter (fun r => stratum_eqb (stratum r) s) df in
         let n_treated := sumZ (map (fun r => treated (features r)) grp) in
         let n_total := Z.of_nat (length grp) in
         {| sc_stratum := s; sc_n_treated := n_treated; sc_n_total := n_total;
            sc_n_control := (n_total - n_treated)%Z |})
      (unique stratum_eqb (map stratum df)).

(** Strata with both treated and control genes. *)
Definition common_support (counts : list stratum_count) : list (list Z) :=
  map sc_stratum
      (filter (fun c => (0 <? sc_n_treated c)%Z && (0 <? sc_n_control c)%Z) counts).

(** One row of the matched table [df_matched]. *)
Record matched_gene : Type := {
  binned : binned_gene;
  n_treated : Z;
  n_control : Z;
  cem_weight : Q
}.

(** [df_matched.merge(stratum_counts[[...]], on='stratum', how='left')]
    with the weight column of [np.where(treated == 1, 1.0,
    n_treated / n_control)].  Every key of [df_matched] occurs in
    [stratum_counts] ([merge_counts_one]), so the left join keeps
    every row and yields no missing count. *)
Definition merge_counts (df_matched : list binned_gene)
           (counts : list stratum_count) : list matched_gene :=
  flat_map (fun r =>
              map (fun c =>
                     {| binned := r;
                        n_treated := sc_n_treated c;
                        n_control := sc_n_control c;
                        cem_weight :=
                          if (treated (features r) =? 1)%Z then 1
                          else inject_Z (sc_n_treated c) / inject_Z (sc_n_control c) |})
                  (filter (fun c => stratum_eqb (sc_stratum c) (stratum r)) counts))
           df_matched.

Definition m_treated (r : matched_gene) : Z := treated (features (binned r)).

(** [df.loc[df['treated'] == t, 'cem_weight'].sum()]. *)
Definition weight_sum (t : Z) (df : list matched_gene) : Q :=
  np_sum (map cem_weight (filter (fun r => (m_treated r =? t)%Z) df)).

(** The weighting half of [coarsened_exact_matching]: common support,
    ATT weights, rescaling of the control weights.  A float division by
    zero does not raise in NumPy; here it only happens for
    [sum_control = 0], that is when no control row is left to rescale. *)
Definition cem_weights (df : list binned_gene) : list matched_gene :=
  let counts := stratum_counts df in
  let support := common_support counts in
  let df_matched := filter (fun r => existsb (stratum_eqb (stratum r)) support) df in
  let merged := merge_counts df_matched counts in
  let sum_treated := weight_sum 1 merged in
  let sum_control := weight_sum 0 merged in
  map (fun r =>
         if (m_treated r =? 0)%Z
         then {| binned := binned r; n_treated := n_treated r;
                 n_control := n_control r;
                 cem_weight := cem_weight r * (sum_treated / sum_control) |}
         else r) merged.

(** [df['stratum'] = df[cem_cols].astype(str).agg('_'.join, axis=1)]: on
    a frame without rows [agg] returns a frame, not a column, and the
    assignment to the column raises [ValueError]. *)
Definition assign_strata (df : list gene_features) (cols : list (list Z))
  : py (list binned_gene) :=
  match df with
  | [] => Raise ValueError
  | _ :: _ => Ret (with_strata df cols)
  end.

(** The stratification half: bin every matching covariate, form the
    stratum key. *)
Definition cem_strata (gene_features : list gene_features) (n_bins : nat)
  : py (list binned_gene) :=
  py_bind (coarsen_all match_vars gene_features n_bins) (fun cols =>
  assign_strata gene_features cols).

(** [coarsened_exact_matching(gene_features, n_bins)]. *)
Definition coarsened_exact_matching (gene_features : list gene_features)
           (n_bins : nat) : py (list matched_gene) :=
  py_bind (cem_strata gene_features n_bins) (fun df =>
  Ret (cem_weights df)).

End Matching.

(** ** 02_semester_aggregation.py *)
Module Semester.

(** [OUTCOMES]. *)
Inductive outcome : Type :=
| n_papers
| n_newcomer_papers
| n_veteran_papers
| n_top10_y.

Definition OUTCOMES : list outcome :=
  [n_papers; n_newcomer_papers; n_veteran_papers; n_top10_y].

(** One gene-semester row produced by [aggregate_to_semester].  The four
    outcome columns are sums and are never missing. *)
Record sem_row : Type := {
  gene_id : Z;
  semester : Z;
  rel_semester : Z;
  treated : Z;
  cem_weight : Q;
  level : outcome -> Q
}.

(** A row after [create_delta_variables]: the columns [asinh_<y>],
    [D_<y>] and [D_asinh_<y>] are added for each outcome. *)
Record delta_row : Type := {
  row : sem_row;
  asinh : outcome -> Q;
  D : outcome -> option Q;
  D_asinh : outcome -> option Q
}.

(** Order of [sort_values(['gene_id', 'semester'])]. *)
Definition gene_semester_leb (a b : sem_row) : bool :=
  (gene_id a <? gene_id b)%Z
  || ((gene_id a =? gene_id b)%Z && (semester a <=? semester b)%Z).

(** One entry of [df.groupby('gene_id')[col].diff()]: the row minus the
    previous row of the same gene in frame order, NaN on the first row
    of a gene.  [rev_before] holds the rows already passed, latest
    first. *)
Definition diff_at (col : sem_row -> Q) (rev_before : list sem_row)
           (r : sem_row) : option Q :=
  match find (fun p => (gene_id p =? gene_id r)%Z) rev_before with
  | Some p => Some (col r - col p)
  | None => None
  end.

Section Deltas.
(** [np.arcsinh]. *)
Variable np_arcsinh : Q -> Q.

Definition asinh_col (y : outcome) (r : sem_row) : Q := np_arcsinh (level r y).

(** The derived columns, filled in frame order. *)
Fixpoint add_deltas (rev_before : list sem_row) (df : list sem_row)
  : list delta_row :=
  match df with
  | [] => []
  | r :: df' =>
      {| row := r;
         asinh := fun y => asinh_col y r;
         D := fun y => diff_at (fun x => level x y) rev_before r;
         D_asinh := fun y => diff_at (asinh_col y) rev_before r |}
      :: add_deltas (r :: rev_before) df'
  end.

(** [create_delta_variables(df)] on a panel holding every outcome of
    [OUTCOMES]. *)
Definition create_delta_variables (df : list sem_row) : list delta_row :=
  add_deltas [] (sort_by gene_semester_leb df).
End Deltas.

(** Rows of one gene, in frame order. *)
Definition rows_of (g : Z) (df : list delta_row) : list delta_row :=
  filter (fun r => (gene_id (row r) =? g)%Z) df.

(** Sum of a column with missing values skipped. *)
Definition sum_skipna (xs : list (option Q)) : Q :=
  np_sum (map fillna0 xs).

End Semester.

(** ** 03_event_study.py *)
Module EventStudy.
Import Semester.

Definition BASE_PERIOD : Z := (-1)%Z.

(** A row of an event-study result table. *)
Record result_row : Type := {
  period : Z;
  coef : Q;
  se : Q;
  ci_low : Q;
  ci_high : Q
}.

(** The pairwise estimator adds the two group sizes to each row. *)
Record simple_row : Type := {
  estimate : result_row;
  n_treated : nat;
  n_control : nat
}.

Definition z_975 : Q := 196 # 100.

(** A panel row together with its non-missing outcome value. *)
Definition obs : Type := (delta_row * Q)%type.
Definition o_gene (o : obs) : Z := gene_id (row (fst o)).
Definition o_semester (o : obs) : Z := semester (row (fst o)).
Definition o_rel (o : obs) : Z := rel_semester (row (fst o)).
Definition o_treated (o : obs) : Z := treated (row (fst o)).
Definition o_value (o : obs) : Q := snd o.

(** [df.dropna(subset=[outcome])]. *)
Definition dropna (outcome : delta_row -> option Q) (df : list delta_row)
  : list obs :=
  flat_map (fun r => match outcome r with Some v => [(r, v)] | None => [] end) df.

(** [sorted(df['rel_semester'].unique())]. *)
Definition periods_of (df : list obs) : list Z :=
  sort_by Z.leb (unique Z.eqb (map o_rel df)).

(** [df[(df['rel_semester'] == k) & (df['treated'] == t)]]. *)
Definition select (df : list obs) (k t : Z) : list obs :=
  filter (fun o => (o_rel o =? k)%Z && (o_treated o =? t)%Z) df.

(** [np.average(values, weights=weights)]; raises [ZeroDivisionError]
    when the weights sum to zero. *)
Definition np_average (values weights : list Q) : py Q :=
  let scl := np_sum weights in
  if Qeq_bool scl 0 then Raise ZeroDivisionError
  else Ret (np_sum (map (fun vw => fst vw * snd vw) (combine values weights)) / scl).

(** ** The pairwise estimator: global random state *)

(** State of NumPy's global generator: the integers it will hand out and
    the position reached. *)
Record rng : Type := {
  stream : nat -> nat;
  cursor : nat
}.

(** Computations that read the generator and may raise. *)
Definition M (A : Type) : Type := rng -> py (A * rng).
Definition ret {A} (a : A) : M A := fun g => Ret (a, g).
Definition bind {A B} (c : M A) (f : A -> M B) : M B :=
  fun g => match c g with
           | Ret (a, g') => f a g'
           | Raise e => Raise e
           end.
Definition lift {A} (c : py A) : M A :=
  fun g => match c with Ret a => Ret (a, g) | Raise e => Raise e end.

Declare Scope M_scope.
Delimit Scope M_scope with M.
Notation "x <- c ;; k" := (bind c (fun x => k))
  (at level 61, c at next level, right associativity) : M_scope.
Local Open Scope M_scope.

(** [np.random.choice(a, size=size, replace=True)]: [size] independent
    uniform draws from [a]. *)
Definition choice (a : list Z) (size : nat) : M (list Z) :=
  fun g =>
    if (length a =? 0)%nat && negb (size =? 0)%nat then Raise ValueError
    else Ret (map (fun j => nth (stream g (cursor g + j) mod length a) a 0%Z)
                  (seq 0 size),
              {| stream := stream g; cursor := cursor g + size |}).

Section Estimators.
(** [np.sqrt]. *)
Variable np_sqrt : Q -> Q.
(** The outcome column and the weight column. *)
Variable outcome : delta_row -> option Q.
Variable weight : delta_row -> Q.

(** [np.average(rows[outcome], weights=rows[weight_col])]. *)
Definition weighted_mean (rows : list obs) : py Q :=
  np_average (map o_value rows) (map (fun o => weight (fst o)) rows).

(** [np.std(xs)] (NumPy, [ddof=0]). *)
Definition np_std (xs : list Q) : Q :=
  let n := inject_Z (Z.of_nat (length xs)) in
  let m := np_sum xs / n in
  np_sqrt (np_sum (map (fun x => (x - m) * (x - m)) xs) / n).

(** [rows[rows['gene_id'].isin(genes)]]. *)
Definition isin_genes (genes : list Z) (rows : list obs) : list obs :=
  filter (fun o => existsb (Z.eqb (o_gene o)) genes) rows.

(** One pass of the bootstrap loop. *)
Definition boot_step (treated_k control_k : list obs) (base_diff : Q)
           (boot_coefs : list Q) : M (list Q) :=
  let genes_t := unique Z.eqb (map o_gene treated_k) in
  let genes_c := unique Z.eqb (map o_gene control_k) in
  boot_genes_t <- choice genes_t (length genes_t) ;;
  boot_genes_c <- choice genes_c (length genes_c) ;;
  let boot_t := isin_genes boot_genes_t treated_k in
  let boot_c := isin_genes boot_genes_c control_k in
  if (0 <? length boot_t)%nat && (0 <? length boot_c)%nat then
    m_t <- lift (weighted_mean boot_t) ;;
    m_c <- lift (weighted_mean boot_c) ;;
    ret (boot_coefs ++ [(m_t - m_c) - base_diff])
  else ret boot_coefs.

(** [for _ in range(n): ...] over an accumulator. *)
Fixpoint for_range {A} (n : nat) (body : A -> M A) (acc : A) : M A :=
  match n with
  | O => ret acc
  | S n' => acc' <- body acc ;; for_range n' body acc'
  end.

Definition n_boot : nat := 200.

(** Body of the loop over periods. *)
Definition period_step (df : list obs) (base_period : Z) (base_diff : Q)
           (k : Z) (results : list simple_row) : M (list simple_row) :=
  let treated_k := select df k 1 in
  let control_k := select df k 0 in
  if (length treated_k =? 0)%nat || (length control_k =? 0)%nat then ret results
  else
    mean_treated <- lift (weighted_mean treated_k) ;;
    mean_control <- lift (weighted_mean control_k) ;;
    let diff_k := mean_treated - mean_control in
    let coef := if negb (k =? base_period)%Z then diff_k - base_diff else 0 in
    boot_coefs <- for_range n_boot (boot_step treated_k control_k base_diff) [] ;;
    let se := match boot_coefs with [] => 0 | _ => np_std boot_coefs end in
    ret (results ++
         [{| estimate := {| period := k; coef := coef; se := se;
                            ci_low := coef - z_975 * se;
                            ci_high := coef + z_975 * se |};
             n_treated := length treated_k;
             n_control := length control_k |}]).

Fixpoint for_periods (df : list obs) (base_period : Z) (base_diff : Q)
         (ks : list Z) (results : list simple_row) : M (list simple_row) :=
  match ks with
  | [] => ret results
  | k :: ks' =>
      results' <- period_step df base_period base_diff k results ;;
      for_periods df base_period base_diff ks' results'
  end.

Definition simple_period_leb (a b : simple_row) : bool :=
  (period (estimate a) <=? period (estimate b))%Z.

(** [pd.DataFrame(results).sort_values('period')]: a frame built from an
    empty list has no [period] column. *)
Definition frame_sorted_by_period (results : list simple_row)
  : py (list simple_row) :=
  match results with
  | [] => Raise KeyError
  | _ => Ret (sort_by simple_period_leb results)
  end.

(** [run_event_study_simple(df, outcome, weight_col, base_period)];
    [None] is Python's [None]. *)
Definition run_event_study_simple (df : list delta_row) (base_period : Z)
  : M (option (list simple_row)) :=
  let df := dropna outcome df in
  if (length df =? 0)%nat then ret None
  else
    let periods := periods_of df in
    let base_treated := select df base_period 1 in
    let base_control := select df base_period 0 in
    if (length base_treated =? 0)%nat || (length base_control =? 0)%nat
    then ret None
    else
      base_mean_t <- lift (weighted_mean base_treated) ;;
      base_mean_c <- lift (weighted_mean base_control) ;;
      let base_diff := base_mean_t - base_mean_c in
      results <- for_periods df base_period base_diff periods [] ;;
      table <- lift (frame_sorted_by_period results) ;;
      ret (Some table).

(** ** The fixed-effects estimator *)

(** statsmodels: [sm.add_constant] and the clustered fit
    [sm.OLS(y, X).fit(cov_type='cluster', cov_kwds={'groups': g})],
    returning [(results.params, results.bse)]. *)
Variable add_constant : list (list Q) -> py (list (list Q)).
Variable ols_fit_cluster :
  list Q -> list (list Q) -> list Z -> py (list Q * list Q).

(** [df.groupby(key)[col].transform('mean')] at one row. *)
Definition transform_mean (key : obs -> Z) (col : obs -> Q)
           (df : list obs) (o : obs) : Q :=
  let grp := filter (fun p => (key p =? key o)%Z) df in
  np_sum (map col grp) / inject_Z (Z.of_nat (length grp)).

Definition column_mean (col : obs -> Q) (df : list obs) : Q :=
  np_sum (map col df) / inject_Z (Z.of_nat (length df)).

(** Two-way within transformation of a column. *)
Definition demean (col : obs -> Q) (df : list obs) (o : obs) : Q :=
  col o - transform_mean o_gene col df o - transform_mean o_semester col df o
  + column_mean col df.

(** [treat_sem_k]. *)
Definition treat_sem (k : Z) (o : obs) : Q :=
  if (o_treated o =? 1)%Z && (o_rel o =? k)%Z then 1 else 0.

Definition result_period_leb (a b : result_row) : bool :=
  (period a <=? period b)%Z.

(** The loop that assembles the rows of the estimated periods. *)
Fixpoint estimated_rows (i : nat) (ks : list Z) (coefs ses : list Q)
  : py (list result_row) :=
  match ks with
  | [] => Ret []
  | k :: ks' =>
      match nth_error coefs i, nth_error ses i with
      | Some c, Some s =>
          py_bind (estimated_rows (S i) ks' coefs ses) (fun rest =>
          Ret ({| period := k; coef := c; se := s;
                  ci_low := c - z_975 * s; ci_high := c + z_975 * s |} :: rest))
      | _, _ => Raise IndexError
      end
  end.

(** [run_event_study_ols(df, outcome, weight_col, base_period)]. *)
Definition run_event_study_ols (df : list delta_row) (base_period : Z)
  : py (option (list result_row)) :=
  let df := dropna outcome df in
  if (length df =? 0)%nat then Ret None
  else
    let periods := periods_of df in
    let estimated := filter (fun k => negb (k =? base_period)%Z) periods in
    let w o := np_sqrt (weight (fst o)) in
    let X_weighted :=
      map (fun o => map (fun k => demean (treat_sem k) df o * w o) estimated) df in
    let y_weighted := map (fun o => demean o_value df o * w o) df in
    py_bind (add_constant X_weighted) (fun X_with_const =>
    match ols_fit_cluster y_weighted X_with_const (map o_gene df) with
    | Raise _ => Ret None
    | Ret (params, bse) =>
        py_bind (estimated_rows 0 estimated (tl params) (tl bse)) (fun rows =>
        Ret (Some (sort_by result_period_leb
                     (rows ++ [{| period := base_period; coef := 0; se := 0;
                                  ci_low := 0; ci_high := 0 |}]))))
    end).
End Estimators.

End EventStudy.

(** ** 01_cem_matching.py: time variables, matched panel, [main] *)
Module MonthlyPanel.

(** [TREATMENT_YM]: July 2021 as a Stata month index. *)
Definition TREATMENT_YM : Z := 738.

(** [N_QUANTILE_BINS]. *)
Definition N_QUANTILE_BINS : nat := 10.

(** One row of the monthly panel as [load_panel] returns it, with the
    columns the script reads.  The key [gene_id] and the month index [ym]
    are integers without missing values; the other numeric columns may
    hold NaN. *)
Record raw_row : Type := {
  r_gene_id : Z;
  ym : Z;
  num_deposits : option Q;
  r_n_papers : option Q;
  r_n_newcomer_papers : option Q;
  r_n_veteran_papers : option Q;
  r_n_top10_y : option Q;
  r_average_plddt : option Q;
  r_gene_name : String.string;
  r_protein_id : String.string
}.

(** The columns [create_time_variables] adds, apart from [treated]. *)
Record time_columns : Type := {
  raw : raw_row;
  ym_seq : Z;
  post : Z;
  quarter : Z;
  semester : Z;
  rel_quarter : Z;
  rel_semester : Z
}.

(** A row of the frame returned by [create_time_variables]. *)
Record timed_row : Type := {
  cols : time_columns;
  treated : Z
}.

Definition gene_id (r : timed_row) : Z := r_gene_id (raw (cols r)).

(** [Series.min()] of an integer column: NaN on an empty column. *)
Definition series_min (xs : list Z) : option Z :=
  match xs with
  | [] => None
  | x :: l => Some (fold_right Z.min x l)
  end.

(** [(df['num_deposits'] == 0).astype(int)]: a comparison with NaN is
    false. *)
Definition no_deposits (d : option Q) : Z :=
  match d with
  | Some v => if Qeq_bool v 0 then 1%Z else 0%Z
  | None => 0%Z
  end.

(** [create_time_variables(df)]: the frame with its time columns and
    [treatment_seq].  On an empty frame [ym_min] and [treatment_seq] are
    NaN and there is no row to fill.  [//] is floor division, as
    [Z.div] is for a positive divisor. *)
Definition create_time_variables (df : list raw_row) : list timed_row * option Z :=
  match series_min (map ym df) with
  | None => ([], None)
  | Some ym_min =>
      let treatment_seq := (TREATMENT_YM - ym_min + 1)%Z in
      let treatment_quarter := ((treatment_seq - 1) / 3)%Z in
      let treatment_semester := ((treatment_seq - 1) / 6)%Z in
      (map (fun r =>
              let ym_seq := (ym r - ym_min + 1)%Z in
              let quarter := ((ym_seq - 1) / 3)%Z in
              let semester := ((ym_seq - 1) / 6)%Z in
              {| cols := {| raw := r;
                            ym_seq := ym_seq;
                            post := if (treatment_seq <=? ym_seq)%Z then 1%Z else 0%Z;
                            quarter := quarter;
                            semester := semester;
                            rel_quarter := (quarter - treatment_quarter)%Z;
                            rel_semester := (semester - treatment_semester)%Z |};
                 treated := no_deposits (num_deposits r) |}) df,
       Some treatment_seq)
  end.

(** The columns of a row that [compute_pre_treatment_features] reads. *)
Definition panel_view (r : timed_row) : Matching.panel_row :=
  {| Matching.p_gene_id := gene_id r;
     Matching.ym_seq := ym_seq (cols r);
     Matching.n_papers := r_n_papers (raw (cols r));
     Matching.n_newcomer_papers := r_n_newcomer_papers (raw (cols r));
     Matching.n_veteran_papers := r_n_veteran_papers (raw (cols r));
     Matching.n_top10_y := r_n_top10_y (raw (cols r));
     Matching.p_treated := treated r;
     Matching.p_average_plddt := r_average_plddt (raw (cols r));
     Matching.p_gene_name := r_gene_name (raw (cols r));
     Matching.p_protein_id := r_protein_id (raw (cols r)) |}.

Definition m_gene_id (m : Matching.matched_gene) : Z :=
  Matching.gene_id (Matching.features (Matching.binned m)).

(** A row of the matched monthly panel: the panel columns without
    [treated], and the three columns merged in from [matched_genes]
    (missing where a left join finds no partner). *)
Record matched_panel_row : Type := {
  panel : time_columns;
  cem_weight : option Q;
  stratum : option (list Z);
  mp_treated : option Z
}.

(** [panel_matched.merge(matched_genes[weight_cols], on='gene_id',
    how='left')] at one row of the left frame: one output row per partner,
    in the order of the right frame, or one row of missing values. *)
Definition merge_weights (matched_genes : list Matching.matched_gene)
           (r : timed_row) : list matched_panel_row :=
  match filter (fun m => (m_gene_id m =? gene_id r)%Z) matched_genes with
  | [] => [{| panel := cols r; cem_weight := None; stratum := None;
              mp_treated := None |}]
  | ms => map (fun m => {| panel := cols r;
                           cem_weight := Some (Matching.cem_weight m);
                           stratum := Some (Matching.stratum (Matching.binned m));
                           mp_treated := Some (Matching.m_treated m) |}) ms
  end.

(** [create_matched_panel(panel_df, matched_genes)]. *)
Definition create_matched_panel (panel_df : list timed_row)
           (matched_genes : list Matching.matched_gene) : list matched_panel_row :=
  let matched_gene_ids := unique Z.eqb (map m_gene_id matched_genes) in
  let panel_matched :=
    filter (fun r => existsb (Z.eqb (gene_id r)) matched_gene_ids) panel_df in
  flat_map (merge_weights matched_genes) panel_matched.

Section Main.
Variable np_sqrt : Q -> Q.

(** [main()] from the loaded panel to its return value; the files it
    writes hold the feature table, [matched_genes] and
    [panel_matched].  With [treatment_seq] NaN the frame is empty and so
    is the feature table; on an empty feature table the matching raises
    [ValueError], and so does [main]. *)
Definition main (df : list raw_row)
  : py (list matched_panel_row * list Matching.matched_gene) :=
  let (df, treatment_seq) := create_time_variables df in
  let gene_features :=
    match treatment_seq with
    | Some ts => Matching.compute_pre_treatment_features np_sqrt (map panel_view df) ts
    | None => []
    end in
  py_bind (Matching.coarsened_exact_matching gene_features N_QUANTILE_BINS)
          (fun matched_genes =>
  Ret (create_matched_panel df matched_genes, matched_genes)).
End Main.

End MonthlyPanel.

(** ** 02_semester_aggregation.py: aggregation and event-study variables *)
Module SemesterPanel.

(** Group key of [df.groupby(['gene_id', 'semester'])]. *)
Definition key : Type := (Z * Z)%type.

Definition key_of (r : MonthlyPanel.matched_panel_row) : key :=
  (MonthlyPanel.r_gene_id (MonthlyPanel.raw (MonthlyPanel.panel r)),
   MonthlyPanel.semester (MonthlyPanel.panel r)).

Definition key_eqb (a b : key) : bool :=
  (fst a =? fst b)%Z && (snd a =? snd b)%Z.

(** Lexicographic order of the group keys. *)
Definition key_leb (a b : key) : bool :=
  (fst a <? fst b)%Z || ((fst a =? fst b)%Z && (snd a <=? snd b)%Z).

(** The group keys: distinct, in ascending order. *)
Definition group_keys (df : list MonthlyPanel.matched_panel_row) : list key :=
  sort_by key_leb (unique key_eqb (map key_of df)).

Definition group (df : list MonthlyPanel.matched_panel_row) (k : key)
  : list MonthlyPanel.matched_panel_row :=
  filter (fun r => key_eqb (key_of r) k) df.

(** Group aggregate ['first']: the first value that is not missing. *)
Fixpoint first_valid {A : Type} (xs : list (option A)) : option A :=
  match xs with
  | [] => None
  | Some v :: _ => Some v
  | None :: xs' => first_valid xs'
  end.

(** One row of the frame returned by [aggregate_to_semester], for the
    columns of the monthly panel modelled here (the other count columns
    of [agg_dict] are summed in the same way when the panel has them). *)
Record semester_agg : Type := {
  gene_id : Z;
  semester : Z;
  n_papers : Q;
  n_newcomer_papers : Q;
  n_veteran_papers : Q;
  n_top10_y : Q;
  treated : option Z;
  cem_weight : option Q;
  stratum : option (list Z);
  gene_name : String.string;
  protein_id : String.string;
  average_plddt : option Q;
  num_deposits : option Q;
  rel_semester : Z;
  post : Z
}.

Definition raw_of (r : MonthlyPanel.matched_panel_row) : MonthlyPanel.raw_row :=
  MonthlyPanel.raw (MonthlyPanel.panel r).

(** [df.groupby(['gene_id', 'semester']).agg(agg_dict).reset_index()]:
    one row per key; ['sum'] skips missing values, ['first'] takes the
    first value that is not missing, ['max'] the largest value. *)
Definition aggregate_to_semester (df : list MonthlyPanel.matched_panel_row)
  : list semester_agg :=
  flat_map
    (fun k =>
       match group df k with
       | [] => []
       | r :: rest =>
           let grp := r :: rest in
           [{| gene_id := fst k;
               semester := snd k;
               n_papers :=
                 Semester.sum_skipna
                   (map (fun x => MonthlyPanel.r_n_papers (raw_of x)) grp);
               n_newcomer_papers :=
                 Semester.sum_skipna
                   (map (fun x => MonthlyPanel.r_n_newcomer_papers (raw_of x)) grp);
               n_veteran_papers :=
                 Semester.sum_skipna
                   (map (fun x => MonthlyPanel.r_n_veteran_papers (raw_of x)) grp);
               n_top10_y :=
                 Semester.sum_skipna
                   (map (fun x => MonthlyPanel.r_n_top10_y (raw_of x)) grp);
               treated := first_valid (map MonthlyPanel.mp_treated grp);
               cem_weight := first_valid (map MonthlyPanel.cem_weight grp);
               stratum := first_valid (map MonthlyPanel.stratum grp);
               gene_name := MonthlyPanel.r_gene_name (raw_of r);
               protein_id := MonthlyPanel.r_protein_id (raw_of r);
               average_plddt :=
                 first_valid (map (fun x => MonthlyPanel.r_average_plddt (raw_of x)) grp);
               num_deposits :=
                 first_valid (map (fun x => MonthlyPanel.num_deposits (raw_of x)) grp);
               rel_semester := MonthlyPanel.rel_semester (MonthlyPanel.panel r);
               post :=
                 fold_right Z.max (MonthlyPanel.post (MonthlyPanel.panel r))
                            (map (fun x => MonthlyPanel.post (MonthlyPanel.panel x))
                                 rest) |}]
       end)
    (group_keys df).

(** A row of the frame returned by [create_event_study_variables]. *)
Record event_row : Type := {
  base : Semester.delta_row;
  rel_sem_fv : Z;
  t_sem : Q;
  pre : Z
}.

(** [create_event_study_variables(df)]; on an empty frame the minimum is
    NaN and there is no row to fill. *)
Definition create_event_study_variables (df : list Semester.delta_row)
  : list event_row :=
  match MonthlyPanel.series_min
          (map (fun r => Semester.rel_semester (Semester.row r)) df) with
  | None => []
  | Some min_sem =>
      map (fun r =>
             let rel := Semester.rel_semester (Semester.row r) in
             {| base := r;
                rel_sem_fv := (rel - min_sem)%Z;
                t_sem := inject_Z rel;
                pre := if (rel <? 0)%Z then 1%Z else 0%Z |}) df
  end.

End SemesterPanel.

(** ** run_pipeline.py *)
Module Pipeline.

(** The parsed command line: [--step] (absent: [None]) and
    [--skip-doi]. *)
Record args : Type := {
  step : option Z;
  skip_doi : bool
}.

(** The step numbers of [steps], in order; the names and module names
    that go with them only reach [print] and [__import__]. *)
Definition steps : list Z := [1; 2; 3; 4]%Z.

(** Truth value of [args.step]: [None] and 0 are false. *)
Definition truthy (s : option Z) : bool :=
  match s with
  | Some n => negb (n =? 0)%Z
  | None => false
  end.

(** [args.step != step_num], for a step that was given. *)
Definition differs (s : option Z) (step_num : Z) : bool :=
  match s with
  | Some n => negb (n =? step_num)%Z
  | None => true
  end.

Section Run.
(** What the steps read and write (files), and the [main] of the module
    of each step, which may raise. *)
Variable world : Type.
Variable module_main : Z -> world -> py unit * world.

(** [run_step]: any exception of the step is caught and reported as
    [False]. *)
Definition run_step (step_num : Z) (w : world) : bool * world :=
  match module_main step_num w with
  | (Ret _, w') => (true, w')
  | (Raise _, w') => (false, w')
  end.

(** The loop of [main] over the remaining steps, with [results] as
    accumulated so far. *)
Fixpoint run_steps (a : args) (todo : list Z) (results : list (Z * bool))
         (w : world) : list (Z * bool) * world :=
  match todo with
  | [] => (results, w)
  | step_num :: todo' =>
      if truthy (step a) && differs (step a) step_num then
        run_steps a todo' results w
      else if skip_doi a && (step_num =? 4)%Z then
        run_steps a todo' results w
      else
        let (success, w') := run_step step_num w in
        let results := results ++ [(step_num, success)] in
        if negb success && negb (truthy (step a)) then (results, w')
        else run_steps a todo' results w'
  end.

(** [main()]: the list [results] it reports and the state it leaves. *)
Definition main (a : args) (w : world) : list (Z * bool) * world :=
  run_steps a steps [] w.
End Run.

End Pipeline.

(** ** 04_integrate_dois.py *)
Module Dois.

(** [TREATMENT_YM]. *)
Definition TREATMENT_YM : Z := 738.

(** One record of the DOI crosswalk, with the columns the script reads;
    every column may hold a missing value. *)
Record doi_row : Type := {
  doi : option String.string;
  pmid : option Z;
  year : option Q;
  month : option Q;
  gene_id : option Z
}.

(** A record with the columns [create_time_variables] adds. *)
Record timed_doi : Type := {
  record : doi_row;
  ym : Q;
  ym_seq : Q;
  semester : Z;
  rel_semester : Z
}.

(** [create_time_variables(df)]: records without year or month are
    dropped; [//] on floats is the floor of the quotient. *)
Definition create_time_variables (df : list doi_row) : list timed_doi :=
  let ym_min := 720%Z in
  let treatment_seq := (TREATMENT_YM - ym_min + 1)%Z in
  let treatment_semester := ((treatment_seq - 1) / 6)%Z in
  flat_map
    (fun r =>
       match year r, month r with
       | Some y, Some m =>
           let ym := (y - 1960) * 12 + (m - 1) in
           let ym_seq := ym - inject_Z ym_min + 1 in
           let semester := Qfloor ((ym_seq - 1) / 6) in
           [{| record := r; ym := ym; ym_seq := ym_seq; semester := semester;
               rel_semester := (semester - treatment_semester)%Z |}]
       | _, _ => []
       end) df.

(** [(df['year'] >= 2020) & (df['year'] <= 2023)]: false on a missing
    year. *)
Definition in_analysis_period (r : doi_row) : bool :=
  match year r with
  | Some y => Qle_bool 2020 y && Qle_bool y 2023
  | None => false
  end.

(** Group key of [groupby(['gene_id', 'semester', 'rel_semester'])]. *)
Definition key : Type := (Z * (Z * Z))%type.

Definition key_eqb (a b : key) : bool :=
  (fst a =? fst b)%Z && (fst (snd a) =? fst (snd b))%Z
  && (snd (snd a) =? snd (snd b))%Z.

Definition key_leb (a b : key) : bool :=
  (fst a <? fst b)%Z
  || ((fst a =? fst b)%Z
      && ((fst (snd a) <? fst (snd b))%Z
          || ((fst (snd a) =? fst (snd b))%Z && (snd (snd a) <=? snd (snd b))%Z))).

(** Rows with a missing [gene_id] belong to no group. *)
Definition key_of (t : timed_doi) : option key :=
  match gene_id (record t) with
  | Some g => Some (g, (semester t, rel_semester t))
  | None => None
  end.

Definition has_key (k : key) (t : timed_doi) : bool :=
  match key_of t with
  | Some k' => key_eqb k' k
  | None => false
  end.

Definition group_keys (df : list timed_doi) : list key :=
  sort_by key_leb
    (unique key_eqb
       (flat_map (fun t => match key_of t with Some k => [k] | None => [] end) df)).

(** [pmid: 'count']: the number of values that are not missing. *)
Definition count_valid {A : Type} (xs : list (option A)) : nat :=
  length (filter (fun x => match x with Some _ => true | None => false end) xs).

(** A row of the frame returned by [aggregate_dois_by_gene_semester]. *)
Record doi_agg : Type := {
  a_gene_id : Z;
  a_semester : Z;
  a_rel_semester : Z;
  dois : list (option String.string);
  n_papers_doi : nat
}.

(** [aggregate_dois_by_gene_semester(df)]. *)
Definition aggregate_dois_by_gene_semester (df : list doi_row) : list doi_agg :=
  let df := filter in_analysis_period df in
  let df := create_time_variables df in
  map (fun k =>
         let grp := filter (has_key k) df in
         {| a_gene_id := fst k;
            a_semester := fst (snd k);
            a_rel_semester := snd (snd k);
            dois := map (fun t => doi (record t)) grp;
            n_papers_doi := count_valid (map (fun t => pmid (record t)) grp) |})
      (group_keys df).

(** Equality of two DOI cells as [drop_duplicates] sees it: missing
    values are duplicates of each other. *)
Definition doi_eqb (a b : option String.string) : bool :=
  match a, b with
  | Some x, Some y => String.eqb x y
  | None, None => true
  | _, _ => false
  end.

(** [df.drop_duplicates(subset=['doi'])]: the first row of each DOI. *)
Fixpoint drop_duplicates (seen : list (option String.string)) (df : list doi_row)
  : list doi_row :=
  match df with
  | [] => []
  | r :: df' =>
      if existsb (doi_eqb (doi r)) seen then drop_duplicates seen df'
      else r :: drop_duplicates (doi r :: seen) df'
  end.

(** [export_dois_for_shi_evans(df)]: the frame it returns and writes. *)
Definition export_dois_for_shi_evans (df : list doi_row) : list doi_row :=
  let dois := drop_duplicates [] df in
  filter in_analysis_period dois.

End Dois.

(** * Properties *)

(** ** Lists, sorting, sums *)

Section UniqueFacts.
Variable A : Type.
Variable eqb : A -> A -> bool.
Hypothesis eqb_spec : forall a b, eqb a b = true <-> a = b.

Lemma existsb_eqb_In (x : A) (l : list A) : existsb (eqb x) l = true <-> In x l.
Proof.
  rewrite existsb_exists; split.
  - intros [y [Hy He]]; apply eqb_spec in He; subst; exact Hy.
  - intros H; exists x; split; [exact H | apply eqb_spec; reflexivity].
Qed.

Lemma unique_acc_In (l seen : list A) (x : A) :
  In x (unique_acc eqb seen l) <-> In x l /\ ~ In x seen.
Proof.
  revert seen; induction l as [|y l IH]; intros seen; simpl.
  - tauto.
  - destruct (existsb (eqb y) seen) eqn:E.
    + apply existsb_eqb_In in E. rewrite IH. split.
      * intros [H1 H2]; auto.
      * intros [[H1|H1] H2]; [subst; contradiction | auto].
    + assert (Hn : ~ In y seen).
      { intros H; apply existsb_eqb_In in H; congruence. }
      simpl; rewrite IH; simpl.
      destruct (eqb y x) eqn:Eyx.
      * apply eqb_spec in Eyx; subst; tauto.
      * assert (y <> x) by (intros ->; rewrite (proj2 (eqb_spec x x) eq_refl) in Eyx; discriminate).
        tauto.
Qed.

Lemma unique_In (l : list A) (x : A) : In x (unique eqb l) <-> In x l.
Proof. unfold unique; rewrite unique_acc_In; simpl; tauto. Qed.

Lemma unique_acc_NoDup (l seen : list A) : NoDup (unique_acc eqb seen l).
Proof.
  revert seen; induction l as [|y l IH]; intros seen; simpl.
  - constructor.
  - destruct (existsb (eqb y) seen); [apply IH|].
    constructor; [|apply IH].
    rewrite unique_acc_In; simpl; tauto.
Qed.

Lemma unique_NoDup (l : list A) : NoDup (unique eqb l).
Proof. apply unique_acc_NoDup. Qed.

(** Selecting by key in a table with one row per distinct key. *)
Lemma filter_key_NoDup (B : Type) (key : B -> A) (mk : A -> B) (l : list A) (x : A) :
  (forall a, key (mk a) = a) -> NoDup l -> In x l ->
  filter (fun b => eqb (key b) x) (map mk l) = [mk x].
Proof.
  intros Hk Hnd. induction Hnd as [|y l Hy Hnd IH]; simpl; [tauto|].
  rewrite Hk. intros [->|Hin].
  - rewrite (proj2 (eqb_spec x x) eq_refl). f_equal.
    clear IH. induction l as [|z l IHl]; simpl; [reflexivity|].
    rewrite Hk. destruct (eqb z x) eqn:E.
    + apply eqb_spec in E; subst; exfalso; apply Hy; left; reflexivity.
    + apply IHl.
      * intros H; apply Hy; right; exact H.
      * inversion Hnd; assumption.
  - destruct (eqb y x) eqn:E.
    + apply eqb_spec in E; subst; contradiction.
    + apply IH; exact Hin.
Qed.
End UniqueFacts.
Arguments existsb_eqb_In [A eqb] eqb_spec x l.
Arguments unique_In [A eqb] eqb_spec l x.
Arguments unique_NoDup [A eqb] eqb_spec l.
Arguments filter_key_NoDup [A eqb] eqb_spec [B] key mk [l] x.

Lemma Zeqb_spec' (a b : Z) : (a =? b)%Z = true <-> a = b.
Proof. apply Z.eqb_eq. Qed.

Section SortFacts.
Variable A : Type.
Variable leb : A -> A -> bool.

Lemma insert_perm (x : A) (l : list A) : Permutation (insert leb x l) (x :: l).
Proof.
  induction l as [|y l IH]; simpl; [reflexivity|].
  destruct (leb x y); [reflexivity|].
  rewrite IH; apply perm_swap.
Qed.

Lemma sort_by_perm (l : list A) : Permutation (sort_by leb l) l.
Proof.
  induction l as [|x l IH]; simpl; [reflexivity|].
  rewrite insert_perm; constructor; exact IH.
Qed.

Lemma sort_by_In (l : list A) (x : A) : In x (sort_by leb l) <-> In x l.
Proof.
  split; apply Permutation_in; [|symmetry]; apply sort_by_perm.
Qed.

Lemma sort_by_length (l : list A) : length (sort_by leb l) = length l.
Proof. apply Permutation_length, sort_by_perm. Qed.

Lemma sort_by_NoDup (l : list A) : NoDup l -> NoDup (sort_by leb l).
Proof. apply Permutation_NoDup; symmetry; apply sort_by_perm. Qed.

End SortFacts.

Lemma np_sum_app (a b : list Q) : np_sum (a ++ b) == np_sum a + np_sum b.
Proof.
  induction a as [|x a IH]; simpl; [ring|]. rewrite IH; ring.
Qed.

Lemma np_sum_scale (c : Q) (l : list Q) :
  np_sum (map (fun w => w * c) l) == np_sum l * c.
Proof.
  induction l as [|x l IH]; simpl; [ring|]. rewrite IH; ring.
Qed.

Lemma np_sum_nonneg (l : list Q) : Forall (fun w => 0 <= w) l -> 0 <= np_sum l.
Proof.
  induction 1 as [|x l Hx _ IH]; simpl; [lra|lra].
Qed.

Lemma np_sum_pos (l : list Q) (x : Q) :
  Forall (fun w => 0 <= w) l -> In x l -> 0 < x -> 0 < np_sum l.
Proof.
  induction 1 as [|y l Hy Hl IH]; simpl; [tauto|].
  intros [->|Hin] Hx.
  - pose proof (np_sum_nonneg Hl); lra.
  - specialize (IH Hin Hx); lra.
Qed.

Lemma np_sum_const (c : Q) (l : list Q) :
  Forall (fun w => w == c) l -> np_sum l == inject_Z (Z.of_nat (length l)) * c.
Proof.
  induction 1 as [|y l Hy Hl IH].
  - simpl; ring.
  - cbn [np_sum fold_right length]. fold (np_sum l). rewrite IH, Hy.
    rewrite Nat2Z.inj_succ. unfold Z.succ. rewrite inject_Z_plus. ring.
Qed.

(** ** Coarsened exact matching: strata and weights *)

Section CEMFacts.
Import Matching.

Lemma stratum_eqb_spec (a b : list Z) : stratum_eqb a b = true <-> a = b.
Proof.
  unfold stratum_eqb; destruct (list_eq_dec Z.eq_dec a b); split; congruence.
Qed.

Definition binary (t : Z) : Prop := t = 0%Z \/ t = 1%Z.

(** In a frame whose [treated] column is 0/1, the sum of the column counts
    the treated rows and the remainder counts the control rows. *)
Lemma binary_counts (l : list binned_gene) :
  (forall r, In r l -> binary (treated (features r))) ->
  sumZ (map (fun r => treated (features r)) l)
  = Z.of_nat (length (filter (fun r => (treated (features r) =? 1)%Z) l))
  /\ (Z.of_nat (length l) - sumZ (map (fun r => treated (features r)) l))%Z
     = Z.of_nat (length (filter (fun r => (treated (features r) =? 0)%Z) l)).
Proof.
  induction l as [|r l IH]; intros Hb; [split; reflexivity|].
  destruct IH as [IH1 IH2]; [intros; apply Hb; right; assumption|].
  cbn [map sumZ fold_right filter length].
  fold (sumZ (map (fun r => treated (features r)) l)).
  destruct (Hb r (or_introl eq_refl)) as [E|E]; rewrite E; simpl Z.eqb; cbv iota;
    cbn [length]; rewrite ?Nat2Z.inj_succ; lia.
Qed.

Variable df : list binned_gene.

Definition stratum_rows (s : list Z) : list binned_gene :=
  filter (fun r => stratum_eqb (stratum r) s) df.

Definition count_of (s : list Z) : stratum_count :=
  let grp := stratum_rows s in
  let nt := sumZ (map (fun r => treated (features r)) grp) in
  {| sc_stratum := s; sc_n_treated := nt;
     sc_n_total := Z.of_nat (length grp);
     sc_n_control := (Z.of_nat (length grp) - nt)%Z |}.

Definition supported (s : list Z) : Prop :=
  (0 < sc_n_treated (count_of s))%Z /\ (0 < sc_n_control (count_of s))%Z.

Lemma stratum_counts_eq :
  stratum_counts df = map count_of (unique stratum_eqb (map stratum df)).
Proof. reflexivity. Qed.

(** Each gene's key selects exactly one row of [stratum_counts]. *)
Lemma merge_counts_one (r : binned_gene) :
  In r df ->
  filter (fun c => stratum_eqb (sc_stratum c) (stratum r)) (stratum_counts df)
  = [count_of (stratum r)].
Proof.
  intros Hin. rewrite stratum_counts_eq.
  apply (filter_key_NoDup stratum_eqb_spec sc_stratum count_of).
  - reflexivity.
  - apply (unique_NoDup stratum_eqb_spec).
  - apply (unique_In stratum_eqb_spec). apply in_map; exact Hin.
Qed.

Lemma in_common_support (r : binned_gene) :
  In r df ->
  (existsb (stratum_eqb (stratum r)) (common_support (stratum_counts df)) = true
   <-> supported (stratum r)).
Proof.
  intros Hin. rewrite (existsb_eqb_In stratum_eqb_spec).
  unfold common_support. rewrite in_map_iff. unfold supported. split.
  - intros [c [Hc Hf]]. apply filter_In in Hf. destruct Hf as [Hf Hv].
    rewrite stratum_counts_eq in Hf. apply in_map_iff in Hf.
    destruct Hf as [s [<- _]]. simpl in Hc. subst s.
    apply andb_true_iff in Hv. destruct Hv as [H1 H2].
    apply Z.ltb_lt in H1, H2. split; assumption.
  - intros [H1 H2]. exists (count_of (stratum r)). split; [reflexivity|].
    apply filter_In. split.
    + rewrite stratum_counts_eq. apply in_map.
      apply (unique_In stratum_eqb_spec). apply in_map; exact Hin.
    + apply andb_true_iff; split; apply Z.ltb_lt; assumption.
Qed.

Definition weighted (r : binned_gene) : matched_gene :=
  let c := count_of (stratum r) in
  {| binned := r; n_treated := sc_n_treated c; n_control := sc_n_control c;
     cem_weight := if (treated (features r) =? 1)%Z then 1
                   else inject_Z (sc_n_treated c) / inject_Z (sc_n_control c) |}.

Lemma merge_counts_eq (l : list binned_gene) :
  (forall r, In r l -> In r df) ->
  merge_counts l (stratum_counts df) = map weighted l.
Proof.
  induction l as [|r l IH]; intros Hl; [reflexivity|].
  cbn [merge_counts flat_map map].
  rewrite (merge_counts_one r (Hl r (or_introl eq_refl))).
  cbn [map app]. f_equal. apply IH. intros; apply Hl; right; assumption.
Qed.

Definition kept : list binned_gene :=
  filter (fun r => existsb (stratum_eqb (stratum r))
                           (common_support (stratum_counts df))) df.

Definition merged : list matched_gene := map weighted kept.

Definition rescale (ratio : Q) (r : matched_gene) : matched_gene :=
  if (m_treated r =? 0)%Z
  then {| binned := binned r; n_treated := n_treated r; n_control := n_control r;
          cem_weight := cem_weight r * ratio |}
  else r.

Lemma cem_weights_eq :
  cem_weights df
  = map (rescale (weight_sum 1 merged / weight_sum 0 merged)) merged.
Proof.
  unfold cem_weights. fold kept.
  rewrite merge_counts_eq; [reflexivity|].
  intros r Hr; apply filter_In in Hr; tauto.
Qed.

Lemma kept_iff (r : binned_gene) : In r kept <-> In r df /\ supported (stratum r).
Proof.
  unfold kept. rewrite filter_In. split.
  - intros [H1 H2]. split; [assumption|]. apply in_common_support; assumption.
  - intros [H1 H2]. split; [assumption|]. apply in_common_support; assumption.
Qed.

Lemma rescale_binned (ratio : Q) (r : matched_gene) :
  binned (rescale ratio r) = binned r
  /\ n_treated (rescale ratio r) = n_treated r
  /\ n_control (rescale ratio r) = n_control r.
Proof. unfold rescale; destruct (m_treated r =? 0)%Z; auto. Qed.

Lemma rescale_treated (ratio : Q) (r : matched_gene) :
  m_treated (rescale ratio r) = m_treated r.
Proof. unfold m_treated; destruct (rescale_binned ratio r) as [-> _]; reflexivity. Qed.

(** Rows of the output, described. *)
Lemma cem_weights_In (m : matched_gene) :
  In m (cem_weights df) ->
  In (binned m) df /\ supported (stratum (binned m))
  /\ n_treated m = sc_n_treated (count_of (stratum (binned m)))
  /\ n_control m = sc_n_control (count_of (stratum (binned m))).
Proof.
  rewrite cem_weights_eq. intros Hm. apply in_map_iff in Hm.
  destruct Hm as [m0 [<- Hm0]]. unfold merged in Hm0. apply in_map_iff in Hm0.
  destruct Hm0 as [r [<- Hr]]. apply kept_iff in Hr. destruct Hr as [H1 H2].
  destruct (rescale_binned (weight_sum 1 merged / weight_sum 0 merged) (weighted r))
    as [-> [-> ->]].
  simpl. auto.
Qed.

Lemma cem_weights_keeps (r : binned_gene) :
  In r df -> supported (stratum r) ->
  exists m, In m (cem_weights df) /\ binned m = r.
Proof.
  intros H1 H2. rewrite cem_weights_eq.
  exists (rescale (weight_sum 1 merged / weight_sum 0 merged) (weighted r)). split.
  - apply in_map. unfold merged. apply in_map. apply kept_iff; auto.
  - destruct (rescale_binned (weight_sum 1 merged / weight_sum 0 merged) (weighted r))
      as [-> _]. reflexivity.
Qed.

(** The rescaling leaves the treated weights alone and multiplies every
    control weight by the same ratio. *)
Lemma weight_sum_treated_rescale (ratio : Q) (l : list matched_gene) :
  weight_sum 1 (map (rescale ratio) l) = weight_sum 1 l.
Proof.
  unfold weight_sum. f_equal.
  induction l as [|r l IH]; [reflexivity|].
  cbn [map filter]. rewrite rescale_treated.
  destruct (m_treated r =? 1)%Z eqn:E.
  - cbn [map]. rewrite IH. f_equal.
    unfold rescale. apply Z.eqb_eq in E. rewrite E. reflexivity.
  - exact IH.
Qed.

Lemma weight_sum_control_rescale (ratio : Q) (l : list matched_gene) :
  weight_sum 0 (map (rescale ratio) l) == weight_sum 0 l * ratio.
Proof.
  unfold weight_sum.
  induction l as [|r l IH]; [simpl; ring|].
  cbn [map filter]. rewrite rescale_treated.
  destruct (m_treated r =? 0)%Z eqn:E.
  - cbn [map np_sum fold_right].
    fold (np_sum (map cem_weight
            (filter (fun r0 => (m_treated r0 =? 0)%Z) (map (rescale ratio) l)))).
    fold (np_sum (map cem_weight (filter (fun r0 => (m_treated r0 =? 0)%Z) l))).
    rewrite IH. unfold rescale. rewrite E. simpl. ring.
  - exact IH.
Qed.

Hypothesis treated_binary : forall r, In r df -> binary (treated (features r)).

Lemma stratum_rows_binary (s : list Z) (r : binned_gene) :
  In r (stratum_rows s) -> binary (treated (features r)).
Proof. intros H; apply filter_In in H; apply treated_binary; tauto. Qed.

(** With a 0/1 treatment column the two counts of a stratum are the
    numbers of its treated and of its control genes. *)
Lemma count_of_arms (s : list Z) :
  sc_n_treated (count_of s)
  = Z.of_nat (length (filter (fun r => (treated (features r) =? 1)%Z) (stratum_rows s)))
  /\ sc_n_control (count_of s)
     = Z.of_nat (length (filter (fun r => (treated (features r) =? 0)%Z) (stratum_rows s))).
Proof. apply (binary_counts (stratum_rows s)), stratum_rows_binary. Qed.

Lemma nonempty_filter_In (A : Type) (f : A -> bool) (l : list A) :
  (0 < Z.of_nat (length (filter f l)))%Z -> exists x, In x l /\ f x = true.
Proof.
  destruct (filter f l) as [|x l'] eqn:E; simpl; [lia|].
  intros _. exists x. apply filter_In. rewrite E. left; reflexivity.
Qed.

Lemma supported_arms (s : list Z) :
  supported s ->
  (exists t, In t df /\ stratum t = s /\ treated (features t) = 1%Z)
  /\ (exists c, In c df /\ stratum c = s /\ treated (features c) = 0%Z).
Proof.
  intros [H1 H2]. destruct (count_of_arms s) as [E1 E2].
  rewrite E1 in H1. rewrite E2 in H2.
  apply nonempty_filter_In in H1, H2.
  destruct H1 as [t [Ht Et]]. destruct H2 as [c [Hc Ec]].
  apply filter_In in Ht, Hc. destruct Ht as [Ht Kt]. destruct Hc as [Hc Kc].
  apply stratum_eqb_spec in Kt, Kc. apply Z.eqb_eq in Et, Ec.
  split; [exists t | exists c]; auto.
Qed.

Lemma arms_supported (t c : binned_gene) :
  In t df -> In c df -> stratum t = stratum c ->
  treated (features t) = 1%Z -> treated (features c) = 0%Z ->
  supported (stratum t).
Proof.
  intros Ht Hc Hs Et Ec. unfold supported.
  destruct (count_of_arms (stratum t)) as [-> ->].
  split.
  - assert (H : In t (filter (fun r => (treated (features r) =? 1)%Z)
                             (stratum_rows (stratum t)))).
    { apply filter_In; split; [apply filter_In; split; [assumption|] |].
      - apply stratum_eqb_spec; reflexivity.
      - apply Z.eqb_eq; assumption. }
    destruct (filter _ (stratum_rows (stratum t))); [contradiction | simpl; lia].
  - assert (H : In c (filter (fun r => (treated (features r) =? 0)%Z)
                             (stratum_rows (stratum t)))).
    { apply filter_In; split; [apply filter_In; split; [assumption|] |].
      - apply stratum_eqb_spec; symmetry; assumption.
      - apply Z.eqb_eq; assumption. }
    destruct (filter _ (stratum_rows (stratum t))); [contradiction | simpl; lia].
Qed.

Lemma count_ratio_pos (a b : Z) :
  (0 < a)%Z -> (0 < b)%Z -> 0 < inject_Z a / inject_Z b.
Proof.
  intros Ha Hb. apply Qlt_shift_div_l.
  - replace 0 with (inject_Z 0) by reflexivity. rewrite <- Zlt_Qlt. exact Hb.
  - rewrite Qmult_0_l. replace 0 with (inject_Z 0) by reflexivity.
    rewrite <- Zlt_Qlt. exact Ha.
Qed.

Lemma merged_control_weights :
  Forall (fun w => 0 <= w)
         (map cem_weight (filter (fun r => (m_treated r =? 0)%Z) merged)).
Proof.
  apply Forall_forall. intros w Hw. apply in_map_iff in Hw.
  destruct Hw as [m [<- Hm]]. apply filter_In in Hm. destruct Hm as [Hm Em].
  unfold merged in Hm. apply in_map_iff in Hm. destruct Hm as [r [<- Hr]].
  apply kept_iff in Hr. destruct Hr as [_ [H1 H2]].
  unfold m_treated in Em. cbn [weighted binned] in Em. apply Z.eqb_eq in Em.
  cbn [weighted cem_weight]. rewrite Em. cbn [Z.eqb].
  apply Qlt_le_weak, count_ratio_pos; assumption.
Qed.

(** A non-empty matched set carries positive total control weight. *)
Lemma sum_control_pos : merged <> [] -> 0 < weight_sum 0 merged.
Proof.
  intros Hne. unfold weight_sum.
  destruct merged as [|m0 l0] eqn:Em; [congruence|].
  assert (Hm0 : In m0 merged) by (rewrite Em; left; reflexivity).
  rewrite <- Em. clear Em l0 Hne.
  unfold merged in Hm0. apply in_map_iff in Hm0. destruct Hm0 as [r [_ Hr]].
  apply kept_iff in Hr. destruct Hr as [Hr Hs].
  destruct (supported_arms Hs) as [_ [c [Hc [Sc Ec]]]].
  assert (Hsc : supported (stratum c)) by (rewrite Sc; exact Hs).
  apply np_sum_pos with (x := cem_weight (weighted c)).
  - apply merged_control_weights.
  - apply in_map. apply filter_In. split.
    + unfold merged. apply in_map. apply kept_iff. auto.
    + unfold m_treated. cbn [weighted binned]. rewrite Ec. reflexivity.
  - cbn [weighted cem_weight]. rewrite Ec. cbn [Z.eqb]. destruct Hsc as [H1 H2].
    apply count_ratio_pos; assumption.
Qed.

Lemma cem_weights_balanced :
  cem_weights df <> [] ->
  weight_sum 1 (cem_weights df) == weight_sum 0 (cem_weights df).
Proof.
  rewrite cem_weights_eq. intros Hne.
  assert (Hm : merged <> []) by (intros E; rewrite E in Hne; apply Hne; reflexivity).
  rewrite weight_sum_treated_rescale, weight_sum_control_rescale.
  pose proof (sum_control_pos Hm) as Hpos.
  field. intros E. rewrite E in Hpos. apply (Qlt_irrefl 0). exact Hpos.
Qed.
End CEMFacts.

(** ** Coarsening never raises; the matching function returns on every
    feature table that has a row *)

Section Coarsening.
Import Binning Matching.

Definition fill_code (c : option Z) : Z :=
  match c with Some z => z | None => 0%Z end.

(** With [duplicates='drop'] the quantile binning returns codes whatever
    the boundaries are. *)
Lemma qcut_drop_ret (x : list Q) (q : nat) :
  qcut x q true
  = Ret (bins_to_codes true
           (if (length (unique Qeq_bool (quantile_edges x q))
                <? length (quantile_edges x q))%nat
               && negb (length (quantile_edges x q) =? 2)%nat
            then unique Qeq_bool (quantile_edges x q)
            else quantile_edges x q) x).
Proof.
  unfold qcut, bins_to_cuts.
  destruct ((length (unique Qeq_bool (quantile_edges x q))
             <? length (quantile_edges x q))%nat
            && negb (length (quantile_edges x q) =? 2)%nat); reflexivity.
Qed.

Lemma coarsen_qcut (x : list Q) (n_bins : nat) (codes : list (option Z)) :
  qcut x n_bins true = Ret codes ->
  coarsen x n_bins = Ret (map fill_code codes).
Proof. unfold coarsen; intros ->; reflexivity. Qed.

Lemma coarsen_ret (x : list Q) (n_bins : nat) :
  exists col, coarsen x n_bins = Ret col /\ length col = length x.
Proof.
  eexists; split.
  - apply coarsen_qcut, qcut_drop_ret.
  - unfold bins_to_codes; rewrite !length_map; reflexivity.
Qed.

Lemma coarsen_all_ret (vars : list (gene_features -> Q))
      (df : list gene_features) (n_bins : nat) :
  exists cols, coarsen_all vars df n_bins = Ret cols.
Proof.
  induction vars as [|v vars [cols IH]]; simpl.
  - eexists; reflexivity.
  - destruct (coarsen_ret (map v df) n_bins) as [col [-> _]].
    simpl. rewrite IH. simpl. eexists; reflexivity.
Qed.

Lemma map_snd_combine_seq (A : Type) (l : list A) (a : nat) :
  map snd (combine (seq a (length l)) l) = l.
Proof.
  revert a; induction l as [|x l IH]; intros a; simpl; [reflexivity|].
  f_equal; apply IH.
Qed.

Lemma with_strata_features (df : list gene_features) (cols : list (list Z)) :
  map features (with_strata df cols) = df.
Proof.
  unfold with_strata. rewrite map_map. simpl.
  apply (map_snd_combine_seq df 0).
Qed.

(** On a feature table with at least one row the stratification
    returns. *)
Lemma cem_strata_ret (gf : list gene_features) (n_bins : nat) :
  gf <> [] ->
  exists df, cem_strata gf n_bins = Ret df /\ map features df = gf.
Proof.
  intros Hne. unfold cem_strata.
  destruct (coarsen_all_ret match_vars gf n_bins) as [cols ->]. simpl.
  destruct gf as [|g gf']; [congruence|]. cbn [assign_strata].
  eexists; split; [reflexivity | apply with_strata_features].
Qed.

(** On a feature table without rows it raises. *)
Lemma cem_strata_empty (n_bins : nat) : cem_strata [] n_bins = Raise ValueError.
Proof.
  unfold cem_strata.
  destruct (coarsen_all_ret match_vars [] n_bins) as [cols ->]. reflexivity.
Qed.

Lemma cem_strata_features (gf : list gene_features) (n_bins : nat)
      (df : list binned_gene) :
  cem_strata gf n_bins = Ret df -> map features df = gf.
Proof.
  destruct gf as [|g gf'].
  - rewrite cem_strata_empty. discriminate.
  - destruct (@cem_strata_ret (g :: gf') n_bins) as [df' [E Hf]]; [discriminate|].
    rewrite E. intros H; injection H as <-. exact Hf.
Qed.

Lemma cem_strata_binary (gf : list gene_features) (n_bins : nat)
      (df : list binned_gene) :
  (forall g, In g gf -> binary (treated g)) ->
  cem_strata gf n_bins = Ret df ->
  forall r, In r df -> binary (treated (features r)).
Proof.
  intros Hb Hs r Hr.
  apply Hb. rewrite <- (cem_strata_features _ _ Hs). apply in_map. exact Hr.
Qed.
End Coarsening.

(** A small feature table: strata of mean publications 1 and 5 with both
    arms, and two one-armed strata. *)
Definition demo_gene (i t : Z) (m : Q) : Matching.gene_features :=
  {| Matching.gene_id := i; Matching.pre_mean_papers := m;
     Matching.pre_sd_papers := 0; Matching.pre_mean_newcom := 0;
     Matching.pre_mean_veteran := 0; Matching.pre_mean_top10 := 0;
     Matching.treated := t; Matching.average_plddt := 0;
     Matching.gene_name := String.EmptyString;
     Matching.protein_id := String.EmptyString |}.

Definition demo_features : list Matching.gene_features :=
  [demo_gene 1 1 1; demo_gene 2 1 1; demo_gene 3 1 5; demo_gene 5 0 1;
   demo_gene 6 0 1; demo_gene 7 0 1; demo_gene 8 0 5; demo_gene 9 1 7;
   demo_gene 10 0 9; demo_gene 11 0 9].

Lemma demo_features_binary :
  forall g, In g demo_features -> binary (Matching.treated g).
Proof.
  intros g Hg. simpl in Hg.
  repeat (destruct Hg as [<-|Hg]; [unfold binary; simpl; auto|]).
  contradiction.
Defined.

(** C2 — weight balance law: on every matched set that is not empty, the
    [cem_weight] of the treated genes sums to the [cem_weight] of the
    control genes (as exact rationals), for a 0/1 treatment column. *)
Theorem weight_balance_law (gf : list Matching.gene_features) (n_bins : nat)
        (matched : list Matching.matched_gene) :
  (forall g, In g gf -> binary (Matching.treated g)) ->
  Matching.coarsened_exact_matching gf n_bins = Ret matched ->
  matched <> [] ->
  Matching.weight_sum 1 matched == Matching.weight_sum 0 matched.
Proof.
  intros Hb Hc Hne. unfold Matching.coarsened_exact_matching in Hc.
  destruct (Matching.cem_strata gf n_bins) as [df|e] eqn:Es; simpl in Hc; [|discriminate].
  injection Hc as <-.
  apply cem_weights_balanced; [|exact Hne].
  exact (cem_strata_binary gf n_bins Hb Es).
Qed.

Lemma weight_balance_law_witness :
  exists matched,
    Matching.coarsened_exact_matching demo_features 10 = Ret matched
    /\ matched <> []
    /\ Matching.weight_sum 1 matched == Matching.weight_sum 0 matched.
Proof.
  eexists. split; [vm_compute; reflexivity|]. split; [discriminate|].
  apply (@weight_balance_law demo_features 10).
  - exact demo_features_binary.
  - vm_compute; reflexivity.
  - discriminate.
Defined.

(** C3, as the code has it — common-support invariant: on every feature
    table with at least one row the matching function returns a table;
    each retained gene's key selects exactly one stratum, whose counts are
    the numbers of treated and control genes sharing the key, both
    positive, and both arms of that stratum are retained; when no stratum
    holds both arms the returned table is empty.  A feature table without
    rows is outside this: there the function raises
    ([empty_table_raises]). *)
Theorem common_support_invariant (gf : list Matching.gene_features) (n_bins : nat) :
  gf <> [] ->
  (forall g, In g gf -> binary (Matching.treated g)) ->
  exists df matched,
    Matching.cem_strata gf n_bins = Ret df
    /\ Matching.coarsened_exact_matching gf n_bins = Ret matched
    /\ (forall m, In m matched ->
          let s := Matching.stratum (Matching.binned m) in
          In (Matching.binned m) df
          /\ length (filter (fun c => Matching.stratum_eqb (Matching.sc_stratum c) s)
                            (Matching.stratum_counts df)) = 1%nat
          /\ Matching.n_treated m
             = Z.of_nat (length (filter
                 (fun r => (Matching.treated (Matching.features r) =? 1)%Z)
                 (filter (fun r => Matching.stratum_eqb (Matching.stratum r) s) df)))
          /\ Matching.n_control m
             = Z.of_nat (length (filter
                 (fun r => (Matching.treated (Matching.features r) =? 0)%Z)
                 (filter (fun r => Matching.stratum_eqb (Matching.stratum r) s) df)))
          /\ (0 < Matching.n_treated m)%Z /\ (0 < Matching.n_control m)%Z
          /\ (exists t, In t matched
                        /\ Matching.stratum (Matching.binned t) = s
                        /\ Matching.m_treated t = 1%Z)
          /\ (exists c, In c matched
                        /\ Matching.stratum (Matching.binned c) = s
                        /\ Matching.m_treated c = 0%Z))
    /\ ((forall t c, In t df -> In c df ->
                     Matching.stratum t = Matching.stratum c ->
                     Matching.treated (Matching.features t) = 1%Z ->
                     Matching.treated (Matching.features c) = 0%Z -> False) ->
        matched = []).
Proof.
  intros Hne Hb.
  destruct (cem_strata_ret n_bins Hne) as [df [Es Hf]].
  exists df, (Matching.cem_weights df).
  pose proof (cem_strata_binary gf n_bins Hb Es) as Hbin.
  split; [exact Es|]. split.
  { unfold Matching.coarsened_exact_matching. rewrite Es. reflexivity. }
  split.
  - intros m Hm s.
    destruct (cem_weights_In df m Hm) as [Hin [Hs [Ent Enc]]].
    destruct (@count_of_arms df Hbin s) as [At Ac].
    split; [exact Hin|]. split.
    { subst s. rewrite (merge_counts_one df _ Hin). reflexivity. }
    split; [rewrite Ent; exact At|]. split; [rewrite Enc; exact Ac|].
    destruct Hs as [H1 H2].
    split; [rewrite Ent; exact H1|]. split; [rewrite Enc; exact H2|].
    destruct (@supported_arms df Hbin s (conj H1 H2)) as [[t [Ht [St Et]]] [c [Hc [Sc Ec]]]].
    split.
    + destruct (@cem_weights_keeps df t Ht) as [mt [Hmt Bt]].
      { rewrite St. split; assumption. }
      exists mt. unfold Matching.m_treated. rewrite Bt. auto.
    + destruct (@cem_weights_keeps df c Hc) as [mc [Hmc Bc]].
      { rewrite Sc. split; assumption. }
      exists mc. unfold Matching.m_treated. rewrite Bc. auto.
  - intros Hnone.
    destruct (Matching.cem_weights df) as [|m l] eqn:E; [reflexivity|].
    exfalso.
    assert (Hm : In m (Matching.cem_weights df)) by (rewrite E; left; reflexivity).
    destruct (cem_weights_In df m Hm) as [_ [Hs _]].
    destruct (@supported_arms df Hbin _ Hs) as [[t [Ht [St Et]]] [c [Hc [Sc Ec]]]].
    apply (Hnone t c Ht Hc); congruence.
Qed.

Lemma common_support_invariant_witness :
  exists df matched,
    Matching.cem_strata demo_features 10 = Ret df
    /\ Matching.coarsened_exact_matching demo_features 10 = Ret matched
    /\ (forall m, In m matched ->
          let s := Matching.stratum (Matching.binned m) in
          In (Matching.binned m) df
          /\ length (filter (fun c => Matching.stratum_eqb (Matching.sc_stratum c) s)
                            (Matching.stratum_counts df)) = 1%nat
          /\ Matching.n_treated m
             = Z.of_nat (length (filter
                 (fun r => (Matching.treated (Matching.features r) =? 1)%Z)
                 (filter (fun r => Matching.stratum_eqb (Matching.stratum r) s) df)))
          /\ Matching.n_control m
             = Z.of_nat (length (filter
                 (fun r => (Matching.treated (Matching.features r) =? 0)%Z)
                 (filter (fun r => Matching.stratum_eqb (Matching.stratum r) s) df)))
          /\ (0 < Matching.n_treated m)%Z /\ (0 < Matching.n_control m)%Z
          /\ (exists t, In t matched
                        /\ Matching.stratum (Matching.binned t) = s
                        /\ Matching.m_treated t = 1%Z)
          /\ (exists c, In c matched
                        /\ Matching.stratum (Matching.binned c) = s
                        /\ Matching.m_treated c = 0%Z))
    /\ ((forall t c, In t df -> In c df ->
                     Matching.stratum t = Matching.stratum c ->
                     Matching.treated (Matching.features t) = 1%Z ->
                     Matching.treated (Matching.features c) = 0%Z -> False) ->
        matched = []).
Proof.
  apply (@common_support_invariant demo_features 10).
  - discriminate.
  - exact demo_features_binary.
Defined.

(** A table without common support: treated genes at 1, control genes at 5.
    The matched set is empty and nothing is raised. *)
Example no_common_support_is_empty :
  Matching.coarsened_exact_matching
    [demo_gene 1 1 1; demo_gene 2 1 1; demo_gene 3 0 5; demo_gene 4 0 5] 10
  = Ret [].
Proof. vm_compute; reflexivity. Qed.

(** C3 as stated fails on the feature table without rows: no stratum
    holds both arms (there is none), yet the function does not return the
    empty matched set, it raises [ValueError] when it assigns the stratum
    column. *)
Lemma empty_table_raises :
  (forall t c : Matching.gene_features,
     In t [] -> In c [] ->
     Matching.treated t = 1%Z -> Matching.treated c = 0%Z -> False)
  /\ Matching.coarsened_exact_matching [] 10 = Raise ValueError
  /\ Matching.coarsened_exact_matching [] 10 <> Ret [].
Proof.
  split; [intros t c []|].
  split; [vm_compute; reflexivity|].
  vm_compute. discriminate.
Qed.

(** ** Quantile binning of one covariate *)

Section QuantileBinning.
Import Binning Matching.

(** Repeated quantile boundaries leave fewer than [n_bins] distinct
    bins. *)
Definition collapsed (x : list Q) (n_bins : nat) : bool :=
  (length (unique Qeq_bool (quantile_edges x n_bins)) <? S n_bins)%nat.

(** The binning the fallback branch computes. *)
Definition equal_width_codes (x : list Q) (n_bins : nat) : py (list Z) :=
  py_bind (cut x (Nat.min n_bins (nunique x)) true)
          (fun codes => Ret (map fill_code codes)).

Lemma quantile_edges_length (x : list Q) (n_bins : nat) :
  length (quantile_edges x n_bins) = S n_bins.
Proof.
  unfold quantile_edges, quantile_levels. rewrite !length_map, length_seq.
  reflexivity.
Qed.

Lemma bins_to_codes_bounds (lowest : bool) (bins x : list Q) :
  Forall (fun c => (0 <= c <= Z.max 0 (Z.of_nat (length bins) - 2))%Z)
         (map fill_code (bins_to_codes lowest bins x)).
Proof.
  apply Forall_forall. intros c Hc. unfold bins_to_codes in Hc.
  rewrite map_map in Hc. apply in_map_iff in Hc. destruct Hc as [v [<- _]].
  cbv zeta.
  set (ids := if lowest && Qeq_bool v (hd 0 bins) then 1%nat
              else searchsorted_left bins v).
  assert (Hids : (ids <= length bins \/ ids = 1)%nat).
  { subst ids. destruct (lowest && Qeq_bool v (hd 0 bins)); [right; reflexivity|].
    left. unfold searchsorted_left. apply filter_length_le. }
  destruct ((ids =? length bins)%nat || (ids =? 0)%nat) eqn:E; simpl; [lia|].
  apply orb_false_iff in E. destruct E as [E1 E2].
  apply Nat.eqb_neq in E1, E2. lia.
Qed.
End QuantileBinning.

(** C6, as the code has it — quantile binning with dropped duplicates: for
    every non-empty covariate column the bin codes are those of [pd.qcut] with
    [duplicates='drop'], missing codes replaced by 0, and the equal-width
    branch is not taken; when repeated boundaries leave fewer than
    [n_bins] bins (and [n_bins] is not 1) the column is binned on the
    distinct quantile boundaries that remain, so its codes stay below
    their number. *)
Theorem quantile_binning_drops_duplicates (x : list Q) (n_bins : nat) :
  x <> [] ->
  exists codes,
    Binning.qcut x n_bins true = Ret codes
    /\ Matching.coarsen x n_bins = Ret (map fill_code codes)
    /\ (collapsed x n_bins = true -> n_bins <> 1%nat ->
        let bins := unique Qeq_bool (Binning.quantile_edges x n_bins) in
        codes = Binning.bins_to_codes true bins x
        /\ Forall (fun c => (0 <= c <= Z.max 0 (Z.of_nat (length bins) - 2))%Z)
                  (map fill_code codes)
        /\ (length bins - 1 < n_bins)%nat).
Proof.
  intros _. eexists. split; [apply qcut_drop_ret|]. split.
  - apply coarsen_qcut, qcut_drop_ret.
  - intros Hc Hn bins. unfold collapsed in Hc.
    subst bins. rewrite (quantile_edges_length x n_bins). rewrite Hc.
    replace (negb (S n_bins =? 2)%nat) with true.
    2:{ symmetry; apply negb_true_iff, Nat.eqb_neq; lia. }
    cbn [andb]. split; [reflexivity|]. split.
    + apply bins_to_codes_bounds.
    + apply Nat.ltb_lt in Hc.
      pose proof (quantile_edges_length x n_bins) as Hl.
      destruct (Binning.quantile_edges x n_bins) as [|b bs]; [discriminate|].
      unfold unique in *. cbn [unique_acc existsb length] in *. lia.
Qed.

(** A column of eight zeros, a one and a hundred, binned in ten: the
    quantile boundaries collapse to four values. *)
Definition tied_column : list Q :=
  [0; 0; 0; 0; 0; 0; 0; 0; 1; 100 # 1].

Lemma quantile_binning_drops_duplicates_witness :
  exists codes,
    Binning.qcut tied_column 10 true = Ret codes
    /\ Matching.coarsen tied_column 10 = Ret (map fill_code codes)
    /\ (collapsed tied_column 10 = true -> 10%nat <> 1%nat ->
        let bins := unique Qeq_bool (Binning.quantile_edges tied_column 10) in
        codes = Binning.bins_to_codes true bins tied_column
        /\ Forall (fun c => (0 <= c <= Z.max 0 (Z.of_nat (length bins) - 2))%Z)
                  (map fill_code codes)
        /\ (length bins - 1 < 10)%nat).
Proof.
  apply (@quantile_binning_drops_duplicates tied_column 10).
  discriminate.
Defined.

(** C6 as stated fails: on [tied_column] the boundaries collapse, yet the
    codes are the quantile codes and differ from the equal-width codes over
    [min(n_bins, nunique)] bins. *)
Lemma quantile_fallback_counterexample :
  collapsed tied_column 10 = true
  /\ Matching.coarsen tied_column 10 = Ret [0; 0; 0; 0; 0; 0; 0; 0; 1; 2]%Z
  /\ equal_width_codes tied_column 10 = Ret [0; 0; 0; 0; 0; 0; 0; 0; 0; 2]%Z
  /\ Matching.coarsen tied_column 10 <> equal_width_codes tied_column 10.
Proof.
  split; [vm_compute; reflexivity|].
  split; [vm_compute; reflexivity|].
  split; [vm_compute; reflexivity|].
  vm_compute. discriminate.
Qed.

(** Under [duplicates='raise'] the same column would raise and reach the
    equal-width branch: the exception the fallback waits for is the one
    [duplicates='drop'] turns off. *)
Example qcut_raise_on_ties : Binning.qcut tied_column 10 false = Raise ValueError.
Proof. vm_compute; reflexivity. Qed.

(** ** Pre-treatment features *)

Section FeatureFacts.
Import Matching.
Variable np_sqrt : Q -> Q.

Lemma group_keys_In (df : list panel_row) (g : Z) :
  In g (group_keys df) <-> In g (map p_gene_id df).
Proof.
  unfold group_keys. rewrite sort_by_In. apply (unique_In Zeqb_spec').
Qed.

Lemma group_keys_NoDup (df : list panel_row) : NoDup (group_keys df).
Proof. apply sort_by_NoDup, (unique_NoDup Zeqb_spec'). Qed.

Lemma group_nonempty (df : list panel_row) (g : Z) :
  In g (map p_gene_id df) -> group df g <> [].
Proof.
  intros H. apply in_map_iff in H. destruct H as [r [E Hr]].
  assert (Hg : In r (group df g)).
  { apply filter_In; split; [assumption | apply Z.eqb_eq; assumption]. }
  intros E0; rewrite E0 in Hg; contradiction.
Qed.

(** The metadata row of one group key. *)
Definition meta_rows (df : list panel_row) (g : Z) : list gene_meta :=
  match group df g with
  | [] => []
  | r :: _ as grp =>
      [{| gm_gene_id := g; gm_treated := p_treated r;
          gm_average_plddt := agg_first (map p_average_plddt grp);
          gm_gene_name := p_gene_name r; gm_protein_id := p_protein_id r |}]
  end.

Lemma meta_rows_key (df : list panel_row) (k : Z) (gm : gene_meta) :
  In gm (meta_rows df k) -> gm_gene_id gm = k.
Proof.
  unfold meta_rows. destruct (group df k); simpl; [tauto|].
  intros [<-|[]]; reflexivity.
Qed.

Lemma meta_filter_other (df : list panel_row) (g : Z) (l : list Z) :
  ~ In g l ->
  filter (fun gm => (gm_gene_id gm =? g)%Z) (flat_map (meta_rows df) l) = [].
Proof.
  induction l as [|k l IH]; intros Hn; simpl; [reflexivity|].
  rewrite filter_app, IH by (intros H; apply Hn; right; exact H).
  rewrite app_nil_r.
  assert (Hk : k <> g) by (intros ->; apply Hn; left; reflexivity).
  pose proof (@meta_rows_key df k) as Hkey.
  destruct (meta_rows df k) as [|gm rest]; [reflexivity|].
  induction (gm :: rest) as [|a m IHm]; [reflexivity|]. simpl.
  rewrite (Hkey a (or_introl eq_refl)).
  destruct (Z.eqb_spec k g); [contradiction|].
  apply IHm. intros x Hx; apply Hkey; right; exact Hx.
Qed.

(** Every gene of the panel has exactly one row in [gene_meta]. *)
Lemma meta_lookup_one (df : list panel_row) (g : Z) :
  In g (map p_gene_id df) ->
  exists gm, filter (fun gm => (gm_gene_id gm =? g)%Z) (aggregate_meta df) = [gm].
Proof.
  intros Hg. unfold aggregate_meta. fold (meta_rows df).
  assert (Hin : In g (group_keys df)) by (apply group_keys_In; exact Hg).
  pose proof (group_keys_NoDup df) as Hnd.
  induction Hnd as [|k l Hk Hnd IH]; [contradiction|].
  simpl. rewrite filter_app. destruct Hin as [->|Hin].
  - rewrite (meta_filter_other df) by exact Hk. rewrite app_nil_r.
    unfold meta_rows. pose proof (group_nonempty df g Hg) as Hne.
    destruct (group df g) as [|r grp]; [congruence|].
    simpl. rewrite Z.eqb_refl. eexists; reflexivity.
  - destruct (IH Hin) as [gm Egm]. exists gm. rewrite Egm.
    assert (Hkg : k <> g) by (intros ->; contradiction).
    pose proof (@meta_rows_key df k) as Hkey.
    destruct (meta_rows df k) as [|a rest]; [reflexivity|].
    assert (E : filter (fun gm0 => (gm_gene_id gm0 =? g)%Z) (a :: rest) = []).
    { induction (a :: rest) as [|b m IHm]; [reflexivity|]. simpl.
      rewrite (Hkey b (or_introl eq_refl)).
      destruct (Z.eqb_spec k g); [contradiction|].
      apply IHm. intros x Hx; apply Hkey; right; exact Hx. }
    rewrite E. reflexivity.
Qed.

(** The feature columns of a row of the aggregated table. *)
Definition agg_columns (fa : feature_agg) : Z * (Q * Q * Q * Q * Q) :=
  (fa_gene_id fa,
   (fillna0 (fa_mean_papers fa), fillna0 (fa_sd_papers fa),
    fillna0 (fa_mean_newcom fa), fillna0 (fa_mean_veteran fa),
    fillna0 (fa_mean_top10 fa))).

Lemma merge_meta_columns (feats : list feature_agg) (meta : list gene_meta) :
  (forall fa, In fa feats ->
     exists gm, filter (fun gm => (gm_gene_id gm =? fa_gene_id fa)%Z) meta = [gm]) ->
  map feature_columns (merge_meta feats meta) = map agg_columns feats.
Proof.
  induction feats as [|fa feats IH]; intros H; [reflexivity|].
  cbn [merge_meta flat_map]. rewrite map_app.
  destruct (H fa (or_introl eq_refl)) as [gm ->].
  cbn [map app]. f_equal.
  apply IH. intros fa' Hfa'; apply H; right; exact Hfa'.
Qed.

Lemma pre_period_genes (df : list panel_row) (t : Z) (g : Z) :
  In g (group_keys (pre_period t df)) -> In g (map p_gene_id df).
Proof.
  intros H. apply group_keys_In in H. apply in_map_iff in H.
  destruct H as [r [E Hr]]. apply filter_In in Hr.
  apply in_map_iff. exists r. tauto.
Qed.

(** The feature columns are a function of the pre-period rows alone. *)
Lemma feature_columns_pre_period (df : list panel_row) (t : Z) :
  map feature_columns (compute_pre_treatment_features np_sqrt df t)
  = map agg_columns (map fill_sd (aggregate_features np_sqrt (pre_period t df))).
Proof.
  unfold compute_pre_treatment_features. apply merge_meta_columns.
  intros fa Hfa. apply in_map_iff in Hfa. destruct Hfa as [fa0 [<- Hfa0]].
  unfold aggregate_features in Hfa0. apply in_map_iff in Hfa0.
  destruct Hfa0 as [g [<- Hg]]. cbn [fill_sd fa_gene_id].
  apply meta_lookup_one. apply (pre_period_genes _ _ _ Hg).
Qed.

(** One output row per gene that has a pre-period row, in key order. *)
Lemma feature_rows_keys (df : list panel_row) (t : Z) :
  map gene_id (compute_pre_treatment_features np_sqrt df t)
  = group_keys (pre_period t df).
Proof.
  transitivity (map fst (map feature_columns
                  (compute_pre_treatment_features np_sqrt df t))).
  - rewrite map_map. reflexivity.
  - rewrite feature_columns_pre_period. unfold aggregate_features.
    rewrite !map_map. cbn [agg_columns fill_sd fa_gene_id fst].
    apply map_id.
Qed.

(** A single pre-treatment month gives standard deviation 0. *)
Lemma single_month_sd_zero (df : list panel_row) (t : Z) (g : gene_features) :
  In g (compute_pre_treatment_features np_sqrt df t) ->
  (length (group (pre_period t df) (gene_id g)) <= 1)%nat ->
  pre_sd_papers g = 0.
Proof.
  intros Hg Hlen.
  assert (Hc : In (feature_columns g)
                  (map feature_columns (compute_pre_treatment_features np_sqrt df t)))
    by (apply in_map; exact Hg).
  rewrite feature_columns_pre_period in Hc.
  unfold aggregate_features in Hc. rewrite !map_map in Hc.
  apply in_map_iff in Hc. destruct Hc as [k [E _]].
  unfold feature_columns, agg_columns in E. cbn [fill_sd fa_gene_id fa_sd_papers] in E.
  injection E as Ek _ Esd _ _ _. rewrite <- Esd. rewrite Ek.
  unfold agg_std.
  assert (Hd : (length (dropna_values
                 (map n_papers (group (pre_period t df) (gene_id g)))) <= 1)%nat).
  { revert Hlen. generalize (group (pre_period t df) (gene_id g)). intros l.
    assert (Hle : (length (dropna_values (map n_papers l)) <= length l)%nat).
    { induction l as [|r l IH]; simpl; [lia|].
      destruct (n_papers r); simpl; lia. }
    lia. }
  apply Nat.leb_le in Hd. rewrite Hd. reflexivity.
Qed.
End FeatureFacts.

(** A rational square root for the worked examples: six Newton steps from
    [(1 + x) / 2], zero at zero. *)
Definition newton_sqrt (x : Q) : Q :=
  if Qle_bool x 0 then 0
  else Nat.iter 6 (fun y => Qred ((y + x / y) / 2)) (Qred ((1 + x) / 2)).

Definition month (g ym : Z) (papers newcomer : Q) (deposits : Z)
  : Matching.panel_row :=
  {| Matching.p_gene_id := g; Matching.ym_seq := ym;
     Matching.n_papers := Some papers;
     Matching.n_newcomer_papers := Some newcomer;
     Matching.n_veteran_papers := Some (papers - newcomer);
     Matching.n_top10_y := Some 0;
     Matching.p_treated := if (deposits =? 0)%Z then 1%Z else 0%Z;
     Matching.p_average_plddt := None;
     Matching.p_gene_name := String.EmptyString;
     Matching.p_protein_id := String.EmptyString |}.

(** Two panels with the same months before treatment month 3 and different
    months from 3 on. *)
Definition panel_a : list Matching.panel_row :=
  [month 1 1 4 1 5; month 2 1 3 0 0; month 1 2 6 2 5; month 2 2 3 1 0;
   month 1 3 50 9 5; month 2 3 70 7 0; month 1 4 1 1 5].

Definition panel_b : list Matching.panel_row :=
  [month 1 1 4 1 5; month 2 1 3 0 0; month 1 2 6 2 5; month 2 2 3 1 0;
   month 2 3 999 999 0; month 1 3 0 0 5].

(** C5 — pre-period exclusion: two panels with the same rows strictly
    before the treatment period yield the same gene ids and the same five
    feature values; rows at or after the treatment period do not enter. *)
Theorem pre_period_exclusion (np_sqrt : Q -> Q)
        (df1 df2 : list Matching.panel_row) (treatment_seq : Z) :
  Matching.pre_period treatment_seq df1 = Matching.pre_period treatment_seq df2 ->
  map Matching.feature_columns
      (Matching.compute_pre_treatment_features np_sqrt df1 treatment_seq)
  = map Matching.feature_columns
        (Matching.compute_pre_treatment_features np_sqrt df2 treatment_seq).
Proof.
  intros H. rewrite !feature_columns_pre_period. rewrite H. reflexivity.
Qed.

Lemma pre_period_exclusion_witness :
  Matching.pre_period 3 panel_a = Matching.pre_period 3 panel_b
  /\ map Matching.feature_columns
         (Matching.compute_pre_treatment_features newton_sqrt panel_a 3)
     = map Matching.feature_columns
           (Matching.compute_pre_treatment_features newton_sqrt panel_b 3).
Proof.
  split; [reflexivity|].
  apply (@pre_period_exclusion newton_sqrt panel_a panel_b 3).
  reflexivity.
Defined.

(** A balanced panel of genes 1 and 2 over months 1 and 2, read with the
    treatment in month 1: no month lies strictly before it. *)
Definition post_only_panel : list Matching.panel_row :=
  [month 1 1 4 1 5; month 2 1 3 0 0; month 1 2 6 2 5; month 2 2 3 1 0].

(** A panel in which gene 3 enters at month 4, after treatment month 3. *)
Definition late_entry_panel : list Matching.panel_row :=
  [month 1 1 4 1 5; month 1 2 6 2 5; month 2 2 3 1 0; month 3 4 7 0 0;
   month 1 3 50 9 5; month 2 3 70 7 0].

(** C7 at failing inputs: genes without a month strictly before the
    treatment period get no row, zero-filled or other.  On
    [post_only_panel] with treatment month 1 the feature table is empty
    although the panel holds genes 1 and 2; on [late_entry_panel] with
    treatment month 3 it has rows for genes 1 and 2 and none for gene 3.
    Gene 2 of the second panel, with one pre-treatment month, has standard
    deviation 0. *)
Theorem no_pre_period_no_feature_row (np_sqrt : Q -> Q) :
  (Matching.group_keys post_only_panel = [1; 2]%Z
   /\ Matching.pre_period 1 post_only_panel = []
   /\ Matching.compute_pre_treatment_features np_sqrt post_only_panel 1 = [])
  /\ In 3%Z (map Matching.p_gene_id late_entry_panel)
  /\ Matching.pre_period 3 (Matching.group late_entry_panel 3) = []
  /\ map Matching.gene_id
         (Matching.compute_pre_treatment_features np_sqrt late_entry_panel 3)
     = [1; 2]%Z
  /\ exists variance,
       map Matching.pre_sd_papers
           (Matching.compute_pre_treatment_features np_sqrt late_entry_panel 3)
       = [np_sqrt variance; 0]
       /\ variance == 2.
Proof.
  split; [repeat split; reflexivity|].
  split; [simpl; tauto|]. split; [reflexivity|]. split.
  - rewrite feature_rows_keys. reflexivity.
  - eexists. split; [vm_compute; reflexivity|]. reflexivity.
Qed.

(** ** First differences within gene *)

Section SortedFacts.
Variable A : Type.
Variable leb : A -> A -> bool.
Hypothesis leb_total : forall a b, leb a b = false -> leb b a = true.

Let le (a b : A) : Prop := leb a b = true.

Lemma insert_sorted (x : A) (l : list A) :
  Sorted le l -> Sorted le (insert leb x l).
Proof.
  induction 1 as [|y l Hs IH Hhd]; simpl.
  - repeat constructor.
  - destruct (leb x y) eqn:E.
    + constructor; [constructor; assumption | constructor; exact E].
    + constructor; [exact IH|].
      destruct l as [|z l]; simpl.
      * constructor. apply leb_total; exact E.
      * destruct (leb x z); constructor.
        -- apply leb_total; exact E.
        -- inversion Hhd; assumption.
Qed.

Lemma sort_by_sorted (l : list A) : Sorted le (sort_by leb l).
Proof.
  induction l as [|x l IH]; simpl; [constructor | apply insert_sorted, IH].
Qed.

End SortedFacts.

Section FilterFacts.
Variable A : Type.

Lemma filter_perm (f : A -> bool) (l l' : list A) :
  Permutation l l' -> Permutation (filter f l) (filter f l').
Proof.
  induction 1 as [|x l l' _ IH|x y l|l l' l'' _ IH1 _ IH2]; simpl.
  - constructor.
  - destruct (f x); [constructor|]; exact IH.
  - destruct (f x), (f y); try reflexivity. apply perm_swap.
  - etransitivity; eassumption.
Qed.

Lemma filter_strongly_sorted (R : A -> A -> Prop) (f : A -> bool) (l : list A) :
  StronglySorted R l -> StronglySorted R (filter f l).
Proof.
  induction 1 as [|x l Hs IH Hall]; simpl; [constructor|].
  destruct (f x); [|exact IH].
  constructor; [exact IH|].
  apply Forall_forall. intros y Hy. apply filter_In in Hy.
  rewrite Forall_forall in Hall. apply Hall; tauto.
Qed.
End FilterFacts.

(** The first differences of a series, as the specification words them:
    missing at the first position, then each value minus the one before. *)
Fixpoint differences_from (prev : Q) (ys : list Q) : list (option Q) :=
  match ys with
  | [] => []
  | y :: ys' => Some (y - prev) :: differences_from y ys'
  end.

Definition first_differences (ys : list Q) : list (option Q) :=
  match ys with
  | [] => []
  | y :: ys' => None :: differences_from y ys'
  end.

Section DeltaFacts.
Import Semester.
Variable np_arcsinh : Q -> Q.

Lemma gene_semester_total (a b : sem_row) :
  gene_semester_leb a b = false -> gene_semester_leb b a = true.
Proof.
  unfold gene_semester_leb. intros H.
  apply orb_false_iff in H. destruct H as [H1 H2].
  apply Z.ltb_ge in H1.
  destruct (Z.eqb_spec (gene_id a) (gene_id b)) as [E|E]; simpl in H2.
  - apply Z.leb_gt in H2. rewrite E, Z.eqb_refl.
    apply orb_true_iff; right. apply Z.leb_le. lia.
  - apply orb_true_iff; left. apply Z.ltb_lt. lia.
Qed.

Lemma gene_semester_trans (a b c : sem_row) :
  gene_semester_leb a b = true -> gene_semester_leb b c = true ->
  gene_semester_leb a c = true.
Proof.
  unfold gene_semester_leb. intros H1 H2.
  apply orb_true_iff in H1, H2. apply orb_true_iff.
  rewrite !andb_true_iff, !Z.ltb_lt, !Z.eqb_eq, !Z.leb_le in *. lia.
Qed.

(** Frame-order view of the derived columns, one gene at a time. *)
Lemma add_deltas_rows (g : Z) (df rev_before : list sem_row) :
  map row (rows_of g (add_deltas np_arcsinh rev_before df))
  = filter (fun r => (gene_id r =? g)%Z) df.
Proof.
  unfold rows_of.
  revert rev_before; induction df as [|r df IH]; intros rb; [reflexivity|].
  cbn [add_deltas filter row].
  destruct (gene_id r =? g)%Z; cbn [map row]; rewrite IH; reflexivity.
Qed.

Lemma add_deltas_diff (g : Z) (y : outcome) (df rev_before : list sem_row) :
  map (fun r => D r y) (rows_of g (add_deltas np_arcsinh rev_before df))
  = let ys := map (fun r => level r y) (filter (fun r => (gene_id r =? g)%Z) df) in
    match find (fun p => (gene_id p =? g)%Z) rev_before with
    | Some p => differences_from (level p y) ys
    | None => first_differences ys
    end.
Proof.
  unfold rows_of.
  revert rev_before; induction df as [|r df IH]; intros rb.
  - cbv zeta. simpl. destruct (find _ rb); reflexivity.
  - cbn [add_deltas filter row].
    destruct (Z.eqb_spec (gene_id r) g) as [E|E].
    + cbn [map D]. rewrite IH. cbv zeta. cbn [find]. rewrite E, Z.eqb_refl.
      unfold diff_at. rewrite E.
      destruct (find (fun p => (gene_id p =? g)%Z) rb); reflexivity.
    + rewrite IH. cbv zeta. cbn [find].
      destruct (Z.eqb_spec (gene_id r) g); [contradiction|]. reflexivity.
Qed.

Lemma last_cons_default (a : Q) (l : list Q) (d1 d2 : Q) :
  last (a :: l) d1 = last (a :: l) d2.
Proof.
  revert a; induction l as [|b l IH]; intros a; [reflexivity|].
  change (last (b :: l) d1 = last (b :: l) d2). apply IH.
Qed.

Lemma differences_from_sum (prev : Q) (ys : list Q) :
  sum_skipna (differences_from prev ys) == last ys prev - prev.
Proof.
  revert prev; induction ys as [|y ys IH]; intros prev.
  - unfold sum_skipna; simpl; ring.
  - unfold sum_skipna in *. cbn [differences_from map np_sum fold_right fillna0].
    fold (np_sum (map fillna0 (differences_from y ys))).
    rewrite IH. destruct ys as [|y' ys]; [simpl; ring|].
    change (last (y :: y' :: ys) prev) with (last (y' :: ys) prev).
    rewrite (last_cons_default y' ys y prev). ring.
Qed.

Lemma gene_rows_sorted (g : Z) (df : list sem_row) :
  StronglySorted (fun a b => (semester a <= semester b)%Z)
    (filter (fun r => (gene_id r =? g)%Z) (sort_by gene_semester_leb df)).
Proof.
  pose proof (sort_by_sorted gene_semester_leb gene_semester_total df) as Hs.
  apply Sorted_StronglySorted in Hs.
  2:{ intros a b c; apply gene_semester_trans. }
  induction Hs as [|x l Hs IH Hall]; simpl; [constructor|].
  destruct (Z.eqb_spec (gene_id x) g) as [E|E]; [|exact IH].
  constructor; [exact IH|].
  apply Forall_forall. intros z Hz. apply filter_In in Hz. destruct Hz as [Hz Ez].
  rewrite Forall_forall in Hall. specialize (Hall z Hz).
  apply Z.eqb_eq in Ez. unfold gene_semester_leb in Hall.
  apply orb_true_iff in Hall.
  rewrite andb_true_iff, Z.ltb_lt, Z.eqb_eq, Z.leb_le in Hall. lia.
Qed.
End DeltaFacts.

(** C9 — first-difference telescoping: in the output of
    [create_delta_variables] the rows of a gene are its input rows in
    ascending semester order; for every outcome, [D_Y] is missing on the
    gene's first row and is otherwise the outcome minus the outcome of the
    gene's previous row; and the [D_Y] of the rows after the first sum to
    the last outcome minus the first. *)
Theorem first_difference_telescoping (np_arcsinh : Q -> Q)
        (df : list Semester.sem_row) (g : Z) (y : Semester.outcome) :
  let out := Semester.rows_of g (Semester.create_delta_variables np_arcsinh df) in
  let ys := map (fun r => Semester.level (Semester.row r) y) out in
  Permutation (map Semester.row out)
              (filter (fun r => (Semester.gene_id r =? g)%Z) df)
  /\ StronglySorted (fun a b => (Semester.semester a <= Semester.semester b)%Z)
                    (map Semester.row out)
  /\ map (fun r => Semester.D r y) out = first_differences ys
  /\ Semester.sum_skipna (map (fun r => Semester.D r y) (tl out))
     == last ys (hd 0 ys) - hd 0 ys.
Proof.
  intros out ys.
  assert (Hrows : map Semester.row out
                  = filter (fun r => (Semester.gene_id r =? g)%Z)
                           (sort_by Semester.gene_semester_leb df)).
  { apply add_deltas_rows. }
  assert (Hd : map (fun r => Semester.D r y) out = first_differences ys).
  { subst out ys. unfold Semester.create_delta_variables.
    rewrite add_deltas_diff. cbv zeta. cbn [find].
    rewrite <- (add_deltas_rows np_arcsinh g
                  (sort_by Semester.gene_semester_leb df) []).
    rewrite map_map. reflexivity. }
  split.
  { rewrite Hrows. apply filter_perm, sort_by_perm. }
  split.
  { rewrite Hrows. apply gene_rows_sorted. }
  split; [exact Hd|].
  assert (Htl : map (fun r => Semester.D r y) (tl out) = tl (first_differences ys)).
  { rewrite <- Hd. destruct out; reflexivity. }
  rewrite Htl. destruct ys as [|y0 ys']; cbn [first_differences tl hd].
  - unfold Semester.sum_skipna; simpl; ring.
  - rewrite differences_from_sum. destruct ys' as [|y1 ys']; [simpl; ring|].
    change (last (y0 :: y1 :: ys') y0) with (last (y1 :: ys') y0). ring.
Qed.

(** Gene 7 observed in semesters 3, 1, 2 with outcome 9, 2, 5. *)
Definition demo_semester (g s : Z) (v : Q) : Semester.sem_row :=
  {| Semester.gene_id := g; Semester.semester := s;
     Semester.rel_semester := (s - 2)%Z; Semester.treated := 1%Z;
     Semester.cem_weight := 1; Semester.level := fun _ => v |}.

Example first_difference_run (np_arcsinh : Q -> Q) :
  map (fun r => (Semester.semester (Semester.row r),
                 Semester.D r Semester.n_papers))
      (Semester.create_delta_variables np_arcsinh
         [demo_semester 7 3 9; demo_semester 4 1 1; demo_semester 7 1 2;
          demo_semester 7 2 5])
  = [(1%Z, None); (1%Z, None); (2%Z, Some (5 - 2)); (3%Z, Some (9 - 5))].
Proof. reflexivity. Qed.

(** ** The pairwise estimator under positive weights *)

Lemma sort_by_sorted_id (A : Type) (leb : A -> A -> bool) (l : list A) :
  Sorted (fun a b => leb a b = true) l -> sort_by leb l = l.
Proof.
  induction 1 as [|x l Hs IH Hhd]; [reflexivity|].
  simpl. rewrite IH. destruct Hhd as [|y l' Hxy]; simpl; [reflexivity|].
  rewrite Hxy. reflexivity.
Qed.

Lemma Zleb_total (a b : Z) : (a <=? b)%Z = false -> (b <=? a)%Z = true.
Proof. intros H; apply Z.leb_gt in H; apply Z.leb_le; lia. Qed.

Section PairwiseFacts.
Import Semester EventStudy.
Local Open Scope M_scope.

Variable np_sqrt : Q -> Q.
Variable outcome : delta_row -> option Q.
Variable weight : delta_row -> Q.

(** The value of [np.average] when the weights do not sum to zero. *)
Definition wmean (rows : list obs) : Q :=
  np_sum (map (fun vw => fst vw * snd vw)
              (combine (map o_value rows) (map (fun o => weight (fst o)) rows)))
  / np_sum (map (fun o => weight (fst o)) rows).

Definition positive_weights (rows : list obs) : Prop :=
  forall o, In o rows -> 0 < weight (fst o).

Lemma weights_sum_pos (rows : list obs) :
  rows <> [] -> positive_weights rows ->
  0 < np_sum (map (fun o => weight (fst o)) rows).
Proof.
  intros Hne Hp. destruct rows as [|o rows]; [congruence|].
  apply np_sum_pos with (x := weight (fst o)).
  - apply Forall_forall. intros w Hw. apply in_map_iff in Hw.
    destruct Hw as [o' [<- Ho']]. apply Qlt_le_weak, Hp, Ho'.
  - left; reflexivity.
  - apply Hp; left; reflexivity.
Qed.

Lemma weighted_mean_ret (rows : list obs) :
  rows <> [] -> positive_weights rows ->
  weighted_mean weight rows = Ret (wmean rows).
Proof.
  intros Hne Hp. unfold weighted_mean, np_average.
  pose proof (weights_sum_pos Hne Hp) as Hpos.
  destruct (Qeq_bool (np_sum (map (fun o => weight (fst o)) rows)) 0) eqn:E.
  - apply Qeq_bool_iff in E. rewrite E in Hpos.
    exfalso; apply (Qlt_irrefl 0); exact Hpos.
  - reflexivity.
Qed.

(** Rows with one common outcome value average to that value. *)
Lemma wmean_constant (rows : list obs) (c : Q) :
  rows <> [] -> positive_weights rows ->
  (forall o, In o rows -> o_value o == c) ->
  wmean rows == c.
Proof.
  intros Hne Hp Hc. unfold wmean.
  pose proof (weights_sum_pos Hne Hp) as Hpos.
  assert (E : np_sum (map (fun vw => fst vw * snd vw)
                (combine (map o_value rows) (map (fun o => weight (fst o)) rows)))
              == c * np_sum (map (fun o => weight (fst o)) rows)).
  { clear Hne Hp Hpos. induction rows as [|o rows IH]; [simpl; ring|].
    cbn [map combine np_sum fold_right fst snd].
    fold (np_sum (map (fun vw => fst vw * snd vw)
            (combine (map o_value rows) (map (fun o => weight (fst o)) rows)))).
    fold (np_sum (map (fun o => weight (fst o)) rows)).
    rewrite IH by (intros; apply Hc; right; assumption).
    rewrite (Hc o (or_introl eq_refl)). ring. }
  rewrite E. field. intros E0. rewrite E0 in Hpos.
  apply (Qlt_irrefl 0); exact Hpos.
Qed.

Definition advance (g : rng) (n : nat) : rng :=
  {| stream := stream g; cursor := cursor g + n |}.

(** The gene ids [np.random.choice] hands out at a generator state. *)
Definition draws (genes : list Z) (g : rng) : list Z :=
  map (fun j => nth (stream g (cursor g + j) mod length genes) genes 0%Z)
      (seq 0 (length genes)).

Lemma choice_ret (genes : list Z) (g : rng) :
  genes <> [] ->
  choice genes (length genes) g = Ret (draws genes g, advance g (length genes)).
Proof.
  intros Hne. unfold choice. destruct genes; [congruence|]. reflexivity.
Qed.

Lemma draws_In (genes : list Z) (g : rng) (d : Z) :
  In d (draws genes g) -> In d genes.
Proof.
  unfold draws. destruct genes as [|a genes]; [simpl; tauto|].
  intros H. apply in_map_iff in H. destruct H as [j [<- _]].
  apply nth_In. apply Nat.mod_upper_bound. discriminate.
Qed.

Lemma draws_nonempty (genes : list Z) (g : rng) :
  genes <> [] -> draws genes g <> [].
Proof. unfold draws; destruct genes; [congruence | discriminate]. Qed.

Definition genes_of (rows : list obs) : list Z := unique Z.eqb (map o_gene rows).

Lemma genes_of_nonempty (rows : list obs) : rows <> [] -> genes_of rows <> [].
Proof. destruct rows; [congruence | discriminate]. Qed.

(** The rows kept for a draw: rows whose gene occurs among the drawn
    ids. *)
Definition resampled (rows : list obs) (g : rng) : list obs :=
  isin_genes (draws (genes_of rows) g) rows.

Lemma resampled_nonempty (rows : list obs) (g : rng) :
  rows <> [] -> resampled rows g <> [].
Proof.
  intros Hne.
  pose proof (draws_nonempty g (genes_of_nonempty Hne)) as Hd.
  destruct (draws (genes_of rows) g) as [|d ds] eqn:Ed; [congruence|].
  assert (Hin : In d (genes_of rows)).
  { apply (@draws_In _ g). rewrite Ed. left; reflexivity. }
  unfold genes_of in Hin. apply (proj1 (unique_In Zeqb_spec' _ _)) in Hin.
  apply in_map_iff in Hin.
  destruct Hin as [o [Eo Ho]].
  assert (Hr : In o (resampled rows g)).
  { unfold resampled, isin_genes. apply filter_In. split; [assumption|].
    rewrite Ed. simpl. rewrite Eo, Z.eqb_refl. reflexivity. }
  intros E; rewrite E in Hr; contradiction.
Qed.

Lemma resampled_positive (rows : list obs) (g : rng) :
  positive_weights rows -> positive_weights (resampled rows g).
Proof.
  intros Hp o Ho. apply Hp. unfold resampled, isin_genes in Ho.
  apply filter_In in Ho. tauto.
Qed.

(** The statistic of one bootstrap replicate started at state [g]. *)
Definition boot_stat (treated_k control_k : list obs) (base_diff : Q) (g : rng) : Q :=
  (wmean (resampled treated_k g)
   - wmean (resampled control_k (advance g (length (genes_of treated_k)))))
  - base_diff.

Definition after_replicate (treated_k control_k : list obs) (g : rng) : rng :=
  advance (advance g (length (genes_of treated_k))) (length (genes_of control_k)).

Lemma length_pos_nonempty (A : Type) (l : list A) :
  l <> [] -> (0 <? length l)%nat = true.
Proof. destruct l; [congruence | reflexivity]. Qed.

Lemma boot_step_ret (treated_k control_k : list obs) (base_diff : Q)
      (boot_coefs : list Q) (g : rng) :
  treated_k <> [] -> control_k <> [] ->
  positive_weights treated_k -> positive_weights control_k ->
  boot_step weight treated_k control_k base_diff boot_coefs g
  = Ret (boot_coefs ++ [boot_stat treated_k control_k base_diff g],
         after_replicate treated_k control_k g).
Proof.
  intros Ht Hc Pt Pc. unfold boot_step, bind.
  fold (genes_of treated_k). fold (genes_of control_k).
  rewrite (choice_ret g (genes_of_nonempty Ht)).
  rewrite (choice_ret _ (genes_of_nonempty Hc)).
  fold (resampled treated_k g).
  fold (resampled control_k (advance g (length (genes_of treated_k)))).
  rewrite (length_pos_nonempty (resampled_nonempty g Ht)).
  rewrite (length_pos_nonempty (resampled_nonempty _ Hc)).
  cbn [andb]. unfold lift.
  rewrite (weighted_mean_ret (resampled_nonempty g Ht) (resampled_positive g Pt)).
  rewrite (weighted_mean_ret (resampled_nonempty _ Hc) (resampled_positive _ Pc)).
  reflexivity.
Qed.

(** The statistics of [n] successive replicates. *)
Fixpoint boot_stats (treated_k control_k : list obs) (base_diff : Q)
         (n : nat) (g : rng) : list Q :=
  match n with
  | O => []
  | S n' => boot_stat treated_k control_k base_diff g
            :: boot_stats treated_k control_k base_diff n'
                 (after_replicate treated_k control_k g)
  end.

Definition after_replicates (treated_k control_k : list obs) (n : nat) (g : rng) : rng :=
  Nat.iter n (after_replicate treated_k control_k) g.

Lemma boot_stats_length (t c : list obs) (bd : Q) (n : nat) (g : rng) :
  length (boot_stats t c bd n g) = n.
Proof. revert g; induction n; intros g; simpl; [|rewrite IHn]; reflexivity. Qed.

Lemma bootstrap_ret (treated_k control_k : list obs) (base_diff : Q)
      (n : nat) (acc : list Q) (g : rng) :
  treated_k <> [] -> control_k <> [] ->
  positive_weights treated_k -> positive_weights control_k ->
  for_range n (boot_step weight treated_k control_k base_diff) acc g
  = Ret (acc ++ boot_stats treated_k control_k base_diff n g,
         after_replicates treated_k control_k n g).
Proof.
  intros Ht Hc Pt Pc. revert acc g. induction n as [|n IH]; intros acc g.
  - simpl. unfold ret. rewrite app_nil_r. reflexivity.
  - cbn [for_range]. unfold bind at 1. rewrite boot_step_ret by assumption.
    rewrite IH. rewrite <- app_assoc. cbn [boot_stats app].
    unfold after_replicates. rewrite Nat.iter_succ_r. reflexivity.
Qed.
End PairwiseFacts.

Section Selection.
Import Semester EventStudy.
Variable df : list obs.

Lemma select_In (k t : Z) (o : obs) :
  In o (select df k t) <-> In o df /\ o_rel o = k /\ o_treated o = t.
Proof.
  unfold select. rewrite filter_In, andb_true_iff, !Z.eqb_eq. tauto.
Qed.

(** A period is reported when both arms have a row in it. *)
Definition both_arms (k : Z) : bool :=
  negb ((length (select df k 1) =? 0)%nat || (length (select df k 0) =? 0)%nat).

Lemma both_arms_nonempty (k : Z) :
  both_arms k = true <-> select df k 1 <> [] /\ select df k 0 <> [].
Proof.
  unfold both_arms. rewrite negb_true_iff, orb_false_iff, !Nat.eqb_neq.
  destruct (select df k 1), (select df k 0); simpl; split; intros [H1 H2];
    split; congruence.
Qed.

End Selection.

Section PairwiseRun.
Import Semester EventStudy.
Local Open Scope M_scope.

Variable np_sqrt : Q -> Q.
Variable outcome : delta_row -> option Q.
Variable weight : delta_row -> Q.
Variable df : list obs.
Variable base_period : Z.
Variable base_diff : Q.
Hypothesis weights_pos : positive_weights weight df.

Lemma select_positive (k t : Z) : positive_weights weight (select df k t).
Proof. intros o Ho. apply weights_pos. apply select_In in Ho. destruct Ho as [Ho _]. exact Ho. Qed.

(** The difference-in-differences coefficient of period [k]. *)
Definition coef_at (k : Z) : Q :=
  if negb (k =? base_period)%Z
  then (wmean weight (select df k 1) - wmean weight (select df k 0)) - base_diff
  else 0.

(** The replicate statistics of period [k] when its bootstrap starts at
    generator state [g]. *)
Definition replicates_at (k : Z) (g : rng) : list Q :=
  boot_stats weight (select df k 1) (select df k 0) base_diff n_boot g.

Definition row_at (k : Z) (g : rng) : simple_row :=
  let se := match replicates_at k g with
            | [] => 0
            | _ => np_std np_sqrt (replicates_at k g)
            end in
  {| estimate := {| period := k; coef := coef_at k; se := se;
                    ci_low := coef_at k - z_975 * se;
                    ci_high := coef_at k + z_975 * se |};
     n_treated := length (select df k 1);
     n_control := length (select df k 0) |}.

Definition after_period (k : Z) (g : rng) : rng :=
  after_replicates (select df k 1) (select df k 0) n_boot g.

Lemma period_step_ret (k : Z) (results : list simple_row) (g : rng) :
  period_step np_sqrt weight df base_period base_diff k results g
  = Ret (if both_arms df k
         then (results ++ [row_at k g], after_period k g)
         else (results, g)).
Proof.
  unfold period_step. destruct (both_arms df k) eqn:E.
  - pose proof E as E'. unfold both_arms in E'. apply negb_true_iff in E'. rewrite E'.
    apply both_arms_nonempty in E. destruct E as [Ht Hc].
    unfold bind, lift.
    rewrite (weighted_mean_ret Ht (select_positive k 1)).
    rewrite (weighted_mean_ret Hc (select_positive k 0)).
    rewrite (bootstrap_ret base_diff n_boot [] g Ht Hc
               (select_positive k 1) (select_positive k 0)).
    cbn [app]. reflexivity.
  - unfold both_arms in E. apply negb_false_iff in E. rewrite E. reflexivity.
Qed.

(** The rows the loop over periods appends, with the final generator
    state. *)
Fixpoint period_rows (ks : list Z) (g : rng) : list simple_row * rng :=
  match ks with
  | [] => ([], g)
  | k :: ks' =>
      if both_arms df k
      then let rest := period_rows ks' (after_period k g) in
           (row_at k g :: fst rest, snd rest)
      else period_rows ks' g
  end.

Lemma for_periods_ret (ks : list Z) (results : list simple_row) (g : rng) :
  for_periods np_sqrt weight df base_period base_diff ks results g
  = Ret (results ++ fst (period_rows ks g), snd (period_rows ks g)).
Proof.
  revert results g. induction ks as [|k ks IH]; intros results g.
  - simpl. unfold ret. rewrite app_nil_r. reflexivity.
  - cbn [for_periods period_rows]. unfold bind at 1. rewrite period_step_ret.
    destruct (both_arms df k); rewrite IH; [|reflexivity].
    cbn [fst snd]. rewrite <- app_assoc. reflexivity.
Qed.

Lemma period_rows_periods (ks : list Z) (g : rng) :
  map (fun r => period (estimate r)) (fst (period_rows ks g)) = filter (both_arms df) ks.
Proof.
  revert g; induction ks as [|k ks IH]; intros g; [reflexivity|].
  cbn [period_rows filter]. destruct (both_arms df k); [|apply IH].
  cbn [fst map]. rewrite IH. reflexivity.
Qed.

(** Every reported row is [row_at] its period, for the generator state at
    which that period's bootstrap started. *)
Lemma period_rows_In (ks : list Z) (g : rng) (r : simple_row) :
  In r (fst (period_rows ks g)) ->
  exists k g0, In k ks /\ both_arms df k = true /\ r = row_at k g0.
Proof.
  revert g; induction ks as [|k ks IH]; intros g; [simpl; tauto|].
  cbn [period_rows]. destruct (both_arms df k) eqn:E.
  - cbn [fst]. intros [<-|H].
    + exists k, g. split; [left; reflexivity | auto].
    + destruct (IH _ H) as [k' [g0 [H1 H2]]]. exists k', g0. split; [right|]; auto.
  - intros H. destruct (IH _ H) as [k' [g0 [H1 H2]]]. exists k', g0.
    split; [right|]; auto.
Qed.
End PairwiseRun.

Section PairwiseTable.
Import Semester EventStudy.
Local Open Scope M_scope.

Variable np_sqrt : Q -> Q.
Variable outcome : delta_row -> option Q.
Variable weight : delta_row -> Q.

Lemma periods_sorted (df : list obs) :
  StronglySorted Z.le (periods_of df).
Proof.
  unfold periods_of. apply Sorted_StronglySorted.
  - intros a b c; apply Z.le_trans.
  - pose proof (sort_by_sorted Z.leb Zleb_total (unique Z.eqb (map o_rel df))) as H.
    induction H as [|x l Hs IH Hhd]; constructor; [exact IH|].
    destruct Hhd as [|y l' Hy]; constructor. apply Z.leb_le; exact Hy.
Qed.

Lemma map_strongly_sorted (A : Type) (f : A -> Z) (l : list A) :
  StronglySorted Z.le (map f l) ->
  Sorted (fun a b => (f a <=? f b)%Z = true) l.
Proof.
  induction l as [|x l IH]; intros H; [constructor|].
  simpl in H. inversion H as [|? ? Hs Hall]; subst.
  constructor; [apply IH; exact Hs|].
  destruct l as [|y l]; constructor.
  simpl in Hall. inversion Hall; subst. apply Z.leb_le; assumption.
Qed.

(** What [run_event_study_simple] returns on a panel with positive
    weights whose base period has both arms: one row per period with
    both arms, in ascending order of period; nothing is raised. *)
Lemma run_event_study_simple_ret (df : list delta_row) (base_period : Z) (g : rng) :
  let obs := dropna outcome df in
  let base_diff := wmean weight (select obs base_period 1)
                   - wmean weight (select obs base_period 0) in
  positive_weights weight obs ->
  both_arms obs base_period = true ->
  run_event_study_simple np_sqrt outcome weight df base_period g
  = Ret (Some (fst (period_rows np_sqrt weight obs base_period base_diff
                      (periods_of obs) g)),
         snd (period_rows np_sqrt weight obs base_period base_diff
                (periods_of obs) g))
  /\ In base_period (periods_of obs).
Proof.
  intros obs base_diff Hp Hb.
  pose proof Hb as Hb'. apply both_arms_nonempty in Hb'. destruct Hb' as [Ht Hc].
  assert (Hin : In base_period (periods_of obs)).
  { destruct (select obs base_period 1) as [|o l] eqn:E; [congruence|].
    assert (Ho : In o (select obs base_period 1)) by (rewrite E; left; reflexivity).
    apply select_In in Ho. destruct Ho as [Ho [Er _]].
    unfold periods_of. apply (proj2 (sort_by_In _ _ _)).
    apply (proj2 (unique_In Zeqb_spec' _ _)).
    apply in_map_iff. exists o. split; assumption. }
  split; [|exact Hin].
  unfold run_event_study_simple. fold obs.
  destruct (length obs =? 0)%nat eqn:El.
  { apply Nat.eqb_eq in El. destruct obs; [|discriminate].
    exfalso. apply Ht. reflexivity. }
  pose proof Hb as Hb2. unfold both_arms in Hb2. apply negb_true_iff in Hb2.
  rewrite Hb2. unfold bind at 1. unfold lift at 1.
  rewrite (weighted_mean_ret Ht (select_positive Hp base_period 1)).
  unfold bind at 1. unfold lift at 1.
  rewrite (weighted_mean_ret Hc (select_positive Hp base_period 0)).
  fold base_diff. unfold bind at 1.
  rewrite (for_periods_ret np_sqrt base_period base_diff Hp). cbn [app].
  set (pr := period_rows np_sqrt weight obs base_period base_diff (periods_of obs) g).
  assert (Hsorted : Sorted (fun a b => simple_period_leb a b = true) (fst pr)).
  { unfold simple_period_leb.
    apply (map_strongly_sorted (fun r => period (estimate r))).
    subst pr. rewrite period_rows_periods.
    apply filter_strongly_sorted, periods_sorted. }
  assert (Hne : fst pr <> []).
  { intros E.
    assert (Hf : In base_period (filter (both_arms obs) (periods_of obs)))
      by (apply filter_In; split; assumption).
    rewrite <- (period_rows_periods np_sqrt weight obs base_period base_diff
                  (periods_of obs) g) in Hf.
    fold pr in Hf. rewrite E in Hf. contradiction. }
  unfold bind, lift, frame_sorted_by_period.
  destruct (fst pr) as [|r rs] eqn:Er; [congruence|].
  rewrite (sort_by_sorted_id _ Hsorted). reflexivity.
Qed.
End PairwiseTable.

(** ** Base-period normalization *)

Section BaseRow.
Import Semester EventStudy.
Local Open Scope M_scope.

Variable np_sqrt : Q -> Q.
Variable outcome : delta_row -> option Q.
Variable weight : delta_row -> Q.
Variable add_constant : list (list Q) -> py (list (list Q)).
Variable ols_fit_cluster : list Q -> list (list Q) -> list Z -> py (list Q * list Q).

Definition zero_row (base_period : Z) : result_row :=
  {| period := base_period; coef := 0; se := 0; ci_low := 0; ci_high := 0 |}.

Lemma estimated_rows_periods (ks : list Z) (coefs ses : list Q) (i : nat)
      (rows : list result_row) :
  estimated_rows i ks coefs ses = Ret rows -> map period rows = ks.
Proof.
  revert i rows; induction ks as [|k ks IH]; intros i rows; simpl.
  - intros H; injection H as <-; reflexivity.
  - destruct (nth_error coefs i); [|discriminate].
    destruct (nth_error ses i); [|discriminate].
    destruct (estimated_rows (S i) ks coefs ses) as [rest|] eqn:E; simpl; [|discriminate].
    intros H; injection H as <-. simpl. f_equal. apply (IH _ _ E).
Qed.

(** The fixed-effects estimator: a returned table holds the all-zero row
    of the base period, and no other row of that period. *)
Lemma ols_base_period_zero (df : list delta_row) (base_period : Z)
      (table : list result_row) :
  run_event_study_ols np_sqrt outcome weight add_constant ols_fit_cluster
                      df base_period = Ret (Some table) ->
  In (zero_row base_period) table
  /\ forall r, In r table -> period r = base_period -> r = zero_row base_period.
Proof.
  unfold run_event_study_ols.
  destruct (length (dropna outcome df) =? 0)%nat; [discriminate|].
  destruct (add_constant _) as [X|]; simpl; [|discriminate].
  destruct (ols_fit_cluster _ _ _) as [[params bse]|]; [|discriminate].
  destruct (estimated_rows 0 _ (tl params) (tl bse)) as [rows|] eqn:E; simpl;
    [|discriminate].
  intros H; injection H as <-.
  apply estimated_rows_periods in E. split.
  - apply sort_by_In. apply in_or_app. right. left. reflexivity.
  - intros r Hr Hp. apply sort_by_In in Hr. apply in_app_or in Hr.
    destruct Hr as [Hr|[<-|[]]]; [|reflexivity].
    exfalso. assert (Hk : In (period r) (map period rows)) by (apply in_map; exact Hr).
    rewrite E in Hk. apply filter_In in Hk. destruct Hk as [_ Hk].
    rewrite Hp, Z.eqb_refl in Hk. discriminate.
Qed.

Definition base_coef_zero (base_period : Z) (rows : list simple_row) : Prop :=
  forall r, In r rows -> period (estimate r) = base_period -> coef (estimate r) = 0.

Lemma period_step_base (obs : list EventStudy.obs) (base_period : Z) (base_diff : Q)
      (k : Z) (results results' : list simple_row) (g g' : rng) :
  period_step np_sqrt weight obs base_period base_diff k results g
  = Ret (results', g') ->
  base_coef_zero base_period results -> base_coef_zero base_period results'.
Proof.
  unfold period_step.
  destruct ((length (select obs k 1) =? 0)%nat || (length (select obs k 0) =? 0)%nat).
  { unfold ret. intros H; injection H as <- _. auto. }
  unfold bind, lift, ret.
  destruct (weighted_mean weight (select obs k 1)); [|discriminate].
  destruct (weighted_mean weight (select obs k 0)); [|discriminate].
  destruct (for_range n_boot _ [] g) as [[bc g2]|]; [|discriminate].
  intros H; injection H as <- _. intros Hres r Hr Hp.
  apply in_app_or in Hr. destruct Hr as [Hr|[<-|[]]]; [apply Hres; assumption|].
  cbn [estimate period coef] in *. rewrite Hp, Z.eqb_refl. reflexivity.
Qed.

Lemma for_periods_base (obs : list EventStudy.obs) (base_period : Z) (base_diff : Q)
      (ks : list Z) (results results' : list simple_row) (g g' : rng) :
  for_periods np_sqrt weight obs base_period base_diff ks results g
  = Ret (results', g') ->
  base_coef_zero base_period results -> base_coef_zero base_period results'.
Proof.
  revert results g; induction ks as [|k ks IH]; intros results g; cbn [for_periods].
  - unfold ret. intros H; injection H as <- _. auto.
  - unfold bind at 1.
    destruct (period_step np_sqrt weight obs base_period base_diff k results g)
      as [[r1 g1]|] eqn:E; [|discriminate].
    intros H Hres. apply (IH _ _ H). eapply period_step_base; eassumption.
Qed.

(** The pairwise estimator: in a returned table the coefficient of the
    base period is 0. *)
Lemma simple_base_coef_zero (df : list delta_row) (base_period : Z) (g g' : rng)
      (table : list simple_row) :
  run_event_study_simple np_sqrt outcome weight df base_period g
  = Ret (Some table, g') ->
  base_coef_zero base_period table.
Proof.
  unfold run_event_study_simple.
  destruct (length (dropna outcome df) =? 0)%nat; [discriminate|].
  destruct (_ || _); [discriminate|].
  unfold bind, lift, ret.
  destruct (weighted_mean weight _); [|discriminate].
  destruct (weighted_mean weight _); [|discriminate].
  destruct (for_periods _ _ _ _ _ _ _ _) as [[results g1]|] eqn:E; [|discriminate].
  unfold frame_sorted_by_period. destruct results as [|r rs]; [discriminate|].
  intros H; injection H as <- _.
  intros x Hx. change (In x (sort_by simple_period_leb (r :: rs))) in Hx.
  apply sort_by_In in Hx. revert x Hx.
  eapply for_periods_base; [exact E|]. intros x [].
Qed.
End BaseRow.

(** [newton_sqrt] does not vanish on positive numbers. *)
Lemma newton_sqrt_nonzero (x : Q) : 0 < x -> ~ newton_sqrt x == 0.
Proof.
  intros Hx. unfold newton_sqrt.
  destruct (Qle_bool x 0) eqn:E.
  { apply Qle_bool_iff in E. exfalso. apply (Qlt_irrefl 0).
    apply Qlt_le_trans with x; assumption. }
  assert (Hstep : forall y, 0 < y -> 0 < Qred ((y + x / y) / 2)).
  { intros y Hy. rewrite Qred_correct.
    assert (0 < x / y) by (apply Qlt_shift_div_l; [exact Hy | rewrite Qmult_0_l; exact Hx]).
    apply Qlt_shift_div_l; [reflexivity|]. rewrite Qmult_0_l.
    apply Qlt_trans with y; [exact Hy|].
    rewrite <- (Qplus_0_r y) at 1. apply Qplus_lt_r. assumption. }
  assert (H0 : 0 < Qred ((1 + x) / 2)).
  { rewrite Qred_correct. apply Qlt_shift_div_l; [reflexivity|]. rewrite Qmult_0_l.
    apply Qlt_trans with x; [exact Hx|].
    rewrite <- (Qplus_0_l x) at 1. apply Qplus_lt_l. reflexivity. }
  assert (Hit : forall n, 0 < Nat.iter n (fun y => Qred ((y + x / y) / 2))
                                   (Qred ((1 + x) / 2))).
  { induction n as [|n IH]; [exact H0|]. simpl. apply Hstep, IH. }
  intros E0. specialize (Hit 6%nat). rewrite E0 in Hit.
  apply (Qlt_irrefl 0); exact Hit.
Qed.

(** Rows for the worked examples: outcome level [v], first difference
    [d], weight 1. *)
Definition demo_row (g k t : Z) (v : Q) (d : option Q) : Semester.delta_row :=
  {| Semester.row :=
       {| Semester.gene_id := g; Semester.semester := (k + 10)%Z;
          Semester.rel_semester := k; Semester.treated := t;
          Semester.cem_weight := 1; Semester.level := fun _ => v |};
     Semester.asinh := fun _ => v;
     Semester.D := fun _ => d;
     Semester.D_asinh := fun _ => d |}.

Definition level_of (y : Semester.outcome) (r : Semester.delta_row) : option Q :=
  Some (Semester.level (Semester.row r) y).

Definition delta_of (y : Semester.outcome) (r : Semester.delta_row) : option Q :=
  Semester.D r y.

Definition cem_weight_of (r : Semester.delta_row) : Q :=
  Semester.cem_weight (Semester.row r).

(** Two treated genes with outcome 1 and 3 in the base period, one control
    gene; periods -1 and 0. *)
Definition two_period_panel : list Semester.delta_row :=
  [demo_row 1 (-1) 1 1 None; demo_row 2 (-1) 1 3 None; demo_row 3 (-1) 0 2 None;
   demo_row 1 0 1 4 None; demo_row 2 0 1 4 None; demo_row 3 0 0 2 None].

(** A generator whose first replicate draws the first treated gene
    twice. *)
Definition skewed_rng : EventStudy.rng :=
  {| EventStudy.stream := fun i => if (i <? 2)%nat then 0%nat else i;
     EventStudy.cursor := 0 |}.

Lemma two_period_positive :
  positive_weights cem_weight_of
    (EventStudy.dropna (level_of Semester.n_papers) two_period_panel).
Proof.
  intros o Ho. simpl in Ho.
  repeat (destruct Ho as [<-|Ho]; [reflexivity|]). contradiction.
Qed.

Lemma Qsquare_nonneg (a : Q) : 0 <= a * a.
Proof.
  destruct (Qlt_le_dec a 0) as [H|H].
  - setoid_replace (a * a) with ((- a) * (- a)) by ring.
    apply Qmult_le_0_compat; lra.
  - apply Qmult_le_0_compat; assumption.
Qed.

Lemma Qsquare_pos (a : Q) : ~ a == 0 -> 0 < a * a.
Proof.
  intros Ha. destruct (Qlt_le_dec a 0) as [H|H].
  - setoid_replace (a * a) with ((- a) * (- a)) by ring.
    apply Qmult_lt_0_compat; lra.
  - apply Qmult_lt_0_compat; apply Qle_lteq in H; destruct H as [H|H];
      try exact H; exfalso; apply Ha; symmetry; exact H.
Qed.

(** A list holding two different values has a non-zero standard
    deviation. *)
Lemma np_std_nonzero (np_sqrt : Q -> Q) (xs : list Q) (x y : Q) :
  (forall v, 0 < v -> ~ np_sqrt v == 0) ->
  In x xs -> In y xs -> ~ x == y ->
  ~ EventStudy.np_std np_sqrt xs == 0.
Proof.
  intros Hsqrt Hx Hy Hxy. unfold EventStudy.np_std. apply Hsqrt.
  set (n := inject_Z (Z.of_nat (length xs))).
  set (m := np_sum xs / n).
  assert (Hn : 0 < n).
  { subst n. destruct xs as [|a xs]; [contradiction|].
    change 0 with (inject_Z 0). rewrite <- Zlt_Qlt. simpl. lia. }
  assert (Hz : exists z, In z xs /\ ~ z == m).
  { destruct (Qeq_dec x m) as [Ex|Ex]; [|exists x; auto].
    exists y. split; [exact Hy|]. intros Ey. apply Hxy. rewrite Ex, Ey. reflexivity. }
  destruct Hz as [z [Hz Hzm]].
  apply Qlt_shift_div_l; [exact Hn|]. rewrite Qmult_0_l.
  apply np_sum_pos with (x := (z - m) * (z - m)).
  - apply Forall_forall. intros w Hw. apply in_map_iff in Hw.
    destruct Hw as [v [<- _]]. apply Qsquare_nonneg.
  - apply in_map_iff. exists z. auto.
  - apply Qsquare_pos. intros E; apply Hzm; lra.
Qed.

(** C1 at a failing input: on [two_period_panel] the pairwise estimator
    returns a table whose base-period row has coefficient 0 and a standard
    error and confidence bounds different from 0, for every square root
    that does not vanish on positive numbers. *)
Theorem simple_base_period_se_nonzero (np_sqrt : Q -> Q) :
  (forall x, 0 < x -> ~ np_sqrt x == 0) ->
  exists table g' r,
    EventStudy.run_event_study_simple np_sqrt (level_of Semester.n_papers)
      cem_weight_of two_period_panel EventStudy.BASE_PERIOD skewed_rng
    = Ret (Some table, g')
    /\ In r table
    /\ EventStudy.period (EventStudy.estimate r) = EventStudy.BASE_PERIOD
    /\ EventStudy.coef (EventStudy.estimate r) = 0
    /\ ~ EventStudy.se (EventStudy.estimate r) == 0
    /\ ~ EventStudy.ci_low (EventStudy.estimate r) == 0
    /\ ~ EventStudy.ci_high (EventStudy.estimate r) == 0.
Proof.
  intros Hsqrt.
  destruct (@run_event_study_simple_ret np_sqrt (level_of Semester.n_papers)
              cem_weight_of two_period_panel EventStudy.BASE_PERIOD skewed_rng
              two_period_positive eq_refl) as [Hrun _].
  eexists. eexists. eexists.
  split; [exact Hrun|].
  change (EventStudy.periods_of
            (EventStudy.dropna (level_of Semester.n_papers) two_period_panel))
    with [(-1)%Z; 0%Z].
  cbn [period_rows].
  change (both_arms (EventStudy.dropna (level_of Semester.n_papers) two_period_panel)
                    (-1)) with true.
  cbv iota. cbn [fst].
  split; [left; reflexivity|].
  split; [reflexivity|]. split; [reflexivity|].
  cbn [row_at EventStudy.estimate EventStudy.se EventStudy.ci_low EventStudy.ci_high].
  unfold replicates_at, EventStudy.n_boot.
  cbn [boot_stats].
  match goal with
  | |- ~ EventStudy.np_std np_sqrt (?a :: ?b :: ?rest) == 0 /\ _ =>
      assert (Hse : ~ EventStudy.np_std np_sqrt (a :: b :: rest) == 0);
      [ apply (@np_std_nonzero np_sqrt (a :: b :: rest) a b Hsqrt);
        [ left; reflexivity | right; left; reflexivity
        | vm_compute; discriminate ]
      | set (s := EventStudy.np_std np_sqrt (a :: b :: rest)) in * ]
  end.
  unfold coef_at. change (negb (-1 =? EventStudy.BASE_PERIOD)%Z) with false. cbv iota.
  split; [exact Hse|]. split; intros E; apply Hse.
  - assert (E' : 0 - (196 # 100) * s == 0) by exact E. lra.
  - assert (E' : 0 + (196 # 100) * s == 0) by exact E. lra.
Qed.

Lemma simple_base_period_se_nonzero_witness :
  exists table g' r,
    EventStudy.run_event_study_simple newton_sqrt (level_of Semester.n_papers)
      cem_weight_of two_period_panel EventStudy.BASE_PERIOD skewed_rng
    = Ret (Some table, g')
    /\ In r table
    /\ EventStudy.period (EventStudy.estimate r) = EventStudy.BASE_PERIOD
    /\ EventStudy.coef (EventStudy.estimate r) = 0
    /\ ~ EventStudy.se (EventStudy.estimate r) == 0
    /\ ~ EventStudy.ci_low (EventStudy.estimate r) == 0
    /\ ~ EventStudy.ci_high (EventStudy.estimate r) == 0.
Proof.
  apply (simple_base_period_se_nonzero newton_sqrt).
  exact newton_sqrt_nonzero.
Defined.

(** ** The pairwise estimator: missing base period, sanity scenario,
    bootstrap *)

(** C10 — base-period precondition of the pairwise estimator: when, after
    the rows with a missing outcome are dropped, the base period has no
    treated row or no control row, the estimator returns [None] for the
    whole outcome, whatever the other periods hold, and leaves the random
    generator untouched. *)
Theorem base_period_precondition (np_sqrt : Q -> Q)
        (outcome : Semester.delta_row -> option Q)
        (weight : Semester.delta_row -> Q)
        (df : list Semester.delta_row) (base_period : Z) (g : EventStudy.rng) :
  let obs := EventStudy.dropna outcome df in
  EventStudy.select obs base_period 1 = []
  \/ EventStudy.select obs base_period 0 = [] ->
  EventStudy.run_event_study_simple np_sqrt outcome weight df base_period g
  = Ret (None, g).
Proof.
  intros obs H. unfold EventStudy.run_event_study_simple. fold obs.
  destruct (length obs =? 0)%nat; [reflexivity|].
  destruct H as [-> | ->]; cbn [length Nat.eqb orb]; [reflexivity|].
  rewrite orb_true_r. reflexivity.
Qed.

(** First differences of two genes: the treated gene enters in the base
    period, so its first difference is missing there; periods 0 and 1 have
    both arms. *)
Definition gapped_panel : list Semester.delta_row :=
  [demo_row 1 (-1) 1 2 None; demo_row 1 0 1 3 (Some 1); demo_row 1 1 1 7 (Some 4);
   demo_row 2 (-2) 0 2 None; demo_row 2 (-1) 0 2 (Some 0); demo_row 2 0 0 2 (Some 0);
   demo_row 2 1 0 3 (Some 1)].

Lemma base_period_precondition_witness :
  (EventStudy.select (EventStudy.dropna (delta_of Semester.n_papers) gapped_panel)
                     (-1) 1 = []
   \/ EventStudy.select (EventStudy.dropna (delta_of Semester.n_papers) gapped_panel)
                        (-1) 0 = [])
  /\ both_arms (EventStudy.dropna (delta_of Semester.n_papers) gapped_panel) 0 = true
  /\ both_arms (EventStudy.dropna (delta_of Semester.n_papers) gapped_panel) 1 = true
  /\ EventStudy.run_event_study_simple newton_sqrt (delta_of Semester.n_papers)
       cem_weight_of gapped_panel (-1) skewed_rng
     = Ret (None, skewed_rng).
Proof.
  split; [left; reflexivity|]. split; [reflexivity|]. split; [reflexivity|].
  apply (@base_period_precondition newton_sqrt (delta_of Semester.n_papers)
           cem_weight_of gapped_panel (-1) skewed_rng).
  left; reflexivity.
Defined.

Section Scenario.
Import Semester EventStudy.

Variable np_sqrt : Q -> Q.
Variable weight : delta_row -> Q.
Variable obs : list EventStudy.obs.

Hypothesis weights_pos : positive_weights weight obs.
Hypothesis values :
  forall o, In o obs ->
    (o_treated o = 1%Z -> o_value o == if (o_rel o =? 1)%Z then 6 else 2)
    /\ (o_treated o = 0%Z -> o_value o == 2).

Lemma scenario_treated_mean (k : Z) :
  both_arms obs k = true ->
  wmean weight (select obs k 1) == if (k =? 1)%Z then 6 else 2.
Proof.
  intros Hb. apply both_arms_nonempty in Hb. destruct Hb as [Ht _].
  apply wmean_constant; [exact Ht | apply select_positive; exact weights_pos |].
  intros o Ho. apply select_In in Ho. destruct Ho as [Ho [Ek Et]].
  rewrite <- Ek. apply (proj1 (values o Ho) Et).
Qed.

Lemma scenario_control_mean (k : Z) :
  both_arms obs k = true -> wmean weight (select obs k 0) == 2.
Proof.
  intros Hb. apply both_arms_nonempty in Hb. destruct Hb as [_ Hc].
  apply wmean_constant; [exact Hc | apply select_positive; exact weights_pos |].
  intros o Ho. apply select_In in Ho. destruct Ho as [Ho [Ek Et]].
  apply (proj2 (values o Ho) Et).
Qed.

Lemma scenario_coef (k : Z) :
  both_arms obs k = true -> both_arms obs (-1) = true ->
  coef_at weight obs (-1)
          (wmean weight (select obs (-1) 1) - wmean weight (select obs (-1) 0)) k
  == if (k =? 1)%Z then 4 else 0.
Proof.
  intros Hk Hb. unfold coef_at.
  destruct (Z.eqb_spec k (-1)) as [->|Hne]; cbn [negb]; [reflexivity|].
  rewrite (scenario_treated_mean k Hk), (scenario_control_mean k Hk).
  rewrite (scenario_treated_mean (-1) Hb), (scenario_control_mean (-1) Hb).
  change ((-1 =? 1)%Z) with false. cbv iota.
  destruct (k =? 1)%Z; ring.
Qed.
End Scenario.

(** Two treated genes with outcome 2, 2, 2, 6 over periods -2 to 1, two
    control genes constant at 2, all weights 1. *)
Definition sanity_panel : list Semester.delta_row :=
  flat_map (fun g =>
              [demo_row g (-2) 1 2 None; demo_row g (-1) 1 2 None;
               demo_row g 0 1 2 None; demo_row g 1 1 6 None]) [1; 2]%Z
  ++ flat_map (fun g =>
                 [demo_row g (-2) 0 2 None; demo_row g (-1) 0 2 None;
                  demo_row g 0 0 2 None; demo_row g 1 0 2 None]) [3; 4]%Z.

(** C8 — pairwise estimator sanity scenario: on a panel over periods -2 to
    1 whose treated rows hold 2, 2, 2, 6 and whose control rows hold 2,
    with positive (for instance equal) weights and both arms present in
    each period, the estimator with base period -1 returns the four
    periods with coefficients 0, 0, 0 and 4, for every state of the random
    generator. *)
Theorem pairwise_sanity_scenario (np_sqrt : Q -> Q)
        (outcome : Semester.delta_row -> option Q)
        (weight : Semester.delta_row -> Q)
        (df : list Semester.delta_row) (g : EventStudy.rng) :
  let obs := EventStudy.dropna outcome df in
  positive_weights weight obs ->
  EventStudy.periods_of obs = [-2; -1; 0; 1]%Z ->
  (forall k, In k [-2; -1; 0; 1]%Z -> both_arms obs k = true) ->
  (forall o, In o obs ->
     (EventStudy.o_treated o = 1%Z ->
      EventStudy.o_value o == if (EventStudy.o_rel o =? 1)%Z then 6 else 2)
     /\ (EventStudy.o_treated o = 0%Z -> EventStudy.o_value o == 2)) ->
  exists table g',
    EventStudy.run_event_study_simple np_sqrt outcome weight df (-1) g
    = Ret (Some table, g')
    /\ map (fun r => EventStudy.period (EventStudy.estimate r)) table
       = [-2; -1; 0; 1]%Z
    /\ Forall2 (fun r c => EventStudy.coef (EventStudy.estimate r) == c)
               table [0; 0; 0; 4].
Proof.
  intros obs Hp Hper Harms Hval.
  assert (Hb : both_arms obs (-1) = true) by (apply Harms; simpl; tauto).
  destruct (@run_event_study_simple_ret np_sqrt outcome weight df (-1) g Hp Hb)
    as [Hrun _].
  fold obs in Hrun.
  set (bd := wmean weight (EventStudy.select obs (-1) 1)
             - wmean weight (EventStudy.select obs (-1) 0)) in *.
  set (pr := period_rows np_sqrt weight obs (-1) bd (EventStudy.periods_of obs) g) in *.
  exists (fst pr), (snd pr). split; [exact Hrun|].
  assert (Hperiods : map (fun r => EventStudy.period (EventStudy.estimate r)) (fst pr)
                     = [-2; -1; 0; 1]%Z).
  { subst pr. rewrite period_rows_periods, Hper. cbn [filter].
    rewrite !Harms by (simpl; tauto). reflexivity. }
  split; [exact Hperiods|].
  assert (Hcoef : forall r, In r (fst pr) ->
            EventStudy.coef (EventStudy.estimate r)
            == if (EventStudy.period (EventStudy.estimate r) =? 1)%Z then 4 else 0).
  { intros r Hr. subst pr. apply period_rows_In in Hr.
    destruct Hr as [k [g0 [_ [Hk ->]]]].
    cbn [row_at EventStudy.estimate EventStudy.coef EventStudy.period].
    apply (@scenario_coef weight obs Hp Hval k Hk Hb). }
  destruct (fst pr) as [|r1 [|r2 [|r3 [|r4 [|r5 rest]]]]]; try discriminate.
  injection Hperiods as P1 P2 P3 P4.
  repeat constructor.
  - rewrite (Hcoef r1) by (simpl; tauto). rewrite P1. reflexivity.
  - rewrite (Hcoef r2) by (simpl; tauto). rewrite P2. reflexivity.
  - rewrite (Hcoef r3) by (simpl; tauto). rewrite P3. reflexivity.
  - rewrite (Hcoef r4) by (simpl; tauto). rewrite P4. reflexivity.
Qed.

Lemma sanity_panel_values :
  forall o, In o (EventStudy.dropna (level_of Semester.n_papers) sanity_panel) ->
    0 < cem_weight_of (fst o)
    /\ (EventStudy.o_treated o = 1%Z ->
        EventStudy.o_value o == if (EventStudy.o_rel o =? 1)%Z then 6 else 2)
    /\ (EventStudy.o_treated o = 0%Z -> EventStudy.o_value o == 2).
Proof.
  intros o Ho. simpl in Ho.
  repeat (destruct Ho as [<-|Ho];
          [split; [reflexivity|]; split; intros E; try discriminate E; reflexivity|]).
  contradiction.
Defined.

Lemma pairwise_sanity_scenario_witness :
  exists table g',
    EventStudy.run_event_study_simple newton_sqrt (level_of Semester.n_papers)
      cem_weight_of sanity_panel (-1) skewed_rng
    = Ret (Some table, g')
    /\ map (fun r => EventStudy.period (EventStudy.estimate r)) table
       = [-2; -1; 0; 1]%Z
    /\ Forall2 (fun r c => EventStudy.coef (EventStudy.estimate r) == c)
               table [0; 0; 0; 4].
Proof.
  apply (@pairwise_sanity_scenario newton_sqrt (level_of Semester.n_papers)
           cem_weight_of sanity_panel skewed_rng).
  - intros o Ho. exact (proj1 (@sanity_panel_values o Ho)).
  - reflexivity.
  - intros k Hk. simpl in Hk.
    repeat (destruct Hk as [<-|Hk]; [reflexivity|]). contradiction.
  - intros o Ho. exact (proj2 (@sanity_panel_values o Ho)).
Defined.

Section BootstrapSE.
Import Semester EventStudy.

Variable np_sqrt : Q -> Q.
Variable outcome : delta_row -> option Q.
Variable weight : delta_row -> Q.

(** Under positive weights every reported standard error is [np.std] of
    exactly [n_boot = 200] replicate statistics, each computed on the rows
    of the genes drawn for that replicate, and the bounds are the
    coefficient plus or minus 1.96 standard errors. *)
Lemma bootstrap_se_replicates (df : list delta_row) (base_period : Z) (g : rng) :
  let obs := dropna outcome df in
  let base_diff := wmean weight (select obs base_period 1)
                   - wmean weight (select obs base_period 0) in
  positive_weights weight obs ->
  both_arms obs base_period = true ->
  exists table g',
    run_event_study_simple np_sqrt outcome weight df base_period g
    = Ret (Some table, g')
    /\ forall r, In r table ->
         exists g0,
           let stats := replicates_at weight obs base_diff (period (estimate r)) g0 in
           length stats = 200%nat
           /\ se (estimate r) = np_std np_sqrt stats
           /\ ci_low (estimate r) = coef (estimate r) - z_975 * se (estimate r)
           /\ ci_high (estimate r) = coef (estimate r) + z_975 * se (estimate r).
Proof.
  intros obs base_diff Hp Hb.
  destruct (@run_event_study_simple_ret np_sqrt outcome weight df base_period g Hp Hb)
    as [Hrun _].
  eexists. eexists. split; [exact Hrun|].
  intros r Hr. apply period_rows_In in Hr. destruct Hr as [k [g0 [_ [_ ->]]]].
  exists g0. cbn [row_at estimate period se ci_low ci_high coef].
  fold obs. fold base_diff.
  assert (Hl : length (replicates_at weight obs base_diff k g0) = 200%nat)
    by apply boot_stats_length.
  split; [exact Hl|].
  destruct (replicates_at weight obs base_diff k g0) as [|s0 rest] eqn:E;
    [discriminate|].
  repeat split; reflexivity.
Qed.

(** The resampled rows as the specification words them: each drawn gene
    contributes its rows once per draw. *)
Definition resampled_with_multiplicity (rows : list obs) (g : rng) : list obs :=
  flat_map (fun d => filter (fun o => (o_gene o =? d)%Z) rows)
           (draws (genes_of rows) g).
End BootstrapSE.

(** Treated genes 1, 2, 3 with outcome 0, 3, 6 and control gene 4 with
    outcome 2, one period, weights 1. *)
Definition three_treated : list EventStudy.obs :=
  [(demo_row 1 0 1 0 None, 0); (demo_row 2 0 1 3 None, 3); (demo_row 3 0 1 6 None, 6)].

Definition one_control : list EventStudy.obs :=
  [(demo_row 4 0 0 2 None, 2)].

(** A generator that draws treated genes 1, 1, 2. *)
Definition repeating_rng : EventStudy.rng :=
  {| EventStudy.stream := fun i => nth i [0; 0; 1; 0]%nat 0%nat;
     EventStudy.cursor := 0 |}.

(** C4 at a failing input: the draw 1, 1, 2 of treated genes yields the
    replicate statistic of genes 1 and 2 counted once each (3/2 - 2);
    with gene 1 counted twice it would be 1 - 2. *)
Theorem bootstrap_ignores_multiplicity :
  draws (genes_of three_treated) repeating_rng = [1; 1; 2]%Z
  /\ (exists stat g',
        EventStudy.boot_step cem_weight_of three_treated one_control 0 [] repeating_rng
        = Ret ([stat], g')
        /\ stat == (3 # 2) - 2)
  /\ wmean cem_weight_of (resampled_with_multiplicity three_treated repeating_rng)
     - wmean cem_weight_of
         (resampled_with_multiplicity one_control
            (advance repeating_rng (length (genes_of three_treated))))
     - 0 == 1 - 2.
Proof.
  split; [reflexivity|]. split.
  - eexists. eexists. split; [vm_compute; reflexivity|]. reflexivity.
  - vm_compute. reflexivity.
Qed.

(** * Further properties of the event-study estimators *)

Section OLSTable.
Import Semester EventStudy.

Variable np_sqrt : Q -> Q.
Variable outcome : delta_row -> option Q.
Variable weight : delta_row -> Q.
Variable add_constant : list (list Q) -> py (list (list Q)).
Variable ols_fit_cluster : list Q -> list (list Q) -> list Z -> py (list Q * list Q).

(** The periods that get an estimated coefficient. *)
Definition estimated_periods (df : list delta_row) (base_period : Z) : list Z :=
  filter (fun k => negb (k =? base_period)%Z) (periods_of (dropna outcome df)).

Lemma estimated_rows_nth (ks : list Z) (coefs ses : list Q) (i : nat)
      (rows : list result_row) :
  estimated_rows i ks coefs ses = Ret rows ->
  forall j k, nth_error ks j = Some k ->
    exists r, nth_error rows j = Some r
              /\ period r = k
              /\ nth_error coefs (i + j) = Some (coef r)
              /\ nth_error ses (i + j) = Some (se r)
              /\ ci_low r = coef r - z_975 * se r
              /\ ci_high r = coef r + z_975 * se r.
Proof.
  revert i rows; induction ks as [|k0 ks IH]; intros i rows; simpl.
  - intros _ j k Hj. destruct j; discriminate.
  - destruct (nth_error coefs i) as [c|] eqn:Ec; [|discriminate].
    destruct (nth_error ses i) as [s|] eqn:Es; [|discriminate].
    destruct (estimated_rows (S i) ks coefs ses) as [rest|] eqn:E; simpl; [|discriminate].
    intros H; injection H as <-. intros j k Hj. destruct j as [|j].
    + simpl in Hj. injection Hj as <-. eexists. split; [reflexivity|].
      rewrite Nat.add_0_r. simpl. auto.
    + simpl in Hj. destruct (IH _ _ E j k Hj) as [r [H1 H2]].
      exists r. split; [exact H1|]. rewrite Nat.add_succ_r. exact H2.
Qed.

(** X1 — shape of the fixed-effects result table: a returned table lists,
    in ascending order of period, the periods other than the base period
    that occur in the data, plus the base period once; the row of the
    [i]-th estimated period carries parameter [i + 1] of the fit and its
    standard error (parameter 0, the constant, is dropped) with bounds at
    1.96 standard errors; the base row is all zero. *)
Theorem ols_table_shape (df : list delta_row) (base_period : Z)
      (table : list result_row) :
  run_event_study_ols np_sqrt outcome weight add_constant ols_fit_cluster
                      df base_period = Ret (Some table) ->
  Permutation (map period table) (estimated_periods df base_period ++ [base_period])
  /\ Sorted (fun a b => (period a <= period b)%Z) table
  /\ (forall r, In r table -> period r = base_period ->
        r = {| period := base_period; coef := 0; se := 0; ci_low := 0; ci_high := 0 |})
  /\ exists X params bse,
       ols_fit_cluster
         (map (fun o => demean o_value (dropna outcome df) o * np_sqrt (weight (fst o)))
              (dropna outcome df))
         X (map o_gene (dropna outcome df)) = Ret (params, bse)
       /\ forall i k, nth_error (estimated_periods df base_period) i = Some k ->
            exists r, In r table /\ period r = k
                      /\ nth_error params (S i) = Some (coef r)
                      /\ nth_error bse (S i) = Some (se r)
                      /\ ci_low r = coef r - z_975 * se r
                      /\ ci_high r = coef r + z_975 * se r.
Proof.
  unfold run_event_study_ols, estimated_periods.
  destruct (length (dropna outcome df) =? 0)%nat; [discriminate|].
  destruct (add_constant _) as [X|]; simpl; [|discriminate].
  destruct (ols_fit_cluster _ X _) as [[params bse]|] eqn:Efit; [|discriminate].
  destruct (estimated_rows 0 _ (tl params) (tl bse)) as [rows|] eqn:E; simpl;
    [|discriminate].
  intros H; injection H as <-.
  pose proof (@estimated_rows_periods _ _ _ _ _ E) as Hper.
  split.
  { rewrite (Permutation_map period (sort_by_perm result_period_leb _)).
    rewrite map_app, Hper. reflexivity. }
  split.
  { pose proof (@sort_by_sorted _ result_period_leb) as Hs.
    assert (Htot : forall a b, result_period_leb a b = false -> result_period_leb b a = true).
    { intros a b. unfold result_period_leb. apply Zleb_total. }
    specialize (Hs Htot (rows ++ [{| period := base_period; coef := 0; se := 0;
                                     ci_low := 0; ci_high := 0 |}])).
    induction Hs as [|x l Hs IH Hhd]; constructor; [exact IH|].
    destruct Hhd as [|y l' Hy]; constructor.
    unfold result_period_leb in Hy. apply Z.leb_le; exact Hy. }
  split.
  { intros r Hr Hp. apply sort_by_In in Hr. apply in_app_or in Hr.
    destruct Hr as [Hr|[<-|[]]]; [|reflexivity].
    exfalso. assert (Hk : In (period r) (map period rows)) by (apply in_map; exact Hr).
    rewrite Hper in Hk. apply filter_In in Hk. destruct Hk as [_ Hk].
    rewrite Hp, Z.eqb_refl in Hk. discriminate. }
  exists X, params, bse. split; [exact Efit|].
  intros i k Hi.
  destruct (@estimated_rows_nth _ _ _ _ _ E i k Hi) as [r [Hr [Hp [Hc [Hs [Hl Hh]]]]]].
  exists r. split.
  { apply sort_by_In. apply in_or_app. left. apply (nth_error_In _ _ Hr). }
  split; [exact Hp|].
  cbn [Nat.add] in Hc, Hs.
  split; [destruct params; [destruct i; discriminate | exact Hc]|].
  split; [destruct bse; [destruct i; discriminate | exact Hs]|].
  auto.
Qed.

(** The weighted design of the fit. *)
Definition ols_design (df : list delta_row) (base_period : Z) : list (list Q) :=
  let obs := dropna outcome df in
  map (fun o => map (fun k => demean (treat_sem k) obs o * np_sqrt (weight (fst o)))
                    (estimated_periods df base_period)) obs.

Definition ols_response (df : list delta_row) : list Q :=
  let obs := dropna outcome df in
  map (fun o => demean o_value obs o * np_sqrt (weight (fst o))) obs.

(** X2 — soft failures of the fixed-effects estimator: without any row
    holding the outcome, and when the fit raises whatever exception, the
    result is [None] and nothing is raised. *)
Theorem ols_soft_failures (df : list delta_row) (base_period : Z) :
  dropna outcome df = []
  \/ (exists Xc e,
        add_constant (ols_design df base_period) = Ret Xc
        /\ ols_fit_cluster (ols_response df) Xc (map o_gene (dropna outcome df))
           = Raise e) ->
  run_event_study_ols np_sqrt outcome weight add_constant ols_fit_cluster df base_period
  = Ret None.
Proof.
  unfold run_event_study_ols, ols_design, ols_response, estimated_periods. cbv zeta.
  intros [->|[Xc [e [HX He]]]]; [reflexivity|].
  destruct (length (dropna outcome df) =? 0)%nat; [reflexivity|].
  rewrite HX. simpl. rewrite He. reflexivity.
Qed.

Lemma estimated_rows_ret (ks : list Z) (coefs ses : list Q) (i : nat) :
  (i + length ks <= length coefs)%nat -> (i + length ks <= length ses)%nat ->
  exists rows, estimated_rows i ks coefs ses = Ret rows
               /\ map period rows = ks.
Proof.
  revert i; induction ks as [|k ks IH]; intros i Hc Hs; cbn [estimated_rows].
  - exists []. split; reflexivity.
  - cbn [length] in Hc, Hs.
    destruct (nth_error coefs i) as [c|] eqn:Ec.
    2:{ apply nth_error_None in Ec. lia. }
    destruct (nth_error ses i) as [s|] eqn:Es.
    2:{ apply nth_error_None in Es. lia. }
    destruct (IH (S i)) as [rest [-> Hp]]; [lia | lia |].
    cbn [py_bind]. eexists. split; [reflexivity|].
    cbn [map period]. rewrite Hp. reflexivity.
Qed.

(** X3 — a fit that succeeds gives a table: when some row holds the
    outcome, [add_constant] and the fit return, and the fit reports a
    parameter and a standard error for the constant and for every
    estimated period (one per column of the design with its constant, as
    statsmodels does), the estimator returns a table, neither [None] nor
    an exception: one row per period of the data other than the base
    period, and the base row. *)
Theorem ols_fit_gives_table (df : list delta_row) (base_period : Z)
        (Xc : list (list Q)) (params bse : list Q) :
  dropna outcome df <> [] ->
  add_constant (ols_design df base_period) = Ret Xc ->
  ols_fit_cluster (ols_response df) Xc (map o_gene (dropna outcome df))
  = Ret (params, bse) ->
  (length (estimated_periods df base_period) < length params)%nat ->
  (length (estimated_periods df base_period) < length bse)%nat ->
  exists table,
    run_event_study_ols np_sqrt outcome weight add_constant ols_fit_cluster df base_period
    = Ret (Some table)
    /\ Permutation (map period table) (estimated_periods df base_period ++ [base_period])
    /\ length table = S (length (estimated_periods df base_period)).
Proof.
  unfold run_event_study_ols, ols_design, ols_response, estimated_periods. cbv zeta.
  intros Hne HX Hfit Hp Hb.
  destruct (length (dropna outcome df) =? 0)%nat eqn:El.
  { apply Nat.eqb_eq in El. destruct (dropna outcome df); [congruence | discriminate]. }
  rewrite HX. cbn [py_bind]. rewrite Hfit.
  destruct (@estimated_rows_ret
              (filter (fun k => negb (k =? base_period)%Z)
                      (periods_of (dropna outcome df)))
              (tl params) (tl bse) 0) as [rows [-> Hrows]].
  { destruct params; cbn [tl length Nat.add] in *; lia. }
  { destruct bse; cbn [tl length Nat.add] in *; lia. }
  cbn [py_bind]. eexists. split; [reflexivity|]. split.
  - rewrite (Permutation_map period (sort_by_perm result_period_leb _)).
    rewrite map_app, Hrows. reflexivity.
  - rewrite sort_by_length, length_app, <- (length_map period rows), Hrows.
    cbn [length]. lia.
Qed.
End OLSTable.

Section PairwiseShape.
Import Semester EventStudy.
Local Open Scope M_scope.

Variable np_sqrt : Q -> Q.
Variable outcome : delta_row -> option Q.
Variable weight : delta_row -> Q.

Lemma weighted_mean_inv (rows : list obs) (v : Q) :
  weighted_mean weight rows = Ret v ->
  v = wmean weight rows
  /\ ~ np_sum (map (fun o => weight (fst o)) rows) == 0.
Proof.
  unfold weighted_mean, np_average, wmean.
  destruct (Qeq_bool (np_sum (map (fun o => weight (fst o)) rows)) 0) eqn:E;
    [discriminate|].
  intros H; injection H as <-. split; [reflexivity|].
  intros H0. apply Qeq_bool_iff in H0. congruence.
Qed.

Lemma weighted_mean_zero (rows : list obs) :
  np_sum (map (fun o => weight (fst o)) rows) == 0 ->
  weighted_mean weight rows = Raise ZeroDivisionError.
Proof.
  intros H. unfold weighted_mean, np_average.
  apply Qeq_bool_iff in H. rewrite H. reflexivity.
Qed.

Lemma weighted_mean_nonzero (rows : list obs) :
  ~ np_sum (map (fun o => weight (fst o)) rows) == 0 ->
  weighted_mean weight rows = Ret (wmean weight rows).
Proof.
  intros H. unfold weighted_mean, np_average, wmean.
  destruct (Qeq_bool (np_sum (map (fun o => weight (fst o)) rows)) 0) eqn:E;
    [|reflexivity].
  apply Qeq_bool_iff in E. contradiction.
Qed.

(** What a reported row holds, given the panel, the base period and the
    base difference. *)
Definition reported (df : list obs) (base_period : Z) (base_diff : Q)
           (r : simple_row) : Prop :=
  let k := period (estimate r) in
  coef (estimate r) = coef_at weight df base_period base_diff k
  /\ ci_low (estimate r) = coef (estimate r) - z_975 * se (estimate r)
  /\ ci_high (estimate r) = coef (estimate r) + z_975 * se (estimate r)
  /\ n_treated r = length (select df k 1)
  /\ n_control r = length (select df k 0)
  /\ (0 < n_treated r)%nat /\ (0 < n_control r)%nat.

Lemma period_step_inv (df : list obs) (base_period : Z) (base_diff : Q) (k : Z)
      (results results' : list simple_row) (g g' : rng) :
  period_step np_sqrt weight df base_period base_diff k results g = Ret (results', g') ->
  if both_arms df k
  then exists r, results' = results ++ [r] /\ period (estimate r) = k
                 /\ reported df base_period base_diff r
  else results' = results /\ g' = g.
Proof.
  unfold period_step, both_arms.
  destruct ((length (select df k 1) =? 0)%nat || (length (select df k 0) =? 0)%nat) eqn:E;
    cbn [negb].
  { unfold ret. intros H; injection H as <- <-. auto. }
  unfold bind, lift, ret.
  destruct (weighted_mean weight (select df k 1)) as [v1|] eqn:E1; [|discriminate].
  destruct (weighted_mean weight (select df k 0)) as [v0|] eqn:E0; [|discriminate].
  destruct (for_range n_boot _ [] g) as [[bc g2]|]; [|discriminate].
  intros H; injection H as <- _.
  apply weighted_mean_inv in E1, E0. destruct E1 as [-> _]. destruct E0 as [-> _].
  apply orb_false_iff in E. destruct E as [Et Ec]. apply Nat.eqb_neq in Et, Ec.
  eexists. split; [reflexivity|]. split; [reflexivity|].
  unfold reported. cbn [estimate period coef se ci_low ci_high n_treated n_control].
  unfold coef_at. repeat split; try reflexivity; lia.
Qed.

Lemma for_periods_inv (df : list obs) (base_period : Z) (base_diff : Q) (ks : list Z)
      (results results' : list simple_row) (g g' : rng) :
  for_periods np_sqrt weight df base_period base_diff ks results g = Ret (results', g') ->
  exists rows, results' = results ++ rows
               /\ map (fun r => period (estimate r)) rows = filter (both_arms df) ks
               /\ Forall (reported df base_period base_diff) rows.
Proof.
  revert results g; induction ks as [|k ks IH]; intros results g; cbn [for_periods].
  - unfold ret. intros H; injection H as <- _. exists []. rewrite app_nil_r.
    repeat split; constructor.
  - unfold bind at 1.
    destruct (period_step np_sqrt weight df base_period base_diff k results g)
      as [[r1 g1]|] eqn:E; [|discriminate].
    intros H. apply period_step_inv in E. destruct (IH _ _ H) as [rows [-> [Hp Hr]]].
    cbn [filter]. destruct (both_arms df k).
    + destruct E as [r [-> [Ek Hrep]]]. exists (r :: rows).
      rewrite <- app_assoc. split; [reflexivity|]. split.
      * cbn [map]. rewrite Ek, Hp. reflexivity.
      * constructor; assumption.
    + destruct E as [-> _]. exists rows. auto.
Qed.

(** X4 — shape of the pairwise result table: whenever the estimator
    returns a table, the base period has both arms and the table holds, in
    ascending order, exactly the periods in which both arms have a row
    (the base period among them); each row reports the two row counts,
    the coefficient [(mean_treated - mean_control) - base_diff] (0 at the
    base period) and bounds at 1.96 standard errors around it. *)
Theorem simple_table_shape (df : list delta_row) (base_period : Z) (g g' : rng)
        (table : list simple_row) :
  run_event_study_simple np_sqrt outcome weight df base_period g
  = Ret (Some table, g') ->
  let obs := dropna outcome df in
  let base_diff := wmean weight (select obs base_period 1)
                   - wmean weight (select obs base_period 0) in
  both_arms obs base_period = true
  /\ map (fun r => period (estimate r)) table = filter (both_arms obs) (periods_of obs)
  /\ In base_period (map (fun r => period (estimate r)) table)
  /\ Forall (reported obs base_period base_diff) table.
Proof.
  intros Hrun obs base_diff. unfold run_event_study_simple in Hrun. fold obs in Hrun.
  destruct (length obs =? 0)%nat; [discriminate|].
  destruct ((length (select obs base_period 1) =? 0)%nat
            || (length (select obs base_period 0) =? 0)%nat) eqn:Eb; [discriminate|].
  assert (Hb : both_arms obs base_period = true).
  { unfold both_arms. rewrite Eb. reflexivity. }
  unfold bind, lift, ret in Hrun.
  destruct (weighted_mean weight (select obs base_period 1)) as [v1|] eqn:E1; [|discriminate].
  destruct (weighted_mean weight (select obs base_period 0)) as [v0|] eqn:E0; [|discriminate].
  apply weighted_mean_inv in E1, E0. destruct E1 as [-> _]. destruct E0 as [-> _].
  fold base_diff in Hrun.
  destruct (for_periods np_sqrt weight obs base_period base_diff (periods_of obs) [] g)
    as [[results g1]|] eqn:E; [|discriminate].
  apply for_periods_inv in E. destruct E as [rows [-> [Hp Hr]]]. cbn [app] in Hrun.
  unfold frame_sorted_by_period in Hrun.
  assert (Hsorted : Sorted (fun a b => simple_period_leb a b = true) rows).
  { unfold simple_period_leb.
    apply (map_strongly_sorted (fun r => period (estimate r))).
    rewrite Hp. apply filter_strongly_sorted, periods_sorted. }
  destruct rows as [|r rs] eqn:Er; [discriminate|].
  rewrite (sort_by_sorted_id _ Hsorted) in Hrun. injection Hrun as <- _.
  split; [exact Hb|]. split; [exact Hp|]. split; [|exact Hr].
  rewrite Hp. apply filter_In. split; [|exact Hb].
  apply both_arms_nonempty in Hb. destruct Hb as [Ht _].
  destruct (select obs base_period 1) as [|o l] eqn:Es; [congruence|].
  assert (Ho : In o (select obs base_period 1)) by (rewrite Es; left; reflexivity).
  apply select_In in Ho. destruct Ho as [Ho [Ek _]].
  unfold periods_of. apply (proj2 (sort_by_In _ _ _)).
  apply (proj2 (unique_In Zeqb_spec' _ _)).
  apply in_map_iff. exists o. split; assumption.
Qed.

(** X5 — a zero weight total in the base period is not a soft failure:
    when the base period has both arms and the weights of its treated
    rows, or else of its control rows, sum to zero, the estimator raises
    [ZeroDivisionError] instead of returning [None]. *)
Theorem simple_zero_weights_raise (df : list delta_row) (base_period : Z) (g : rng) :
  let obs := dropna outcome df in
  both_arms obs base_period = true ->
  np_sum (map (fun o => weight (fst o)) (select obs base_period 1)) == 0
  \/ (~ np_sum (map (fun o => weight (fst o)) (select obs base_period 1)) == 0
      /\ np_sum (map (fun o => weight (fst o)) (select obs base_period 0)) == 0) ->
  run_event_study_simple np_sqrt outcome weight df base_period g
  = Raise ZeroDivisionError.
Proof.
  intros obs Hb Hz. unfold run_event_study_simple. fold obs.
  pose proof Hb as Hb'. apply both_arms_nonempty in Hb'. destruct Hb' as [Ht Hc].
  assert (El : (length obs =? 0)%nat = false).
  { destruct obs; [exfalso; apply Ht; reflexivity | reflexivity]. }
  rewrite El. unfold both_arms in Hb. apply negb_true_iff in Hb. rewrite Hb.
  unfold bind, lift. destruct Hz as [H1|[H1 H0]].
  - rewrite (weighted_mean_zero _ H1). reflexivity.
  - rewrite (weighted_mean_nonzero _ H1), (weighted_mean_zero _ H0). reflexivity.
Qed.
End PairwiseShape.

(** Stand-ins for statsmodels in the worked examples: a constant column
    is prepended; the fit returns one parameter and one standard error per
    column. *)
Definition prepend_ones (X : list (list Q)) : py (list (list Q)) :=
  Ret (map (cons 1) X).

Definition unit_fit (y : list Q) (X : list (list Q)) (groups : list Z)
  : py (list Q * list Q) :=
  Ret (map (fun _ => 1) (hd [] X), map (fun _ => 1 # 2) (hd [] X)).

Definition failing_fit (y : list Q) (X : list (list Q)) (groups : list Z)
  : py (list Q * list Q) :=
  Raise LibraryError.

Lemma ols_table_shape_witness :
  exists table,
    EventStudy.run_event_study_ols newton_sqrt (level_of Semester.n_papers)
      cem_weight_of prepend_ones unit_fit two_period_panel (-1) = Ret (Some table)
    /\ Permutation (map EventStudy.period table)
                   (estimated_periods (level_of Semester.n_papers) two_period_panel (-1)
                    ++ [(-1)%Z]).
Proof.
  eexists. split; [vm_compute; reflexivity|].
  refine (proj1 (@ols_table_shape newton_sqrt (level_of Semester.n_papers)
                   cem_weight_of prepend_ones unit_fit two_period_panel (-1) _ _)).
  vm_compute; reflexivity.
Defined.

Lemma ols_soft_failures_witness :
  EventStudy.run_event_study_ols newton_sqrt (level_of Semester.n_papers)
    cem_weight_of prepend_ones failing_fit two_period_panel (-1) = Ret None.
Proof.
  apply (@ols_soft_failures newton_sqrt (level_of Semester.n_papers)
           cem_weight_of prepend_ones failing_fit two_period_panel (-1)).
  right. eexists. exists LibraryError. split; reflexivity.
Defined.

Lemma ols_fit_gives_table_witness :
  exists table,
    EventStudy.run_event_study_ols newton_sqrt (level_of Semester.n_papers)
      cem_weight_of prepend_ones unit_fit two_period_panel (-1) = Ret (Some table)
    /\ length table = 2%nat.
Proof.
  destruct (@ols_fit_gives_table newton_sqrt (level_of Semester.n_papers)
              cem_weight_of prepend_ones unit_fit two_period_panel (-1)
              _ _ _
              ltac:(vm_compute; discriminate) eq_refl eq_refl
              ltac:(vm_compute; apply le_n) ltac:(vm_compute; apply le_n))
    as [table [E [_ Hl]]].
  exists table. split; [exact E | exact Hl].
Defined.

Lemma simple_table_shape_witness :
  exists table g',
    EventStudy.run_event_study_simple newton_sqrt (level_of Semester.n_papers)
      cem_weight_of two_period_panel (-1) skewed_rng = Ret (Some table, g')
    /\ map (fun r => EventStudy.period (EventStudy.estimate r)) table
       = filter (both_arms (EventStudy.dropna (level_of Semester.n_papers)
                              two_period_panel))
                (EventStudy.periods_of
                   (EventStudy.dropna (level_of Semester.n_papers) two_period_panel)).
Proof.
  destruct (@run_event_study_simple_ret newton_sqrt (level_of Semester.n_papers)
              cem_weight_of two_period_panel (-1) skewed_rng
              two_period_positive eq_refl) as [Hrun _].
  eexists. eexists. split; [exact Hrun|].
  exact (proj1 (proj2 (@simple_table_shape newton_sqrt (level_of Semester.n_papers)
                         cem_weight_of two_period_panel (-1) skewed_rng _ _ Hrun))).
Defined.

(** The sanity panel read with a weight column that is zero throughout. *)
Definition zero_weight (r : Semester.delta_row) : Q := 0.

Lemma simple_zero_weights_raise_witness :
  EventStudy.run_event_study_simple newton_sqrt (level_of Semester.n_papers)
    zero_weight sanity_panel (-1) skewed_rng = Raise ZeroDivisionError.
Proof.
  apply (@simple_zero_weights_raise newton_sqrt (level_of Semester.n_papers)
           zero_weight sanity_panel (-1) skewed_rng).
  - reflexivity.
  - left. reflexivity.
Defined.

(** X6 — bootstrap standard errors: on a panel with positive weights
    whose base period has both arms the pairwise estimator returns a
    table, and every standard error it reports is [np.std] (divisor n) of
    exactly 200 replicate statistics of the row's period; the bounds are
    the coefficient plus or minus 1.96 standard errors. *)
Theorem bootstrap_standard_errors (np_sqrt : Q -> Q)
        (outcome : Semester.delta_row -> option Q) (weight : Semester.delta_row -> Q)
        (df : list Semester.delta_row) (base_period : Z) (g : EventStudy.rng) :
  let obs := EventStudy.dropna outcome df in
  let base_diff := wmean weight (EventStudy.select obs base_period 1)
                   - wmean weight (EventStudy.select obs base_period 0) in
  positive_weights weight obs ->
  both_arms obs base_period = true ->
  exists table g',
    EventStudy.run_event_study_simple np_sqrt outcome weight df base_period g
    = Ret (Some table, g')
    /\ forall r, In r table ->
         exists g0,
           let stats := replicates_at weight obs base_diff
                          (EventStudy.period (EventStudy.estimate r)) g0 in
           length stats = 200%nat
           /\ EventStudy.se (EventStudy.estimate r) = EventStudy.np_std np_sqrt stats
           /\ EventStudy.ci_low (EventStudy.estimate r)
              = EventStudy.coef (EventStudy.estimate r)
                - EventStudy.z_975 * EventStudy.se (EventStudy.estimate r)
           /\ EventStudy.ci_high (EventStudy.estimate r)
              = EventStudy.coef (EventStudy.estimate r)
                + EventStudy.z_975 * EventStudy.se (EventStudy.estimate r).
Proof.
  intros obs base_diff Hp Hb.
  exact (@bootstrap_se_replicates np_sqrt outcome weight df base_period g Hp Hb).
Qed.

Lemma bootstrap_standard_errors_witness :
  exists table g',
    EventStudy.run_event_study_simple newton_sqrt (level_of Semester.n_papers)
      cem_weight_of two_period_panel (-1) skewed_rng = Ret (Some table, g')
    /\ forall r, In r table ->
         exists g0,
           EventStudy.se (EventStudy.estimate r)
           = EventStudy.np_std newton_sqrt
               (replicates_at cem_weight_of
                  (EventStudy.dropna (level_of Semester.n_papers) two_period_panel)
                  (wmean cem_weight_of
                     (EventStudy.select
                        (EventStudy.dropna (level_of Semester.n_papers) two_period_panel)
                        (-1) 1)
                   - wmean cem_weight_of
                       (EventStudy.select
                          (EventStudy.dropna (level_of Semester.n_papers) two_period_panel)
                          (-1) 0))
                  (EventStudy.period (EventStudy.estimate r)) g0).
Proof.
  destruct (@bootstrap_standard_errors newton_sqrt (level_of Semester.n_papers)
              cem_weight_of two_period_panel (-1) skewed_rng
              two_period_positive eq_refl) as [table [g' [Hrun Hrows]]].
  exists table, g'. split; [exact Hrun|].
  intros r Hr. destruct (Hrows r Hr) as [g0 [_ [Hse _]]]. exists g0. exact Hse.
Defined.

(** * Further properties of the matching script *)

(** ** Sums by group *)

Lemma np_sum_map_ext_in (A : Type) (f g : A -> Q) (l : list A) :
  (forall x, In x l -> f x == g x) -> np_sum (map f l) == np_sum (map g l).
Proof.
  induction l as [|x l IH]; intros H; [reflexivity|].
  cbn [map np_sum fold_right]. fold (np_sum (map f l)). fold (np_sum (map g l)).
  rewrite IH by (intros; apply H; right; assumption).
  rewrite (H x (or_introl eq_refl)). reflexivity.
Qed.

Lemma np_sum_zeros (A : Type) (l : list A) : np_sum (map (fun _ => 0) l) == 0.
Proof.
  induction l as [|x l IH]; [reflexivity|].
  cbn [map np_sum fold_right]. fold (np_sum (map (fun _ : A => 0) l)).
  rewrite IH. reflexivity.
Qed.

Lemma np_sum_map_plus (A : Type) (f g : A -> Q) (l : list A) :
  np_sum (map (fun x => f x + g x) l) == np_sum (map f l) + np_sum (map g l).
Proof.
  induction l as [|x l IH]; [simpl; ring|].
  cbn [map np_sum fold_right].
  fold (np_sum (map (fun x => f x + g x) l)).
  fold (np_sum (map f l)). fold (np_sum (map g l)). rewrite IH. ring.
Qed.

Lemma np_sum_filter (A : Type) (p : A -> bool) (f : A -> Q) (l : list A) :
  np_sum (map f (filter p l)) == np_sum (map (fun x => if p x then f x else 0) l).
Proof.
  induction l as [|x l IH]; [reflexivity|].
  cbn [filter map np_sum fold_right].
  fold (np_sum (map (fun x => if p x then f x else 0) l)).
  destruct (p x); cbn [map np_sum fold_right];
    fold (np_sum (map f (filter p l))); rewrite IH; ring.
Qed.

Lemma np_sum_indicator_const (A : Type) (p : A -> bool) (c : Q) (l : list A) :
  np_sum (map (fun x => if p x then c else 0) l)
  == inject_Z (Z.of_nat (length (filter p l))) * c.
Proof.
  rewrite <- (np_sum_filter p (fun _ => c) l).
  rewrite (@np_sum_const c (map (fun _ => c) (filter p l))).
  - rewrite length_map. reflexivity.
  - apply Forall_forall. intros w Hw. apply in_map_iff in Hw.
    destruct Hw as [x [<- _]]. reflexivity.
Qed.

Section GroupSum.
Variables (A K : Type).
Variable eqb : K -> K -> bool.
Hypothesis eqb_spec : forall a b, eqb a b = true <-> a = b.
Variable key : A -> K.
Variable f : A -> Q.

Lemma indicator_once (k : K) (c : Q) (keys : list K) :
  NoDup keys -> In k keys ->
  np_sum (map (fun s => if eqb k s then c else 0) keys) == c.
Proof.
  induction 1 as [|s keys Hs Hnd IH]; [simpl; tauto|].
  cbn [map np_sum fold_right].
  fold (np_sum (map (fun s => if eqb k s then c else 0) keys)).
  intros [->|Hin].
  - rewrite (proj2 (eqb_spec k k) eq_refl).
    assert (E : np_sum (map (fun s => if eqb k s then c else 0) keys) == 0).
    { clear IH Hnd. induction keys as [|s keys IHk]; [reflexivity|].
      cbn [map np_sum fold_right].
      fold (np_sum (map (fun s => if eqb k s then c else 0) keys)).
      destruct (eqb k s) eqn:E.
      - apply eqb_spec in E. subst. exfalso. apply Hs. left; reflexivity.
      - rewrite IHk; [ring|]. intros H; apply Hs; right; exact H. }
    rewrite E. ring.
  - destruct (eqb k s) eqn:E.
    + apply eqb_spec in E. subst. contradiction.
    + rewrite (IH Hin). ring.
Qed.

(** A sum over a frame is the sum over the group keys of the group
    sums. *)
Lemma np_sum_by_group (keys : list K) (l : list A) :
  NoDup keys -> (forall r, In r l -> In (key r) keys) ->
  np_sum (map f l)
  == np_sum (map (fun s => np_sum (map f (filter (fun r => eqb (key r) s) l))) keys).
Proof.
  intros Hnd. induction l as [|r l IH]; intros Hin.
  - transitivity (np_sum (map (fun _ : K => 0) keys)).
    + symmetry. apply np_sum_zeros.
    + apply np_sum_map_ext_in. intros; reflexivity.
  - cbn [map np_sum fold_right]. fold (np_sum (map f l)).
    rewrite IH by (intros; apply Hin; right; assumption).
    rewrite (np_sum_map_ext_in
               (fun s => np_sum (map f (filter (fun r0 => eqb (key r0) s) (r :: l))))
               (fun s => (if eqb (key r) s then f r else 0)
                         + np_sum (map f (filter (fun r0 => eqb (key r0) s) l)))).
    + rewrite np_sum_map_plus.
      rewrite (indicator_once (key r) (f r) Hnd (Hin r (or_introl eq_refl))).
      reflexivity.
    + intros s _. cbn [filter]. destruct (eqb (key r) s); cbn [map np_sum fold_right].
      * reflexivity.
      * ring.
Qed.
End GroupSum.
Arguments np_sum_by_group [A K eqb] eqb_spec key f [keys l] _ _.

(** ** Weights of the matched genes *)

Section CEMWeights.
Import Matching.

Variable df : list binned_gene.
Hypothesis treated_binary : forall r, In r df -> binary (treated (features r)).

Definition supportedb (s : list Z) : bool :=
  (0 <? sc_n_treated (count_of df s))%Z && (0 <? sc_n_control (count_of df s))%Z.

Lemma supportedb_spec (s : list Z) : supportedb s = true <-> supported df s.
Proof.
  unfold supportedb, supported. rewrite andb_true_iff, !Z.ltb_lt. tauto.
Qed.

Lemma kept_filter :
  kept df = filter (fun r => supportedb (stratum r)) df.
Proof.
  unfold kept. apply filter_ext_in. intros r Hr.
  destruct (supportedb (stratum r)) eqn:E.
  - apply (in_common_support df r Hr). apply supportedb_spec. exact E.
  - destruct (existsb _ _) eqn:E2; [|reflexivity].
    apply (in_common_support df r Hr) in E2. apply supportedb_spec in E2. congruence.
Qed.

Lemma filter_map_comm (A B : Type) (p : B -> bool) (g : A -> B) (l : list A) :
  filter p (map g l) = map g (filter (fun x => p (g x)) l).
Proof.
  induction l as [|x l IH]; [reflexivity|].
  cbn [map filter]. destruct (p (g x)); cbn [map]; rewrite IH; reflexivity.
Qed.

Lemma filter_filter (A : Type) (p q : A -> bool) (l : list A) :
  filter p (filter q l) = filter (fun x => q x && p x) l.
Proof.
  induction l as [|x l IH]; [reflexivity|].
  cbn [filter]. destruct (q x); cbn [filter andb]; [destruct (p x)|]; rewrite IH;
    reflexivity.
Qed.

(** The weight total of one arm before the rescaling, as a sum over the
    whole frame. *)
Lemma weight_sum_merged (t : Z) :
  weight_sum t (merged df)
  == np_sum (map (fun r => if supportedb (stratum r) && (treated (features r) =? t)%Z
                           then cem_weight (weighted df r) else 0) df).
Proof.
  unfold weight_sum, merged. rewrite filter_map_comm, map_map.
  rewrite kept_filter, filter_filter.
  rewrite (np_sum_filter _ (fun r => cem_weight (weighted df r)) df).
  reflexivity.
Qed.

Lemma stratum_total (t : Z) (w : Q) (s : list Z) :
  np_sum (map (fun r => if supportedb (stratum r) && (treated (features r) =? t)%Z
                         then w else 0) (stratum_rows df s))
  == if supportedb s
     then inject_Z (Z.of_nat (length (filter (fun r => (treated (features r) =? t)%Z)
                                             (stratum_rows df s)))) * w
     else 0.
Proof.
  rewrite (np_sum_map_ext_in _
             (fun r => if supportedb s && (treated (features r) =? t)%Z then w else 0)).
  - destruct (supportedb s); cbn [andb].
    + apply np_sum_indicator_const.
    + apply np_sum_zeros.
  - intros r Hr. apply filter_In in Hr. destruct Hr as [_ Hs].
    apply stratum_eqb_spec in Hs. rewrite Hs. reflexivity.
Qed.

(** Before the rescaling the control weights already sum to the treated
    weights: each stratum contributes its number of treated genes to both
    totals. *)
Lemma merged_balanced : weight_sum 1 (merged df) == weight_sum 0 (merged df).
Proof.
  rewrite !weight_sum_merged.
  rewrite (np_sum_by_group stratum_eqb_spec stratum _
             (unique_NoDup stratum_eqb_spec (map stratum df)));
    [|intros r Hr; apply (unique_In stratum_eqb_spec); apply in_map; exact Hr].
  rewrite (np_sum_by_group stratum_eqb_spec stratum
             (fun r => if supportedb (stratum r) && (treated (features r) =? 0)%Z
                       then cem_weight (weighted df r) else 0)
             (unique_NoDup stratum_eqb_spec (map stratum df)));
    [|intros r Hr; apply (unique_In stratum_eqb_spec); apply in_map; exact Hr].
  apply np_sum_map_ext_in. intros s _.
  fold (stratum_rows df s).
  rewrite (np_sum_map_ext_in _
             (fun r => if supportedb (stratum r) && (treated (features r) =? 1)%Z
                       then 1 else 0) (stratum_rows df s)).
  2:{ intros r Hr. destruct (supportedb (stratum r)); cbn [andb]; [|reflexivity].
      destruct (treated (features r) =? 1)%Z eqn:E; [|reflexivity].
      cbn [weighted cem_weight]. rewrite E. reflexivity. }
  rewrite (np_sum_map_ext_in
             (fun r => if supportedb (stratum r) && (treated (features r) =? 0)%Z
                       then cem_weight (weighted df r) else 0)
             (fun r => if supportedb (stratum r) && (treated (features r) =? 0)%Z
                       then inject_Z (sc_n_treated (count_of df s))
                            / inject_Z (sc_n_control (count_of df s))
                       else 0) (stratum_rows df s)).
  2:{ intros r Hr. destruct (supportedb (stratum r)); cbn [andb]; [|reflexivity].
      destruct (Z.eqb_spec (treated (features r)) 0) as [E|E]; [|reflexivity].
      apply filter_In in Hr. destruct Hr as [_ Hs]. apply stratum_eqb_spec in Hs.
      cbn [weighted cem_weight]. rewrite E, Hs. reflexivity. }
  rewrite !stratum_total.
  destruct (supportedb s) eqn:Es; [|reflexivity].
  apply supportedb_spec in Es. destruct Es as [_ Hc].
  destruct (count_of_arms df treated_binary s) as [Et Ec].
  rewrite <- Et, <- Ec. field.
  intros E0. unfold Qeq in E0. cbn [inject_Z Qnum Qden] in E0. lia.
Qed.
End CEMWeights.

(** X9 — closed form of the CEM weights: on a table with a 0/1 treatment
    column every retained treated gene has weight exactly 1 and every
    retained control gene has weight [n_treated / n_control] of its stratum,
    a positive number; the global rescaling multiplies by a ratio equal
    to 1 in exact arithmetic. *)
Theorem cem_weights_closed_form (gf : list Matching.gene_features) (n_bins : nat)
        (matched : list Matching.matched_gene) :
  (forall g, In g gf -> binary (Matching.treated g)) ->
  Matching.coarsened_exact_matching gf n_bins = Ret matched ->
  forall m, In m matched ->
    (Matching.m_treated m = 1%Z -> Matching.cem_weight m = 1)
    /\ (Matching.m_treated m = 0%Z ->
        Matching.cem_weight m
        == inject_Z (Matching.n_treated m) / inject_Z (Matching.n_control m)
        /\ 0 < Matching.cem_weight m).
Proof.
  intros Hb Hc m Hm. unfold Matching.coarsened_exact_matching in Hc.
  destruct (Matching.cem_strata gf n_bins) as [df|e] eqn:Es; simpl in Hc; [|discriminate].
  injection Hc as <-.
  pose proof (cem_strata_binary gf n_bins Hb Es) as Hbin.
  assert (Hne : merged df <> []).
  { rewrite cem_weights_eq in Hm. intros E. rewrite E in Hm. contradiction. }
  pose proof (sum_control_pos df Hbin Hne) as Hpos.
  pose proof (@merged_balanced df Hbin) as Hbal.
  rewrite cem_weights_eq in Hm. apply in_map_iff in Hm. destruct Hm as [m0 [<- Hm0]].
  unfold merged in Hm0. apply in_map_iff in Hm0. destruct Hm0 as [r [<- Hr]].
  apply kept_iff in Hr. destruct Hr as [_ [H1 H2]].
  split.
  - intros E. rewrite rescale_treated in E. unfold Matching.m_treated in E.
    cbn [weighted Matching.binned] in E.
    unfold rescale, Matching.m_treated. cbn [weighted Matching.binned].
    rewrite E. cbn [Z.eqb Pos.eqb weighted Matching.cem_weight]. rewrite E. reflexivity.
  - intros E. rewrite rescale_treated in E. unfold Matching.m_treated in E.
    cbn [weighted Matching.binned] in E.
    unfold rescale, Matching.m_treated. cbn [weighted Matching.binned].
    rewrite E.
    cbn [Z.eqb weighted Matching.cem_weight Matching.n_treated Matching.n_control].
    rewrite E. cbn [Z.eqb].
    assert (Hw : inject_Z (Matching.sc_n_treated (count_of df (Matching.stratum r)))
                 / inject_Z (Matching.sc_n_control (count_of df (Matching.stratum r)))
                 * (Matching.weight_sum 1 (merged df) / Matching.weight_sum 0 (merged df))
                 == inject_Z (Matching.sc_n_treated (count_of df (Matching.stratum r)))
                    / inject_Z (Matching.sc_n_control (count_of df (Matching.stratum r)))).
    { rewrite Hbal. field. split.
      - intros E0. unfold Qeq in E0. cbn [inject_Z Qnum Qden] in E0. lia.
      - intros E0. rewrite E0 in Hpos. apply (Qlt_irrefl 0); exact Hpos. }
    split; [exact Hw|]. rewrite Hw. apply count_ratio_pos; assumption.
Qed.

Lemma cem_weights_closed_form_witness :
  exists matched,
    Matching.coarsened_exact_matching demo_features 10 = Ret matched
    /\ forall m, In m matched ->
         (Matching.m_treated m = 1%Z -> Matching.cem_weight m = 1)
         /\ (Matching.m_treated m = 0%Z ->
             Matching.cem_weight m
             == inject_Z (Matching.n_treated m) / inject_Z (Matching.n_control m)
             /\ 0 < Matching.cem_weight m).
Proof.
  eexists. split; [vm_compute; reflexivity|].
  apply (@cem_weights_closed_form demo_features 10).
  - exact demo_features_binary.
  - vm_compute; reflexivity.
Defined.

(** * The monthly panel: time variables, matched panel, [main] *)

Section Subsequence.
Variable A : Type.

(** [l1] is [l2] with some elements left out, the others in place. *)
Inductive subsequence : list A -> list A -> Prop :=
| subseq_nil : subsequence [] []
| subseq_skip (x : A) (l1 l2 : list A) :
    subsequence l1 l2 -> subsequence l1 (x :: l2)
| subseq_keep (x : A) (l1 l2 : list A) :
    subsequence l1 l2 -> subsequence (x :: l1) (x :: l2).

Lemma subsequence_filter (f : A -> bool) (l : list A) : subsequence (filter f l) l.
Proof.
  induction l as [|x l IH]; simpl; [constructor|].
  destruct (f x); constructor; exact IH.
Qed.

Lemma subsequence_In (l1 l2 : list A) (x : A) :
  subsequence l1 l2 -> In x l1 -> In x l2.
Proof.
  induction 1 as [|y l1 l2 _ IH|y l1 l2 _ IH]; simpl; intros H; auto.
  destruct H; auto.
Qed.

Lemma subsequence_length (l1 l2 : list A) :
  subsequence l1 l2 -> (length l1 <= length l2)%nat.
Proof. induction 1; simpl; lia. Qed.

Lemma subsequence_NoDup (l1 l2 : list A) :
  subsequence l1 l2 -> NoDup l2 -> NoDup l1.
Proof.
  induction 1 as [|y l1 l2 Hs IH|y l1 l2 Hs IH]; intros Hnd; [constructor| |].
  - inversion Hnd; subst. auto.
  - inversion Hnd as [|? ? Hy Hnd']; subst. constructor; [|auto].
    intros Hin. apply Hy. eapply subsequence_In; eassumption.
Qed.
End Subsequence.

Lemma subsequence_map (A B : Type) (f : A -> B) (l1 l2 : list A) :
  subsequence l1 l2 -> subsequence (map f l1) (map f l2).
Proof. induction 1; simpl; constructor; assumption. Qed.

Section TimeVariables.
Import MonthlyPanel.

Lemma fold_min_spec (x : Z) (l : list Z) :
  In (fold_right Z.min x l) (x :: l)
  /\ forall y, In y (x :: l) -> (fold_right Z.min x l <= y)%Z.
Proof.
  induction l as [|a l [IHin IHle]]; simpl.
  - split; [auto|]. intros y [<-|[]]. lia.
  - split.
    + destruct (Z.min_spec a (fold_right Z.min x l)) as [[_ ->]|[_ ->]]; [auto|].
      simpl in IHin. destruct IHin; auto.
    + intros y [<-|[<-|Hy]].
      * pose proof (IHle x (or_introl eq_refl)). lia.
      * lia.
      * pose proof (IHle y (or_intror Hy)). lia.
Qed.

Lemma series_min_spec (xs : list Z) (m : Z) :
  series_min xs = Some m -> In m xs /\ forall y, In y xs -> (m <= y)%Z.
Proof.
  destruct xs as [|x l]; [discriminate|]. simpl. intros H; injection H as <-.
  apply fold_min_spec.
Qed.

(** The row [create_time_variables] builds from a panel row once the first
    month is known. *)
Definition timed (ym_min : Z) (r : raw_row) : timed_row :=
  let treatment_seq := (TREATMENT_YM - ym_min + 1)%Z in
  let ym_seq := (ym r - ym_min + 1)%Z in
  {| cols := {| raw := r;
                ym_seq := ym_seq;
                post := if (treatment_seq <=? ym_seq)%Z then 1%Z else 0%Z;
                quarter := ((ym_seq - 1) / 3)%Z;
                semester := ((ym_seq - 1) / 6)%Z;
                rel_quarter := ((ym_seq - 1) / 3 - (treatment_seq - 1) / 3)%Z;
                rel_semester := ((ym_seq - 1) / 6 - (treatment_seq - 1) / 6)%Z |};
     treated := no_deposits (num_deposits r) |}.

Lemma create_time_variables_eq (df : list raw_row) :
  match series_min (map ym df) with
  | None => df = [] /\ create_time_variables df = ([], None)
  | Some m =>
      create_time_variables df
      = (map (timed m) df, Some (TREATMENT_YM - m + 1)%Z)
  end.
Proof.
  unfold create_time_variables.
  destruct (series_min (map ym df)) as [m|] eqn:E; [reflexivity|].
  split; [|reflexivity]. destruct df; [reflexivity | discriminate].
Qed.

Lemma create_time_variables_In (df : list raw_row) (t : timed_row) :
  In t (fst (create_time_variables df)) ->
  exists m r, series_min (map ym df) = Some m /\ In r df /\ t = timed m r
              /\ (m <= ym r)%Z.
Proof.
  pose proof (create_time_variables_eq df) as H.
  destruct (series_min (map ym df)) as [m|] eqn:E.
  - rewrite H. simpl. intros Ht. apply in_map_iff in Ht. destruct Ht as [r [<- Hr]].
    exists m, r. repeat split; try assumption; try reflexivity.
    apply series_min_spec in E. apply (proj2 E). apply in_map. exact Hr.
  - destruct H as [_ ->]. simpl. tauto.
Qed.

(** X14 — calendar reading of the time columns: the output keeps the
    panel's rows in order; [ym_seq] counts months from 1, and the first
    month of a non-empty panel has [ym_seq = 1]; [post] is 1 exactly for
    the months from [TREATMENT_YM] on, whatever the first month of the
    panel is; [treated] is 1 exactly for a [num_deposits] equal to zero
    and 0 otherwise, missing values included. *)
Theorem time_variables_calendar (df : list raw_row) (t : timed_row) :
  In t (fst (create_time_variables df)) ->
  map (fun t => raw (cols t)) (fst (create_time_variables df)) = df
  /\ (exists t1, In t1 (fst (create_time_variables df)) /\ ym_seq (cols t1) = 1%Z)
  /\ (1 <= ym_seq (cols t))%Z
  /\ (post (cols t) = 1%Z /\ (TREATMENT_YM <= ym (raw (cols t)))%Z
      \/ post (cols t) = 0%Z /\ (ym (raw (cols t)) < TREATMENT_YM)%Z)
  /\ (treated t = 1%Z /\ (exists d, num_deposits (raw (cols t)) = Some d /\ d == 0)
      \/ treated t = 0%Z
         /\ forall d, num_deposits (raw (cols t)) = Some d -> ~ d == 0).
Proof.
  intros Ht. destruct (@create_time_variables_In df t Ht) as [m [r [Em [Hr [-> Hle]]]]].
  pose proof (create_time_variables_eq df) as H. rewrite Em in H. rewrite H.
  cbn [fst]. split; [|split; [|split; [|split]]].
  - rewrite map_map. cbn [timed cols raw]. apply map_id.
  - apply series_min_spec in Em. destruct Em as [Hin _].
    apply in_map_iff in Hin. destruct Hin as [r1 [E1 Hr1]].
    exists (timed m r1). split; [apply in_map; exact Hr1|].
    cbn [timed cols ym_seq]. lia.
  - cbn [timed cols ym_seq]. lia.
  - cbn [timed cols post raw ym_seq].
    destruct (Z.leb_spec (TREATMENT_YM - m + 1) (ym r - m + 1)); [left | right];
      split; try reflexivity; lia.
  - cbn [timed treated cols raw]. unfold no_deposits.
    destruct (num_deposits r) as [d|].
    + destruct (Qeq_bool d 0) eqn:E.
      * left. split; [reflexivity|]. exists d. split; [reflexivity|].
        apply Qeq_bool_iff; exact E.
      * right. split; [reflexivity|]. intros d' Hd. injection Hd as <-.
        intros H0. apply Qeq_bool_iff in H0. congruence.
    + right. split; [reflexivity|]. intros d Hd. discriminate.
Qed.

(** X15 — event time against the post flag: a post-treatment month never
    has a negative relative semester and a month of a positive relative
    semester is post-treatment; when [TREATMENT_YM - ym_min] is a multiple
    of 6 the treatment month opens a semester of the panel and [post] is 1
    exactly on the rows of a non-negative relative semester; in general
    the pre-treatment rows of relative semester 0 are those of the
    [(TREATMENT_YM - ym_min) mod 6] months before [TREATMENT_YM], so in a
    panel that is not aligned relative semester 0 mixes pre-treatment and
    post-treatment months. *)
Theorem post_and_relative_semester (df : list raw_row) (t : timed_row) :
  In t (fst (create_time_variables df)) ->
  (post (cols t) = 1%Z -> (0 <= rel_semester (cols t))%Z)
  /\ ((0 < rel_semester (cols t))%Z -> post (cols t) = 1%Z)
  /\ (forall ym_min, series_min (map ym df) = Some ym_min ->
        ((TREATMENT_YM - ym_min) mod 6 = 0)%Z ->
        (post (cols t) = 1%Z <-> (0 <= rel_semester (cols t))%Z))
  /\ (forall ym_min, series_min (map ym df) = Some ym_min ->
        (post (cols t) = 0%Z /\ rel_semester (cols t) = 0%Z
         <-> (TREATMENT_YM - (TREATMENT_YM - ym_min) mod 6 <= ym (raw (cols t))
              < TREATMENT_YM)%Z)).
Proof.
  intros Ht. destruct (@create_time_variables_In df t Ht) as [m [r [Em [Hr [-> Hle]]]]].
  cbn [timed cols post rel_semester raw].
  destruct (Z.leb_spec (TREATMENT_YM - m + 1) (ym r - m + 1)) as [Hp|Hp].
  - split; [|split; [|split]].
    + intros _. Z.to_euclidean_division_equations. lia.
    + reflexivity.
    + intros m' Em' Ha. split; [|reflexivity].
      intros _. Z.to_euclidean_division_equations. lia.
    + intros m' Em'. split; [intros [H _]; discriminate | lia].
  - split; [|split; [|split]].
    + discriminate.
    + intros H. exfalso. revert H. Z.to_euclidean_division_equations. lia.
    + intros m' Em' Ha. rewrite Em in Em'. injection Em' as <-.
      split; [discriminate|]. intros H. exfalso. revert H Ha.
      Z.to_euclidean_division_equations. lia.
    + intros m' Em'. rewrite Em in Em'. injection Em' as <-. split.
      * intros [_ H]. revert H. Z.to_euclidean_division_equations. lia.
      * intros H. split; [reflexivity|]. revert H.
        Z.to_euclidean_division_equations. lia.
Qed.
End TimeVariables.

(** A raw panel row for the worked examples. *)
Definition raw_month (g ym : Z) (deposits papers : Q) : MonthlyPanel.raw_row :=
  {| MonthlyPanel.r_gene_id := g; MonthlyPanel.ym := ym;
     MonthlyPanel.num_deposits := Some deposits;
     MonthlyPanel.r_n_papers := Some papers;
     MonthlyPanel.r_n_newcomer_papers := Some 0;
     MonthlyPanel.r_n_veteran_papers := Some papers;
     MonthlyPanel.r_n_top10_y := Some 0;
     MonthlyPanel.r_average_plddt := None;
     MonthlyPanel.r_gene_name := String.EmptyString;
     MonthlyPanel.r_protein_id := String.EmptyString |}.

(** Genes 1 (no deposit) and 2 over June 2021, July 2021 and December
    2021, in a panel that starts in January 2021 (month 732). *)
Definition raw_panel : list MonthlyPanel.raw_row :=
  [raw_month 1 732 0 2; raw_month 2 732 3 2;
   raw_month 1 737 0 4; raw_month 2 737 3 4;
   raw_month 1 738 0 5; raw_month 2 738 3 1;
   raw_month 1 743 0 7; raw_month 2 743 3 1].

Lemma time_variables_calendar_witness :
  exists t,
    In t (fst (MonthlyPanel.create_time_variables raw_panel))
    /\ MonthlyPanel.ym (MonthlyPanel.raw (MonthlyPanel.cols t)) = 738%Z
    /\ (MonthlyPanel.post (MonthlyPanel.cols t) = 1%Z
        /\ (MonthlyPanel.TREATMENT_YM
            <= MonthlyPanel.ym (MonthlyPanel.raw (MonthlyPanel.cols t)))%Z
        \/ MonthlyPanel.post (MonthlyPanel.cols t) = 0%Z
           /\ (MonthlyPanel.ym (MonthlyPanel.raw (MonthlyPanel.cols t))
               < MonthlyPanel.TREATMENT_YM)%Z).
Proof.
  exists (timed 732 (raw_month 1 738 0 5)).
  assert (Hin : In (timed 732 (raw_month 1 738 0 5))
                   (fst (MonthlyPanel.create_time_variables raw_panel))).
  { vm_compute. tauto. }
  split; [exact Hin|]. split; [reflexivity|].
  exact (proj1 (proj2 (proj2 (proj2 (@time_variables_calendar raw_panel _ Hin))))).
Defined.

(** Gene 1 over May, June and July 2021, in a panel that starts in May
    2021 (month 736): the treatment month is the third month of the
    panel's first semester. *)
Definition late_panel : list MonthlyPanel.raw_row :=
  [raw_month 1 736 0 2; raw_month 1 737 0 4; raw_month 1 738 0 5].

(** In [raw_panel], which starts six months before the treatment month,
    June 2021 is outside relative semester 0; in [late_panel] June 2021 is
    a pre-treatment month of relative semester 0, as July 2021 is a
    post-treatment month of it. *)
Lemma post_and_relative_semester_witness :
  (exists t,
     In t (fst (MonthlyPanel.create_time_variables raw_panel))
     /\ MonthlyPanel.ym (MonthlyPanel.raw (MonthlyPanel.cols t)) = 737%Z
     /\ (MonthlyPanel.post (MonthlyPanel.cols t) = 1%Z
         <-> (0 <= MonthlyPanel.rel_semester (MonthlyPanel.cols t))%Z))
  /\ (exists t t',
        In t (fst (MonthlyPanel.create_time_variables late_panel))
        /\ In t' (fst (MonthlyPanel.create_time_variables late_panel))
        /\ MonthlyPanel.ym (MonthlyPanel.raw (MonthlyPanel.cols t)) = 737%Z
        /\ MonthlyPanel.post (MonthlyPanel.cols t) = 0%Z
        /\ MonthlyPanel.rel_semester (MonthlyPanel.cols t) = 0%Z
        /\ MonthlyPanel.post (MonthlyPanel.cols t') = 1%Z
        /\ MonthlyPanel.rel_semester (MonthlyPanel.cols t') = 0%Z).
Proof.
  split.
  - exists (timed 732 (raw_month 2 737 3 4)).
    assert (Hin : In (timed 732 (raw_month 2 737 3 4))
                     (fst (MonthlyPanel.create_time_variables raw_panel))).
    { vm_compute. tauto. }
    split; [exact Hin|]. split; [reflexivity|].
    apply (proj1 (proj2 (proj2 (@post_and_relative_semester raw_panel _ Hin))) 732%Z);
      reflexivity.
  - exists (timed 736 (raw_month 1 737 0 4)), (timed 736 (raw_month 1 738 0 5)).
    assert (Hin : In (timed 736 (raw_month 1 737 0 4))
                     (fst (MonthlyPanel.create_time_variables late_panel))).
    { vm_compute. tauto. }
    split; [exact Hin|]. split; [vm_compute; tauto|]. split; [reflexivity|].
    destruct (proj2 (proj2 (proj2 (@post_and_relative_semester late_panel _ Hin)))
                736%Z eq_refl) as [_ H].
    destruct H as [Hpost Hrel].
    { vm_compute. split; [discriminate | reflexivity]. }
    split; [exact Hpost|]. split; [exact Hrel|]. split; reflexivity.
Defined.

(** ** The feature table, the matched genes and the matched panel *)

Lemma sort_unique_strict (l : list Z) :
  StronglySorted Z.lt (sort_by Z.leb (unique Z.eqb l)).
Proof.
  assert (Hs : StronglySorted Z.le (sort_by Z.leb (unique Z.eqb l))).
  { apply Sorted_StronglySorted; [intros a b c; apply Z.le_trans|].
    pose proof (sort_by_sorted Z.leb Zleb_total (unique Z.eqb l)) as H.
    induction H as [|x l0 Hs IH Hhd]; constructor; [exact IH|].
    destruct Hhd as [|y l' Hy]; constructor. apply Z.leb_le; exact Hy. }
  assert (Hn : NoDup (sort_by Z.leb (unique Z.eqb l))).
  { apply sort_by_NoDup, (unique_NoDup Zeqb_spec'). }
  induction Hs as [|x l0 Hs IH Hall]; [constructor|].
  inversion Hn as [|? ? Hx Hn']; subst. constructor; [apply IH; exact Hn'|].
  rewrite Forall_forall in *. intros y Hy. specialize (Hall y Hy).
  assert (x <> y) by (intros ->; contradiction). lia.
Qed.

Section FeatureTable.
Import Matching.
Variable np_sqrt : Q -> Q.

Lemma merge_meta_In (feats : list feature_agg) (meta : list gene_meta)
      (g : gene_features) :
  In g (merge_meta feats meta) ->
  exists fa gm, In fa feats /\ In gm meta /\ gm_gene_id gm = fa_gene_id fa
                /\ gene_id g = fa_gene_id fa
                /\ treated g = gm_treated gm
                /\ average_plddt g = fillna0 (gm_average_plddt gm)
                /\ gene_name g = gm_gene_name gm
                /\ protein_id g = gm_protein_id gm.
Proof.
  unfold merge_meta. intros H. apply in_flat_map in H. destruct H as [fa [Hfa H]].
  apply in_map_iff in H. destruct H as [gm [<- Hgm]]. apply filter_In in Hgm.
  destruct Hgm as [Hgm E]. apply Z.eqb_eq in E.
  exists fa, gm. cbn. repeat split; assumption.
Qed.

Lemma aggregate_meta_In (df : list panel_row) (gm : gene_meta) :
  In gm (aggregate_meta df) ->
  exists r rest, group df (gm_gene_id gm) = r :: rest
                 /\ gm_treated gm = p_treated r
                 /\ gm_gene_name gm = p_gene_name r
                 /\ gm_protein_id gm = p_protein_id r.
Proof.
  unfold aggregate_meta. intros H. apply in_flat_map in H. destruct H as [k [_ H]].
  destruct (group df k) as [|r rest] eqn:E; [contradiction|].
  destruct H as [<-|[]]. cbn [gm_gene_id gm_treated gm_gene_name gm_protein_id].
  exists r, rest. rewrite E. repeat split; reflexivity.
Qed.

(** The metadata of a feature row, read off the gene's rows in the whole
    panel. *)
Lemma feature_row_meta (df : list panel_row) (t : Z) (g : gene_features) :
  In g (compute_pre_treatment_features np_sqrt df t) ->
  exists r rest, group df (gene_id g) = r :: rest
                 /\ treated g = p_treated r
                 /\ gene_name g = p_gene_name r
                 /\ protein_id g = p_protein_id r.
Proof.
  unfold compute_pre_treatment_features. intros H. apply merge_meta_In in H.
  destruct H as [fa [gm [_ [Hgm [Ek [Eg [Et [Ea [En Ep]]]]]]]]].
  apply aggregate_meta_In in Hgm. destruct Hgm as [r [rest [E [H1 [H3 H4]]]]].
  exists r, rest. rewrite Eg, <- Ek. split; [exact E|]. repeat split; congruence.
Qed.

(** X13 — rows of the feature table: one row per gene that has a month
    strictly before the treatment month, by strictly ascending [gene_id];
    treatment flag and names are those of the gene's first row in the
    whole panel, which may be a row of the treatment period or later. *)
Theorem feature_table_rows (df : list panel_row) (t : Z) :
  StronglySorted Z.lt (map gene_id (compute_pre_treatment_features np_sqrt df t))
  /\ (forall k, In k (map gene_id (compute_pre_treatment_features np_sqrt df t))
                <-> exists r, In r df /\ p_gene_id r = k /\ (ym_seq r < t)%Z)
  /\ forall g, In g (compute_pre_treatment_features np_sqrt df t) ->
       exists r rest,
         group df (gene_id g) = r :: rest
         /\ treated g = p_treated r
         /\ gene_name g = p_gene_name r
         /\ protein_id g = p_protein_id r.
Proof.
  rewrite feature_rows_keys. split; [apply sort_unique_strict|]. split.
  - intros k. rewrite group_keys_In, in_map_iff. unfold pre_period. split.
    + intros [r [E Hr]]. apply filter_In in Hr. destruct Hr as [Hr Hy].
      apply Z.ltb_lt in Hy. exists r. auto.
    + intros [r [Hr [E Hy]]]. exists r. split; [exact E|].
      apply filter_In. split; [exact Hr | apply Z.ltb_lt; exact Hy].
  - intros g Hg. apply (feature_row_meta _ _ _ Hg).
Qed.

(** A panel row before the treatment period gives the feature table a
    row. *)
Lemma feature_table_nonempty (df : list panel_row) (t : Z) (r : panel_row) :
  In r df -> (ym_seq r < t)%Z ->
  compute_pre_treatment_features np_sqrt df t <> [].
Proof.
  intros Hr Hy E.
  assert (H : In (p_gene_id r)
                 (map gene_id (compute_pre_treatment_features np_sqrt df t))).
  { rewrite feature_rows_keys. apply group_keys_In. apply in_map.
    apply filter_In. split; [exact Hr | apply Z.ltb_lt; exact Hy]. }
  rewrite E in H. contradiction.
Qed.

Lemma feature_table_binary (df : list panel_row) (t : Z) :
  (forall r, In r df -> binary (p_treated r)) ->
  forall g, In g (compute_pre_treatment_features np_sqrt df t) -> binary (treated g).
Proof.
  intros Hb g Hg. destruct (feature_row_meta _ _ _ Hg) as [r [rest [E [-> _]]]].
  apply Hb. assert (Hr : In r (group df (gene_id g))) by (rewrite E; left; reflexivity).
  apply filter_In in Hr. tauto.
Qed.
End FeatureTable.

Section MatchedGenes.
Import Matching.

Lemma cem_weights_features (df : list binned_gene) :
  map (fun m => features (binned m)) (cem_weights df) = map features (kept df).
Proof.
  rewrite cem_weights_eq. unfold merged. rewrite !map_map.
  apply map_ext. intros r.
  destruct (rescale_binned
              (weight_sum 1 (map (weighted df) (kept df))
               / weight_sum 0 (map (weighted df) (kept df)))
              (weighted df r)) as [-> _].
  reflexivity.
Qed.

Lemma matching_subsequence (gf : list gene_features) (n_bins : nat)
      (matched : list matched_gene) :
  coarsened_exact_matching gf n_bins = Ret matched ->
  subsequence (map (fun m => features (binned m)) matched) gf.
Proof.
  unfold coarsened_exact_matching.
  destruct (cem_strata gf n_bins) as [df|e] eqn:Es; simpl; [|discriminate].
  pose proof (cem_strata_features _ _ Es) as Hf.
  intros H; injection H as <-. rewrite cem_weights_features, <- Hf.
  apply subsequence_map. unfold kept. apply subsequence_filter.
Qed.

(** X10 — matching only selects: the matched table holds rows of the
    feature table, unchanged and in their order, each at most once; so it
    is no longer than the feature table and gene ids that are distinct in
    the feature table are distinct in the matched table. *)
Theorem matching_keeps_rows (gf : list gene_features) (n_bins : nat)
        (matched : list matched_gene) :
  coarsened_exact_matching gf n_bins = Ret matched ->
  subsequence (map (fun m => features (binned m)) matched) gf
  /\ (length matched <= length gf)%nat
  /\ (NoDup (map gene_id gf) ->
      NoDup (map (fun m => gene_id (features (binned m))) matched)).
Proof.
  intros H. pose proof (@matching_subsequence gf n_bins matched H) as Hs.
  split; [exact Hs|]. split.
  - apply subsequence_length in Hs. rewrite length_map in Hs. exact Hs.
  - intros Hn. apply (subsequence_map gene_id) in Hs. rewrite map_map in Hs.
    exact (subsequence_NoDup Hs Hn).
Qed.
End MatchedGenes.

Lemma matching_keeps_rows_witness :
  exists matched,
    Matching.coarsened_exact_matching demo_features 10 = Ret matched
    /\ subsequence (map (fun m => Matching.features (Matching.binned m)) matched)
                   demo_features.
Proof.
  eexists. split; [vm_compute; reflexivity|].
  refine (proj1 (@matching_keeps_rows demo_features 10 _ _)).
  vm_compute; reflexivity.
Defined.

Section MatchedPanel.
Import MonthlyPanel.

(** The output row of a panel row and its partner in [matched_genes]. *)
Definition with_weight (t : timed_row) (m : Matching.matched_gene) : matched_panel_row :=
  {| panel := cols t;
     cem_weight := Some (Matching.cem_weight m);
     stratum := Some (Matching.stratum (Matching.binned m));
     mp_treated := Some (Matching.m_treated m) |}.

Definition partners (matched_genes : list Matching.matched_gene) (t : timed_row)
  : list Matching.matched_gene :=
  filter (fun m => (m_gene_id m =? gene_id t)%Z) matched_genes.

Definition is_matched (matched_genes : list Matching.matched_gene) (t : timed_row)
  : bool :=
  existsb (Z.eqb (gene_id t)) (map m_gene_id matched_genes).

Lemma is_matched_unique (matched_genes : list Matching.matched_gene) (t : timed_row) :
  existsb (Z.eqb (gene_id t)) (unique Z.eqb (map m_gene_id matched_genes))
  = is_matched matched_genes t.
Proof.
  unfold is_matched. apply eq_true_iff_eq.
  rewrite !(existsb_eqb_In Zeqb_spec'). apply (unique_In Zeqb_spec').
Qed.

Lemma is_matched_partners (matched_genes : list Matching.matched_gene) (t : timed_row) :
  is_matched matched_genes t = true -> partners matched_genes t <> [].
Proof.
  unfold is_matched, partners. rewrite (existsb_eqb_In Zeqb_spec').
  intros H. apply in_map_iff in H. destruct H as [m [E Hm]].
  assert (Hf : In m (filter (fun m => (m_gene_id m =? gene_id t)%Z) matched_genes)).
  { apply filter_In. split; [exact Hm | apply Z.eqb_eq; exact E]. }
  intros E0. rewrite E0 in Hf. contradiction.
Qed.

Lemma merge_weights_matched (matched_genes : list Matching.matched_gene)
      (t : timed_row) :
  is_matched matched_genes t = true ->
  merge_weights matched_genes t = map (with_weight t) (partners matched_genes t).
Proof.
  intros H. apply is_matched_partners in H. unfold merge_weights. fold (partners matched_genes t).
  destruct (partners matched_genes t); [congruence | reflexivity].
Qed.

Lemma create_matched_panel_eq (panel_df : list timed_row)
      (matched_genes : list Matching.matched_gene) :
  create_matched_panel panel_df matched_genes
  = flat_map (fun t => map (with_weight t) (partners matched_genes t))
             (filter (is_matched matched_genes) panel_df).
Proof.
  unfold create_matched_panel.
  rewrite (filter_ext _ _ (is_matched_unique matched_genes)).
  induction panel_df as [|t l IH]; [reflexivity|]. cbn [filter].
  destruct (is_matched matched_genes t) eqn:E; [|exact IH].
  cbn [flat_map]. rewrite IH, (merge_weights_matched _ _ E). reflexivity.
Qed.

Lemma matched_panel_In (panel_df : list timed_row)
      (matched_genes : list Matching.matched_gene) (r : matched_panel_row) :
  In r (create_matched_panel panel_df matched_genes) ->
  exists t m,
    In t panel_df /\ In m matched_genes /\ m_gene_id m = gene_id t
    /\ panel r = cols t
    /\ cem_weight r = Some (Matching.cem_weight m)
    /\ stratum r = Some (Matching.stratum (Matching.binned m))
    /\ mp_treated r = Some (Matching.m_treated m).
Proof.
  rewrite create_matched_panel_eq. intros H. apply in_flat_map in H.
  destruct H as [t [Ht H]]. apply in_map_iff in H. destruct H as [m [<- Hm]].
  apply filter_In in Ht. apply filter_In in Hm. destruct Hm as [Hm E].
  apply Z.eqb_eq in E. exists t, m. cbn. tauto.
Qed.

(** X16 — no missing weight in the matched panel: every row of the matched
    panel is a row of the panel whose gene is in [matched_genes], with
    weight, stratum and treatment flag of a row of [matched_genes] for
    that gene; the left join never leaves these columns missing. *)
Theorem matched_panel_no_missing (panel_df : list timed_row)
        (matched_genes : list Matching.matched_gene) (r : matched_panel_row) :
  In r (create_matched_panel panel_df matched_genes) ->
  exists t m,
    In t panel_df /\ In m matched_genes /\ m_gene_id m = gene_id t
    /\ panel r = cols t
    /\ cem_weight r = Some (Matching.cem_weight m)
    /\ stratum r = Some (Matching.stratum (Matching.binned m))
    /\ mp_treated r = Some (Matching.m_treated m).
Proof. apply matched_panel_In. Qed.

Lemma partners_one (matched_genes : list Matching.matched_gene) (t : timed_row) :
  NoDup (map m_gene_id matched_genes) ->
  is_matched matched_genes t = true ->
  exists m, partners matched_genes t = [m].
Proof.
  unfold is_matched, partners. rewrite (existsb_eqb_In Zeqb_spec').
  induction matched_genes as [|a l IH]; simpl; intros Hn Hin; [contradiction|].
  inversion Hn as [|? ? Ha Hn']; subst.
  destruct (Z.eqb_spec (m_gene_id a) (gene_id t)) as [E|E].
  - exists a. f_equal.
    assert (Hno : forall m, In m l -> (m_gene_id m =? gene_id t)%Z = false).
    { intros m Hm. apply Z.eqb_neq. intros E'. apply Ha. rewrite E, <- E'.
      apply in_map; exact Hm. }
    clear - Hno. induction l as [|b l IHl]; [reflexivity|]. simpl.
    rewrite (Hno b (or_introl eq_refl)). apply IHl. intros m Hm; apply Hno; right; exact Hm.
  - destruct Hin as [Hin|Hin]; [congruence|]. exact (IH Hn' Hin).
Qed.

Lemma matched_panel_rows_eq (panel_df : list timed_row)
      (matched_genes : list Matching.matched_gene) :
  NoDup (map m_gene_id matched_genes) ->
  map panel (create_matched_panel panel_df matched_genes)
  = map cols (filter (is_matched matched_genes) panel_df).
Proof.
  intros Hn. rewrite create_matched_panel_eq.
  induction panel_df as [|t l IH]; [reflexivity|]. cbn [filter].
  destruct (is_matched matched_genes t) eqn:E; [|exact IH].
  cbn [flat_map map]. rewrite map_app, IH.
  destruct (@partners_one matched_genes t Hn E) as [m ->]. reflexivity.
Qed.

(** X17 — one row per month of a matched gene: when the gene ids of
    [matched_genes] are distinct, the matched panel holds the panel rows
    of the matched genes, once each and in the order of the panel, and no
    row of another gene. *)
Theorem matched_panel_rows (panel_df : list timed_row)
        (matched_genes : list Matching.matched_gene) :
  NoDup (map m_gene_id matched_genes) ->
  map panel (create_matched_panel panel_df matched_genes)
  = map cols (filter (is_matched matched_genes) panel_df).
Proof. apply matched_panel_rows_eq. Qed.
End MatchedPanel.

Section MainFacts.
Import MonthlyPanel.
Variable np_sqrt : Q -> Q.

Lemma timed_rows_binary (df : list raw_row) (r : Matching.panel_row) :
  In r (map panel_view (fst (create_time_variables df))) ->
  binary (Matching.p_treated r).
Proof.
  intros H. apply in_map_iff in H. destruct H as [t [<- Ht]].
  apply create_time_variables_In in Ht. destruct Ht as [m [r0 [_ [_ [-> _]]]]].
  cbn. unfold no_deposits, binary.
  destruct (num_deposits r0) as [d|]; [destruct (Qeq_bool d 0)|]; auto.
Qed.

(** X18 — the matching script end to end: on a panel with a month before
    [TREATMENT_YM], [main] returns; the matched genes have distinct ids
    and a 0/1 treatment flag, the control weights sum to the treated
    weights unless no gene is matched, and the matched panel holds the
    months of the matched genes, once each in panel order, every row
    carrying the weight of its gene. *)
Theorem main_end_to_end (df : list raw_row) :
  (exists r, In r df /\ (ym r < TREATMENT_YM)%Z) ->
  exists panel_matched matched_genes,
    main np_sqrt df = Ret (panel_matched, matched_genes)
    /\ NoDup (map m_gene_id matched_genes)
    /\ (forall m, In m matched_genes -> binary (Matching.m_treated m))
    /\ (matched_genes <> [] ->
        Matching.weight_sum 1 matched_genes == Matching.weight_sum 0 matched_genes)
    /\ map panel panel_matched
       = map cols (filter (is_matched matched_genes) (fst (create_time_variables df)))
    /\ forall r, In r panel_matched ->
         exists m, In m matched_genes
                   /\ m_gene_id m = r_gene_id (raw (panel r))
                   /\ cem_weight r = Some (Matching.cem_weight m)
                   /\ mp_treated r = Some (Matching.m_treated m).
Proof.
  intros [r0 [Hr0 Hpre]]. unfold main.
  pose proof (create_time_variables_eq df) as Heq.
  destruct (series_min (map ym df)) as [ym_min|] eqn:Em;
    [|destruct Heq as [-> _]; contradiction].
  rewrite Heq. cbn [fst].
  set (rows := map (timed ym_min) df).
  set (gf := Matching.compute_pre_treatment_features np_sqrt (map panel_view rows)
               (TREATMENT_YM - ym_min + 1)).
  assert (Hbin : forall g, In g gf -> binary (Matching.treated g)).
  { apply feature_table_binary. intros r Hr.
    apply (@timed_rows_binary df r). rewrite Heq. exact Hr. }
  assert (Hnd : NoDup (map Matching.gene_id gf)).
  { unfold gf. rewrite feature_rows_keys. apply group_keys_NoDup. }
  assert (Hgf : gf <> []).
  { apply (@feature_table_nonempty np_sqrt _ _ (panel_view (timed ym_min r0))).
    - apply in_map. apply in_map. exact Hr0.
    - cbn [panel_view Matching.ym_seq timed cols ym_seq]. lia. }
  unfold Matching.coarsened_exact_matching.
  destruct (cem_strata_ret N_QUANTILE_BINS Hgf) as [strata [Es Hf]].
  rewrite Es. cbn [py_bind].
  assert (Hm : Matching.coarsened_exact_matching gf N_QUANTILE_BINS
               = Ret (Matching.cem_weights strata)).
  { unfold Matching.coarsened_exact_matching. rewrite Es. reflexivity. }
  assert (Hids : NoDup (map m_gene_id (Matching.cem_weights strata))).
  { pose proof (@matching_subsequence gf N_QUANTILE_BINS _ Hm) as Hs.
    apply (subsequence_map Matching.gene_id) in Hs. rewrite map_map in Hs.
    exact (subsequence_NoDup Hs Hnd). }
  eexists. eexists. split; [reflexivity|].
  split; [exact Hids|]. split; [|split; [|split]].
  - intros m Hin. apply (Hbin (Matching.features (Matching.binned m))).
    eapply subsequence_In; [exact (@matching_subsequence gf N_QUANTILE_BINS _ Hm)|].
    apply (in_map (fun m => Matching.features (Matching.binned m))). exact Hin.
  - intros Hne. apply cem_weights_balanced; [|exact Hne].
    exact (cem_strata_binary gf N_QUANTILE_BINS Hbin Es).
  - apply (@matched_panel_rows_eq rows _ Hids).
  - intros r Hr. apply matched_panel_In in Hr.
    destruct Hr as [t [m [_ [Hm' [E [Ep [Ew [_ Et]]]]]]]].
    exists m. rewrite Ep. repeat split; assumption.
Qed.

(** Without a month before [TREATMENT_YM] (an empty panel included) the
    feature table has no row and [main] raises [ValueError] in the
    matching. *)
Lemma main_no_pre_period_raises (df : list raw_row) :
  (forall r, In r df -> (TREATMENT_YM <= ym r)%Z) ->
  main np_sqrt df = Raise ValueError.
Proof.
  intros Hpost. unfold main.
  pose proof (create_time_variables_eq df) as Heq.
  destruct (series_min (map ym df)) as [ym_min|] eqn:Em.
  - rewrite Heq.
    assert (E : Matching.compute_pre_treatment_features np_sqrt
                  (map panel_view (map (timed ym_min) df)) (TREATMENT_YM - ym_min + 1)
                = []).
    { destruct (Matching.compute_pre_treatment_features np_sqrt
                  (map panel_view (map (timed ym_min) df)) (TREATMENT_YM - ym_min + 1))
        as [|g l] eqn:Eg; [reflexivity|]. exfalso.
      assert (Hg : In (Matching.gene_id g)
                      (map Matching.gene_id
                         (Matching.compute_pre_treatment_features np_sqrt
                            (map panel_view (map (timed ym_min) df))
                            (TREATMENT_YM - ym_min + 1)))).
      { rewrite Eg. left. reflexivity. }
      rewrite feature_rows_keys in Hg. apply group_keys_In in Hg.
      apply in_map_iff in Hg. destruct Hg as [p [_ Hp]].
      apply filter_In in Hp. destruct Hp as [Hp Hy]. apply Z.ltb_lt in Hy.
      apply in_map_iff in Hp. destruct Hp as [t [<- Ht]].
      apply in_map_iff in Ht. destruct Ht as [r [<- Hr]].
      specialize (Hpost r Hr).
      cbn [panel_view Matching.ym_seq timed cols ym_seq] in Hy. lia. }
    rewrite E. unfold Matching.coarsened_exact_matching.
    rewrite cem_strata_empty. reflexivity.
  - destruct Heq as [_ ->]. unfold Matching.coarsened_exact_matching.
    rewrite cem_strata_empty. reflexivity.
Qed.
End MainFacts.

(** Gene 1 alone as the matched table, with weight 1. *)
Definition one_matched_gene : list Matching.matched_gene :=
  [weighted [] {| Matching.features := demo_gene 1 1 1; Matching.stratum := [0%Z] |}].

Definition timed_panel : list MonthlyPanel.timed_row :=
  fst (MonthlyPanel.create_time_variables raw_panel).

Lemma matched_panel_no_missing_witness :
  exists r,
    In r (MonthlyPanel.create_matched_panel timed_panel one_matched_gene)
    /\ MonthlyPanel.cem_weight r <> None.
Proof.
  assert (Hin : In (with_weight (timed 732 (raw_month 1 732 0 2))
                      (weighted [] {| Matching.features := demo_gene 1 1 1;
                                      Matching.stratum := [0%Z] |}))
                   (MonthlyPanel.create_matched_panel timed_panel one_matched_gene)).
  { vm_compute. left. reflexivity. }
  eexists. split; [exact Hin|].
  destruct (@matched_panel_no_missing timed_panel one_matched_gene _ Hin)
    as [t [m [_ [_ [_ [_ [E _]]]]]]].
  rewrite E. discriminate.
Defined.

Lemma matched_panel_rows_witness :
  map MonthlyPanel.panel
      (MonthlyPanel.create_matched_panel timed_panel one_matched_gene)
  = map MonthlyPanel.cols (filter (is_matched one_matched_gene) timed_panel).
Proof.
  apply (@matched_panel_rows timed_panel one_matched_gene).
  repeat constructor. simpl. tauto.
Defined.

Lemma main_end_to_end_witness :
  exists panel_matched matched_genes,
    MonthlyPanel.main newton_sqrt raw_panel = Ret (panel_matched, matched_genes)
    /\ NoDup (map MonthlyPanel.m_gene_id matched_genes).
Proof.
  destruct (@main_end_to_end newton_sqrt raw_panel) as [pm [mg [H1 [H2 _]]]].
  - exists (raw_month 1 732 0 2). split; [left; reflexivity | reflexivity].
  - exists pm, mg. split; assumption.
Defined.

(** * The semester panel *)

Section SemesterKeys.
Import SemesterPanel.

Lemma key_eqb_spec (a b : key) : key_eqb a b = true <-> a = b.
Proof.
  unfold key_eqb. destruct a as [a1 a2], b as [b1 b2]. cbn [fst snd].
  rewrite andb_true_iff, !Z.eqb_eq. split.
  - intros [-> ->]. reflexivity.
  - intros H; injection H; auto.
Qed.

Lemma key_leb_total (a b : key) : key_leb a b = false -> key_leb b a = true.
Proof.
  unfold key_leb. intros H. apply orb_false_iff in H. destruct H as [H1 H2].
  apply Z.ltb_ge in H1.
  destruct (Z.eqb_spec (fst a) (fst b)) as [E|E]; simpl in H2.
  - apply Z.leb_gt in H2. rewrite E, Z.eqb_refl.
    apply orb_true_iff; right. apply Z.leb_le. lia.
  - apply orb_true_iff; left. apply Z.ltb_lt. lia.
Qed.

Lemma key_leb_trans (a b c : key) :
  key_leb a b = true -> key_leb b c = true -> key_leb a c = true.
Proof.
  unfold key_leb. intros H1 H2.
  apply orb_true_iff in H1, H2. apply orb_true_iff.
  rewrite !andb_true_iff, !Z.ltb_lt, !Z.eqb_eq, !Z.leb_le in *. lia.
Qed.

(** Strict lexicographic order of the keys. *)
Definition key_lt (a b : key) : Prop :=
  (fst a < fst b)%Z \/ (fst a = fst b /\ (snd a < snd b)%Z).

Lemma group_keys_strict (df : list MonthlyPanel.matched_panel_row) :
  StronglySorted key_lt (group_keys df).
Proof.
  unfold group_keys.
  pose proof (sort_by_sorted key_leb key_leb_total (unique key_eqb (map key_of df))) as Hs.
  apply Sorted_StronglySorted in Hs; [|intros a b c; apply key_leb_trans].
  assert (Hn : NoDup (sort_by key_leb (unique key_eqb (map key_of df)))).
  { apply sort_by_NoDup, (unique_NoDup key_eqb_spec). }
  induction Hs as [|x l Hs IH Hall]; [constructor|].
  inversion Hn as [|? ? Hx Hn']; subst. constructor; [apply IH; exact Hn'|].
  rewrite Forall_forall in *. intros y Hy. specialize (Hall y Hy).
  assert (Hxy : x <> y) by (intros ->; contradiction).
  unfold key_leb in Hall. unfold key_lt. destruct x as [x1 x2], y as [y1 y2].
  cbn [fst snd] in *. apply orb_true_iff in Hall.
  rewrite andb_true_iff, Z.ltb_lt, Z.eqb_eq, Z.leb_le in Hall.
  destruct Hall as [H|[H1 H2]]; [left; exact H|]. right. split; [exact H1|].
  assert (x2 <> y2) by (intros ->; apply Hxy; rewrite H1; reflexivity). lia.
Qed.

Lemma semester_keys_In (df : list MonthlyPanel.matched_panel_row) (k : key) :
  In k (group_keys df) <-> In k (map key_of df).
Proof.
  unfold group_keys. rewrite sort_by_In. apply (unique_In key_eqb_spec).
Qed.

Lemma semester_group_nonempty (df : list MonthlyPanel.matched_panel_row) (k : key) :
  In k (map key_of df) -> group df k <> [].
Proof.
  intros H. apply in_map_iff in H. destruct H as [r [E Hr]].
  assert (Hg : In r (group df k)).
  { apply filter_In; split; [assumption | apply key_eqb_spec; assumption]. }
  intros E0; rewrite E0 in Hg; contradiction.
Qed.

Definition agg_key (a : semester_agg) : key := (gene_id a, semester a).

(** The columns of an output row, read off its group. *)
Lemma aggregate_to_semester_In (df : list MonthlyPanel.matched_panel_row)
      (a : semester_agg) :
  In a (aggregate_to_semester df) ->
  exists r rest,
    group df (agg_key a) = r :: rest
    /\ In (agg_key a) (group_keys df)
    /\ treated a = first_valid (map MonthlyPanel.mp_treated (r :: rest))
    /\ cem_weight a = first_valid (map MonthlyPanel.cem_weight (r :: rest))
    /\ stratum a = first_valid (map MonthlyPanel.stratum (r :: rest))
    /\ rel_semester a = MonthlyPanel.rel_semester (MonthlyPanel.panel r)
    /\ post a = fold_right Z.max (MonthlyPanel.post (MonthlyPanel.panel r))
                  (map (fun x => MonthlyPanel.post (MonthlyPanel.panel x)) rest).
Proof.
  unfold aggregate_to_semester. intros H. apply in_flat_map in H.
  destruct H as [k [Hk H]]. destruct (group df k) as [|r rest] eqn:E; [contradiction|].
  destruct H as [<-|[]]. unfold agg_key. cbn [gene_id semester treated cem_weight
    stratum rel_semester post]. rewrite <- surjective_pairing.
  exists r, rest. rewrite E. repeat split; try reflexivity. exact Hk.
Qed.

Lemma aggregate_keys (df : list MonthlyPanel.matched_panel_row) :
  map agg_key (aggregate_to_semester df) = group_keys df.
Proof.
  unfold aggregate_to_semester.
  assert (H : forall k, In k (group_keys df) -> group df k <> []).
  { intros k Hk. apply semester_group_nonempty, semester_keys_In, Hk. }
  induction (group_keys df) as [|k l IH]; [reflexivity|].
  cbn [flat_map]. rewrite map_app, IH by (intros; apply H; right; assumption).
  pose proof (H k (or_introl eq_refl)) as Hne.
  destruct (group df k) as [|r rest]; [congruence|].
  cbn [map app]. unfold agg_key at 1. cbn [gene_id semester].
  rewrite <- surjective_pairing. reflexivity.
Qed.

(** X19 — one row per gene and semester: the aggregated frame has exactly
    the (gene, semester) pairs that occur in the monthly panel, each
    once, in ascending order of gene and then semester. *)
Theorem semester_rows_keys (df : list MonthlyPanel.matched_panel_row) :
  StronglySorted key_lt (map agg_key (aggregate_to_semester df))
  /\ forall k, In k (map agg_key (aggregate_to_semester df))
               <-> exists r, In r df /\ key_of r = k.
Proof.
  rewrite aggregate_keys. split; [apply group_keys_strict|].
  intros k. rewrite semester_keys_In, in_map_iff. split.
  - intros [r [E Hr]]. exists r. auto.
  - intros [r [Hr E]]. exists r. auto.
Qed.

(** A monthly outcome column and its semester total. *)
Definition monthly (y : Semester.outcome) (r : MonthlyPanel.matched_panel_row)
  : option Q :=
  match y with
  | Semester.n_papers => MonthlyPanel.r_n_papers (raw_of r)
  | Semester.n_newcomer_papers => MonthlyPanel.r_n_newcomer_papers (raw_of r)
  | Semester.n_veteran_papers => MonthlyPanel.r_n_veteran_papers (raw_of r)
  | Semester.n_top10_y => MonthlyPanel.r_n_top10_y (raw_of r)
  end.

Definition total (y : Semester.outcome) (a : semester_agg) : Q :=
  match y with
  | Semester.n_papers => n_papers a
  | Semester.n_newcomer_papers => n_newcomer_papers a
  | Semester.n_veteran_papers => n_veteran_papers a
  | Semester.n_top10_y => n_top10_y a
  end.

Lemma aggregate_total (y : Semester.outcome)
      (df : list MonthlyPanel.matched_panel_row) (a : semester_agg) :
  In a (aggregate_to_semester df) ->
  total y a = Semester.sum_skipna (map (monthly y) (group df (agg_key a))).
Proof.
  unfold aggregate_to_semester. intros H. apply in_flat_map in H.
  destruct H as [k [Hk H]]. destruct (group df k) as [|r rest] eqn:E; [contradiction|].
  destruct H as [<-|[]]. unfold agg_key. cbn [gene_id semester].
  rewrite <- surjective_pairing, E. destruct y; reflexivity.
Qed.

(** X20 — aggregation conserves the counts: for each outcome, the semester
    totals of the aggregated frame add up to the monthly values of the
    panel, missing values counting as zero. *)
Theorem semester_sums_conserved (y : Semester.outcome)
        (df : list MonthlyPanel.matched_panel_row) :
  np_sum (map (total y) (aggregate_to_semester df))
  == Semester.sum_skipna (map (monthly y) df).
Proof.
  transitivity
    (np_sum (map (fun k => np_sum (map (fun r => fillna0 (monthly y r))
                                       (filter (fun r => key_eqb (key_of r) k) df)))
                 (group_keys df))).
  - rewrite <- aggregate_keys, map_map. apply np_sum_map_ext_in.
    intros a Ha. rewrite (aggregate_total y df a Ha).
    unfold Semester.sum_skipna, group. rewrite map_map. reflexivity.
  - unfold Semester.sum_skipna. rewrite map_map. symmetry.
    apply (np_sum_by_group key_eqb_spec key_of (fun r => fillna0 (monthly y r))).
    + apply sort_by_NoDup, (unique_NoDup key_eqb_spec).
    + intros r Hr. apply semester_keys_In. apply in_map. exact Hr.
Qed.

Lemma fold_max_binary (x : Z) (l : list Z) :
  (forall z, In z (x :: l) -> z = 0%Z \/ z = 1%Z) ->
  (fold_right Z.max x l = 0%Z \/ fold_right Z.max x l = 1%Z)
  /\ (fold_right Z.max x l = 1%Z <-> In 1%Z (x :: l)).
Proof.
  induction l as [|a l IH]; intros H.
  - cbn [fold_right]. split; [apply H; left; reflexivity|].
    split; [intros ->; left; reflexivity | intros [E|[]]; exact E].
  - destruct IH as [IH1 IH2].
    { intros z [<-|Hz]; apply H; [left | right; right]; auto. }
    cbn [fold_right]. pose proof (H a (or_intror (or_introl eq_refl))) as Ha.
    split; [lia|]. split.
    + intros E. destruct Ha as [->| ->]; [|right; left; reflexivity].
      assert (E1 : fold_right Z.max x l = 1%Z) by lia.
      apply IH2 in E1. destruct E1 as [E1|E1]; [left; exact E1 | right; right; exact E1].
    + intros [E|[E|E]].
      * assert (fold_right Z.max x l = 1%Z) by (apply IH2; left; exact E). lia.
      * subst a. lia.
      * assert (fold_right Z.max x l = 1%Z) by (apply IH2; right; exact E). lia.
Qed.

(** X21 — the post flag of a semester: with 0/1 flags in the monthly
    panel, a gene-semester row is flagged [post] exactly when one of its
    months is, so a semester that holds the treatment month is
    post-treatment as a whole. *)
Theorem semester_post_flag (df : list MonthlyPanel.matched_panel_row)
        (a : semester_agg) :
  (forall r, In r df -> MonthlyPanel.post (MonthlyPanel.panel r) = 0%Z
                        \/ MonthlyPanel.post (MonthlyPanel.panel r) = 1%Z) ->
  In a (aggregate_to_semester df) ->
  (post a = 0%Z \/ post a = 1%Z)
  /\ (post a = 1%Z
      <-> exists r, In r df /\ key_of r = agg_key a
                    /\ MonthlyPanel.post (MonthlyPanel.panel r) = 1%Z).
Proof.
  intros Hb Ha. apply aggregate_to_semester_In in Ha.
  destruct Ha as [r [rest [E [_ [_ [_ [_ [_ Hp]]]]]]]].
  assert (Hin : forall x, In x (r :: rest) -> In x df /\ key_of x = agg_key a).
  { intros x Hx. rewrite <- E in Hx. apply filter_In in Hx.
    split; [tauto|]. apply key_eqb_spec. tauto. }
  destruct (@fold_max_binary (MonthlyPanel.post (MonthlyPanel.panel r))
              (map (fun x => MonthlyPanel.post (MonthlyPanel.panel x)) rest))
    as [H1 H2].
  { intros z Hz.
    change (In z (map (fun x => MonthlyPanel.post (MonthlyPanel.panel x)) (r :: rest)))
      in Hz.
    apply in_map_iff in Hz. destruct Hz as [x [<- Hx]]. apply Hb, Hin, Hx. }
  rewrite Hp. split; [exact H1|]. rewrite H2.
  change (In 1%Z (map (fun x => MonthlyPanel.post (MonthlyPanel.panel x)) (r :: rest))
          <-> exists r0, In r0 df /\ key_of r0 = agg_key a
                         /\ MonthlyPanel.post (MonthlyPanel.panel r0) = 1%Z).
  rewrite in_map_iff. split.
  - intros [x [Ex Hx]]. exists x. destruct (Hin x Hx). auto.
  - intros [x [Hx [Ek Ex]]]. exists x. split; [exact Ex|].
    rewrite <- E. apply filter_In. split; [exact Hx | apply key_eqb_spec; exact Ek].
Qed.

(** X22 — weights survive the aggregation: in the aggregate of a matched
    panel every gene-semester row carries the weight, the stratum and the
    treatment flag of a row of [matched_genes] for its gene; none of the
    three is missing. *)
Theorem semester_rows_carry_gene_weight (panel_df : list MonthlyPanel.timed_row)
        (matched_genes : list Matching.matched_gene) (a : semester_agg) :
  In a (aggregate_to_semester
          (MonthlyPanel.create_matched_panel panel_df matched_genes)) ->
  exists m, In m matched_genes
            /\ MonthlyPanel.m_gene_id m = gene_id a
            /\ cem_weight a = Some (Matching.cem_weight m)
            /\ stratum a = Some (Matching.stratum (Matching.binned m))
            /\ treated a = Some (Matching.m_treated m).
Proof.
  intros Ha. apply aggregate_to_semester_In in Ha.
  destruct Ha as [r [rest [E [_ [Ht [Hw [Hs _]]]]]]].
  assert (Hr : In r (group (MonthlyPanel.create_matched_panel panel_df matched_genes)
                           (agg_key a))) by (rewrite E; left; reflexivity).
  apply filter_In in Hr. destruct Hr as [Hr Ek]. apply key_eqb_spec in Ek.
  apply matched_panel_In in Hr.
  destruct Hr as [t [m [_ [Hm [Eg [Ep [Ew [Es Et]]]]]]]].
  exists m. split; [exact Hm|]. split.
  - rewrite Eg. unfold MonthlyPanel.gene_id. rewrite <- Ep.
    change (fst (key_of r) = fst (agg_key a)). rewrite Ek. reflexivity.
  - rewrite Hw, Hs, Ht. cbn [map first_valid]. rewrite Ew, Es, Et. auto.
Qed.
End SemesterKeys.

(** The matched panel of the worked example. *)
Definition matched_months : list MonthlyPanel.matched_panel_row :=
  MonthlyPanel.create_matched_panel timed_panel one_matched_gene.

Lemma semester_post_flag_witness :
  exists a,
    In a (SemesterPanel.aggregate_to_semester matched_months)
    /\ SemesterPanel.post a = 1%Z
    /\ exists r, In r matched_months
                 /\ SemesterPanel.key_of r = agg_key a
                 /\ MonthlyPanel.post (MonthlyPanel.panel r) = 1%Z.
Proof.
  assert (Hin : exists a, In a (SemesterPanel.aggregate_to_semester matched_months)
                          /\ SemesterPanel.post a = 1%Z).
  { eexists. split; [vm_compute; right; left; reflexivity | reflexivity]. }
  destruct Hin as [a [Ha Hp]]. exists a. split; [exact Ha|]. split; [exact Hp|].
  apply (proj2 (@semester_post_flag matched_months a
                  (fun r Hr =>
                     ltac:(vm_compute in Hr;
                           repeat (destruct Hr as [<-|Hr]; [vm_compute; auto|]);
                           contradiction))
                  Ha)).
  exact Hp.
Defined.

Lemma semester_rows_carry_gene_weight_witness :
  exists a m,
    In a (SemesterPanel.aggregate_to_semester matched_months)
    /\ In m one_matched_gene
    /\ SemesterPanel.cem_weight a = Some (Matching.cem_weight m).
Proof.
  assert (Hin : exists a, In a (SemesterPanel.aggregate_to_semester matched_months)).
  { eexists. vm_compute. left. reflexivity. }
  destruct Hin as [a Ha].
  destruct (@semester_rows_carry_gene_weight timed_panel one_matched_gene a Ha)
    as [m [Hm [_ [Hw _]]]].
  exists a, m. auto.
Defined.

(** ** Missing first differences and event-study variables *)

Section DeltaCounts.
Import Semester.
Variable np_arcsinh : Q -> Q.

Definition is_missing (x : option Q) : bool :=
  match x with None => true | Some _ => false end.

Lemma diff_at_missing (col : sem_row -> Q) (rev_before : list sem_row) (r : sem_row) :
  is_missing (diff_at col rev_before r)
  = negb (existsb (Z.eqb (gene_id r)) (map gene_id rev_before)).
Proof.
  unfold diff_at. induction rev_before as [|p l IH]; [reflexivity|].
  cbn [find map existsb]. rewrite (Z.eqb_sym (gene_id r) (gene_id p)).
  destruct (gene_id p =? gene_id r)%Z; [reflexivity | exact IH].
Qed.

Lemma unique_acc_seen (s1 s2 l : list Z) :
  (forall z, existsb (Z.eqb z) s1 = existsb (Z.eqb z) s2) ->
  unique_acc Z.eqb s1 l = unique_acc Z.eqb s2 l.
Proof.
  revert s1 s2. induction l as [|x l IH]; intros s1 s2 H; [reflexivity|].
  cbn [unique_acc]. rewrite (H x). destruct (existsb (Z.eqb x) s2).
  - apply IH, H.
  - f_equal. apply IH. intros z. cbn [existsb]. rewrite (H z). reflexivity.
Qed.

Lemma add_deltas_missing (pick : delta_row -> option Q) (col : sem_row -> Q)
      (df rev_before : list sem_row) :
  (forall rb r, In r df ->
     pick {| row := r;
             asinh := fun y => asinh_col np_arcsinh y r;
             D := fun y => diff_at (fun x => level x y) rb r;
             D_asinh := fun y => diff_at (asinh_col np_arcsinh y) rb r |}
     = diff_at col rb r) ->
  length (filter (fun r => is_missing (pick r)) (add_deltas np_arcsinh rev_before df))
  = length (unique_acc Z.eqb (map gene_id rev_before) (map gene_id df)).
Proof.
  revert rev_before. induction df as [|r df IH]; intros rb Hp; [reflexivity|].
  cbn [add_deltas filter map unique_acc].
  rewrite (Hp rb r (or_introl eq_refl)), diff_at_missing.
  destruct (existsb (Z.eqb (gene_id r)) (map gene_id rb)) eqn:E; cbn [negb length].
  - rewrite (IH (r :: rb)) by (intros; apply Hp; right; assumption).
    f_equal. apply unique_acc_seen. intros z. cbn [map existsb].
    destruct (Z.eqb_spec z (gene_id r)) as [->|]; [rewrite E|]; reflexivity.
  - f_equal. apply (IH (r :: rb)). intros; apply Hp; right; assumption.
Qed.

Lemma unique_length_perm (l l' : list Z) :
  Permutation l l' -> length (unique Z.eqb l) = length (unique Z.eqb l').
Proof.
  intros H. apply Permutation_length. apply NoDup_Permutation.
  - apply (unique_NoDup Zeqb_spec').
  - apply (unique_NoDup Zeqb_spec').
  - intros x. rewrite !(unique_In Zeqb_spec'). split; apply Permutation_in;
      [exact H | symmetry; exact H].
Qed.

(** X23 — what differencing costs: in the output of
    [create_delta_variables], for every outcome, the first difference and
    the first difference of the asinh are missing on as many rows as the
    panel has genes, one per gene, and the frame keeps its number of
    rows. *)
Theorem delta_missing_count (df : list sem_row) (y : outcome) :
  length (create_delta_variables np_arcsinh df) = length df
  /\ length (filter (fun r => is_missing (D r y))
                    (create_delta_variables np_arcsinh df))
     = length (unique Z.eqb (map gene_id df))
  /\ length (filter (fun r => is_missing (D_asinh r y))
                    (create_delta_variables np_arcsinh df))
     = length (unique Z.eqb (map gene_id df)).
Proof.
  unfold create_delta_variables.
  assert (Hperm : Permutation (map gene_id (sort_by gene_semester_leb df))
                              (map gene_id df)).
  { apply Permutation_map, sort_by_perm. }
  split; [|split].
  - transitivity (length (map row (add_deltas np_arcsinh []
                                     (sort_by gene_semester_leb df)))).
    + rewrite length_map. reflexivity.
    + assert (E : forall l rb, map row (add_deltas np_arcsinh rb l) = l).
      { induction l as [|r l IH]; intros rb; [reflexivity|].
        cbn [add_deltas map row]. rewrite IH. reflexivity. }
      rewrite E. apply sort_by_length.
  - rewrite (add_deltas_missing (fun r => D r y) (fun x => level x y)).
    + apply (unique_length_perm Hperm).
    + intros; reflexivity.
  - rewrite (add_deltas_missing (fun r => D_asinh r y) (asinh_col np_arcsinh y)).
    + apply (unique_length_perm Hperm).
    + intros; reflexivity.
Qed.
End DeltaCounts.

Section EventStudyVariables.
Import SemesterPanel.

Definition rel_of (e : event_row) : Z := Semester.rel_semester (Semester.row (base e)).

Lemma create_event_study_variables_eq (df : list Semester.delta_row) :
  match MonthlyPanel.series_min (map (fun r => Semester.rel_semester (Semester.row r)) df) with
  | None => df = [] /\ create_event_study_variables df = []
  | Some m =>
      In m (map (fun r => Semester.rel_semester (Semester.row r)) df)
      /\ (forall r, In r df -> (m <= Semester.rel_semester (Semester.row r))%Z)
      /\ create_event_study_variables df
         = map (fun r => {| base := r;
                            rel_sem_fv := (Semester.rel_semester (Semester.row r) - m)%Z;
                            t_sem := inject_Z (Semester.rel_semester (Semester.row r));
                            pre := if (Semester.rel_semester (Semester.row r) <? 0)%Z
                                   then 1%Z else 0%Z |}) df
  end.
Proof.
  unfold create_event_study_variables.
  destruct (MonthlyPanel.series_min (map (fun r => Semester.rel_semester (Semester.row r)) df))
    as [m|] eqn:E.
  - apply series_min_spec in E. destruct E as [E1 E2].
    split; [exact E1|]. split; [|reflexivity].
    intros r Hr. apply E2. apply (in_map (fun r => Semester.rel_semester (Semester.row r))). exact Hr.
  - split; [|reflexivity]. destruct df; [reflexivity | discriminate].
Qed.

(** X24 — the factor-variable time index: [create_event_study_variables]
    keeps the rows in order; [rel_sem_fv] is never negative, is 0 on the
    rows of the earliest relative semester and orders the rows as
    [Semester.rel_semester] does; [pre] is 1 exactly on the rows of a negative
    relative semester. *)
Theorem event_study_variables (df : list Semester.delta_row) (e : event_row) :
  In e (create_event_study_variables df) ->
  map base (create_event_study_variables df) = df
  /\ (exists e0, In e0 (create_event_study_variables df) /\ rel_sem_fv e0 = 0%Z)
  /\ (0 <= rel_sem_fv e)%Z
  /\ (forall e', In e' (create_event_study_variables df) ->
        (rel_sem_fv e <= rel_sem_fv e')%Z <-> (rel_of e <= rel_of e')%Z)
  /\ t_sem e = inject_Z (rel_of e)
  /\ (pre e = 1%Z /\ (rel_of e < 0)%Z \/ pre e = 0%Z /\ (0 <= rel_of e)%Z).
Proof.
  pose proof (create_event_study_variables_eq df) as H.
  destruct (MonthlyPanel.series_min (map (fun r => Semester.rel_semester (Semester.row r)) df))
    as [m|]; [|destruct H as [_ ->]; contradiction].
  destruct H as [Hm [Hle ->]]. intros He.
  apply in_map_iff in He. destruct He as [r [<- Hr]].
  unfold rel_of. cbn [base rel_sem_fv t_sem pre].
  split; [rewrite map_map; apply map_id|]. split; [|split; [|split; [|split]]].
  - apply in_map_iff in Hm. destruct Hm as [r0 [E0 Hr0]].
    eexists. split; [apply in_map; exact Hr0|]. cbn [rel_sem_fv]. lia.
  - specialize (Hle r Hr). lia.
  - intros e' He'. apply in_map_iff in He'. destruct He' as [r' [<- _]].
    cbn [base rel_sem_fv]. lia.
  - reflexivity.
  - destruct (Z.ltb_spec (Semester.rel_semester (Semester.row r)) 0); [left | right]; split;
      try reflexivity; assumption.
Qed.
End EventStudyVariables.

Lemma event_study_variables_witness :
  exists e,
    In e (SemesterPanel.create_event_study_variables two_period_panel)
    /\ (0 <= SemesterPanel.rel_sem_fv e)%Z.
Proof.
  assert (Hin : exists e, In e (SemesterPanel.create_event_study_variables
                                  two_period_panel)).
  { eexists. vm_compute. left. reflexivity. }
  destruct Hin as [e He]. exists e. split; [exact He|].
  exact (proj1 (proj2 (proj2 (@event_study_variables two_period_panel e He)))).
Defined.

(** * The master pipeline *)

Section PipelineFacts.
Import Pipeline.
Variable world : Type.
Variable module_main : Z -> world -> py unit * world.

(** The steps a full run attempts: all, or all but step 4 under
    [--skip-doi]. *)
Definition applicable (a : args) (todo : list Z) : list Z :=
  filter (fun s => negb (skip_doi a && (s =? 4)%Z)) todo.

(** State left by running the given steps in order. *)
Definition after (ss : list Z) (w : world) : world :=
  fold_left (fun w s => snd (run_step module_main s w)) ss w.

(** Every step of the list succeeds when run in order from [w]. *)
Fixpoint all_succeed (ss : list Z) (w : world) : Prop :=
  match ss with
  | [] => True
  | s :: ss' =>
      fst (run_step module_main s w) = true
      /\ all_succeed ss' (snd (run_step module_main s w))
  end.

Definition succeeded (ss : list Z) : list (Z * bool) := map (fun s => (s, true)) ss.

Lemma run_steps_full (a : args) (todo : list Z) (results : list (Z * bool))
      (w : world) :
  truthy (step a) = false ->
  exists done rest,
    applicable a todo = done ++ rest
    /\ all_succeed done w
    /\ (rest = []
        /\ run_steps module_main a todo results w
           = (results ++ succeeded done, after done w)
        \/ exists s rest',
             rest = s :: rest'
             /\ fst (run_step module_main s (after done w)) = false
             /\ run_steps module_main a todo results w
                = (results ++ succeeded done ++ [(s, false)],
                   snd (run_step module_main s (after done w)))).
Proof.
  intros Hf. revert results w. induction todo as [|s todo IH]; intros results w.
  - exists [], []. cbn. split; [reflexivity|]. split; [exact I|]. left.
    rewrite app_nil_r. auto.
  - cbn [run_steps applicable filter]. rewrite Hf. cbn [andb negb].
    destruct (skip_doi a && (s =? 4)%Z) eqn:Es; cbn [negb].
    + exact (IH results w).
    + destruct (run_step module_main s w) as [ok w'] eqn:Er. destruct ok; cbn [negb andb].
      * destruct (IH (results ++ [(s, true)]) w') as [done [rest [E [Hall H]]]].
        exists (s :: done), rest. fold (applicable a todo). rewrite E.
        split; [reflexivity|]. split; [cbn; rewrite Er; cbn; auto|].
        unfold after. cbn [fold_left]. rewrite Er. cbn [snd]. fold (after done w').
        destruct H as [[-> H]|[s' [rest' [-> [Hs' H]]]]]; [left | right].
        -- split; [reflexivity|]. rewrite H, <- app_assoc. reflexivity.
        -- exists s', rest'. split; [reflexivity|]. split; [exact Hs'|].
           rewrite H, <- app_assoc. reflexivity.
      * exists [], (s :: applicable a todo). split; [reflexivity|].
        split; [exact I|]. right. exists s, (applicable a todo).
        split; [reflexivity|]. cbn. rewrite Er. auto.
Qed.

(** X25 — a full run stops at the first failure: without [--step] (or with
    [--step 0], which Python reads as false) the steps are attempted in
    order, step 4 left out under [--skip-doi]; every step before the first
    failing one is reported as a success, the failing one as a failure,
    and no later step is run or reported. *)
Theorem full_run_stops_at_first_failure (a : args) (w : world) :
  truthy (step a) = false ->
  exists done rest,
    applicable a steps = done ++ rest
    /\ all_succeed done w
    /\ (rest = []
        /\ main module_main a w = (succeeded done, after done w)
        \/ exists s rest',
             rest = s :: rest'
             /\ fst (run_step module_main s (after done w)) = false
             /\ main module_main a w
                = (succeeded done ++ [(s, false)],
                   snd (run_step module_main s (after done w)))).
Proof.
  intros Hf. exact (run_steps_full a steps [] w Hf).
Qed.

(** X26 — [--step k] runs one step: with a step number other than 0, only
    that step is run and reported, whether it fails or not; nothing is
    run for a number outside 1..4, nor for step 4 under [--skip-doi]. *)
Theorem single_step_run (a : args) (k : Z) (w : world) :
  step a = Some k -> k <> 0%Z ->
  main module_main a w
  = if existsb (Z.eqb k) steps && negb (skip_doi a && (k =? 4)%Z)
    then ([(k, fst (run_step module_main k w))], snd (run_step module_main k w))
    else ([], w).
Proof.
  intros Hs Hk. unfold main, steps. cbn [run_steps existsb].
  rewrite Hs. cbn [truthy differs]. apply Z.eqb_neq in Hk. rewrite Hk. cbn [negb andb].
  destruct (Z.eqb_spec k 1) as [->|H1]; cbn [negb orb andb Z.eqb Pos.eqb].
  { rewrite andb_false_r. cbn [negb].
    destruct (run_step module_main 1 w) as [ok w']. rewrite andb_false_r. reflexivity. }
  destruct (Z.eqb_spec k 2) as [->|H2]; cbn [negb orb andb Z.eqb Pos.eqb].
  { rewrite andb_false_r. cbn [negb].
    destruct (run_step module_main 2 w) as [ok w']. rewrite andb_false_r. reflexivity. }
  destruct (Z.eqb_spec k 3) as [->|H3]; cbn [negb orb andb Z.eqb Pos.eqb].
  { rewrite andb_false_r. cbn [negb].
    destruct (run_step module_main 3 w) as [ok w']. rewrite andb_false_r. reflexivity. }
  destruct (Z.eqb_spec k 4) as [->|H4]; cbn [negb orb andb Z.eqb Pos.eqb].
  { rewrite andb_true_r. destruct (skip_doi a); cbn [negb]; [reflexivity|].
    destruct (run_step module_main 4 w) as [ok w']. rewrite andb_false_r. reflexivity. }
  reflexivity.
Qed.
End PipelineFacts.

(** A run in which step 2 raises; the state is the list of the steps
    started. *)
Definition failing_step_two (s : Z) (w : list Z) : py unit * list Z :=
  (if (s =? 2)%Z then Raise LibraryError else Ret tt, w ++ [s]).

Lemma full_run_stops_at_first_failure_witness :
  Pipeline.main failing_step_two
    {| Pipeline.step := None; Pipeline.skip_doi := false |} []
  = ([(1%Z, true); (2%Z, false)], [1; 2]%Z)
  /\ exists done rest,
       applicable {| Pipeline.step := None; Pipeline.skip_doi := false |} Pipeline.steps
       = done ++ rest
       /\ all_succeed failing_step_two done [].
Proof.
  split; [reflexivity|].
  destruct (@full_run_stops_at_first_failure (list Z) failing_step_two
              {| Pipeline.step := None; Pipeline.skip_doi := false |} [] eq_refl)
    as [done [rest [E [H _]]]].
  exists done, rest. auto.
Defined.

Lemma single_step_run_witness :
  Pipeline.main failing_step_two
    {| Pipeline.step := Some 2%Z; Pipeline.skip_doi := false |} []
  = ([(2%Z, false)], [2%Z]).
Proof.
  apply (@single_step_run (list Z) failing_step_two
           {| Pipeline.step := Some 2%Z; Pipeline.skip_doi := false |} 2 []).
  - reflexivity.
  - discriminate.
Defined.

(** * DOI integration *)

Section DoiTime.
Import Dois.

Lemma Qfloor_sixth (n : Z) : Qfloor (inject_Z n / 6) = (n / 6)%Z.
Proof.
  unfold Qdiv, Qmult, Qinv, inject_Z. cbn [Qnum Qden Qfloor].
  rewrite Z.mul_1_r. reflexivity.
Qed.

Lemma doi_time_variables_In (df : list doi_row) (t : timed_doi) :
  In t (create_time_variables df) ->
  exists y m,
    In (record t) df /\ year (record t) = Some y /\ month (record t) = Some m
    /\ ym t = (y - 1960) * 12 + (m - 1)
    /\ semester t = Qfloor ((ym t - inject_Z 720 + 1 - 1) / 6)
    /\ rel_semester t = (semester t - 3)%Z.
Proof.
  unfold create_time_variables. intros H. apply in_flat_map in H.
  destruct H as [r [Hr H]].
  destruct (year r) as [y|] eqn:Ey; [|contradiction].
  destruct (month r) as [m|] eqn:Em; [|contradiction].
  destruct H as [<-|[]]. cbn [record ym semester rel_semester].
  exists y, m. repeat split; try assumption; reflexivity.
Qed.

Lemma doi_semester_closed (df : list doi_row) (t : timed_doi)
      (qy qm : Q) (y m : Z) :
  In t (create_time_variables df) ->
  year (record t) = Some qy -> qy == inject_Z y ->
  month (record t) = Some qm -> qm == inject_Z m ->
  semester t = (2 * (y - 2020) + (m - 1) / 6)%Z
  /\ rel_semester t = (semester t - 3)%Z.
Proof.
  intros Ht Hy Ey Hm Em. apply doi_time_variables_In in Ht.
  destruct Ht as [y' [m' [_ [Hy' [Hm' [Eym [Es Er]]]]]]].
  rewrite Hy in Hy'. injection Hy' as <-. rewrite Hm in Hm'. injection Hm' as <-.
  split; [|exact Er].
  assert (E : semester t = ((12 * (y - 2020) + (m - 1)) / 6)%Z).
  { rewrite Es, <- Qfloor_sixth. apply Qfloor_comp. rewrite Eym, Ey, Em.
    unfold Z.sub.
    repeat (rewrite inject_Z_plus || rewrite inject_Z_mult || rewrite inject_Z_opp).
    unfold inject_Z. field. }
  rewrite E. replace (12 * (y - 2020) + (m - 1))%Z
    with ((2 * (y - 2020)) * 6 + (m - 1))%Z by ring.
  rewrite Z.div_add_l by discriminate. reflexivity.
Qed.

(** X27 — calendar reading of the DOI semesters: for a record with a whole
    year [y] and month [m], the semester index counts half-years from
    January 2020, [2 * (y - 2020) + (m - 1) // 6], and the relative
    semester is 3 less; it is non-negative exactly from July 2021 on; for
    the years 2020 to 2023 and months 1 to 12 the semester lies in 0..7. *)
Theorem doi_semester_calendar (df : list doi_row) (t : timed_doi)
        (qy qm : Q) (y m : Z) :
  In t (create_time_variables df) ->
  year (record t) = Some qy -> qy == inject_Z y ->
  month (record t) = Some qm -> qm == inject_Z m ->
  semester t = (2 * (y - 2020) + (m - 1) / 6)%Z
  /\ rel_semester t = (semester t - 3)%Z
  /\ ((0 <= rel_semester t)%Z <-> (TREATMENT_YM <= (y - 1960) * 12 + (m - 1))%Z)
  /\ ((2020 <= y <= 2023)%Z -> (1 <= m <= 12)%Z -> (0 <= semester t <= 7)%Z).
Proof.
  intros Ht Hy Ey Hm Em.
  destruct (@doi_semester_closed df t qy qm y m Ht Hy Ey Hm Em) as [E2 Er].
  split; [exact E2|]. split; [exact Er|]. unfold TREATMENT_YM. split.
  - rewrite Er, E2. Z.to_euclidean_division_equations. lia.
  - intros Hyr Hmo. rewrite E2. Z.to_euclidean_division_equations. lia.
Qed.

(** X28 — the two scripts agree on event time: when the first month of the
    panel is a whole number of semesters away from January 2020 (month
    720), a DOI record and a panel row of the same calendar month get the
    same relative semester; their semester indices differ by that number
    of semesters. *)
Theorem doi_and_panel_event_time (panel_df : list MonthlyPanel.raw_row)
        (p : MonthlyPanel.timed_row) (df : list doi_row) (t : timed_doi)
        (qy qm : Q) (y m ym_min : Z) :
  In p (fst (MonthlyPanel.create_time_variables panel_df)) ->
  MonthlyPanel.series_min (map MonthlyPanel.ym panel_df) = Some ym_min ->
  ((ym_min - 720) mod 6 = 0)%Z ->
  In t (create_time_variables df) ->
  year (record t) = Some qy -> qy == inject_Z y ->
  month (record t) = Some qm -> qm == inject_Z m ->
  MonthlyPanel.ym (MonthlyPanel.raw (MonthlyPanel.cols p))
  = ((y - 1960) * 12 + (m - 1))%Z ->
  rel_semester t = MonthlyPanel.rel_semester (MonthlyPanel.cols p)
  /\ semester t
     = (MonthlyPanel.semester (MonthlyPanel.cols p) + (ym_min - 720) / 6)%Z.
Proof.
  intros Hp Hmin Hal Ht Hy Ey Hm Em Hym.
  destruct (@doi_semester_closed df t qy qm y m Ht Hy Ey Hm Em) as [Es Er].
  apply create_time_variables_In in Hp.
  destruct Hp as [m0 [r [Em0 [_ [-> _]]]]].
  rewrite Hmin in Em0. injection Em0 as <-.
  cbn [timed MonthlyPanel.cols MonthlyPanel.rel_semester MonthlyPanel.semester
       MonthlyPanel.raw] in *.
  rewrite Er, Es, Hym. unfold MonthlyPanel.TREATMENT_YM.
  split; Z.to_euclidean_division_equations; lia.
Qed.
End DoiTime.

Section DoiExport.
Import Dois.

Lemma doi_eqb_spec (a b : option String.string) : doi_eqb a b = true <-> a = b.
Proof.
  destruct a as [x|], b as [y|]; cbn [doi_eqb].
  - rewrite String.eqb_eq. split; [intros ->; reflexivity | intros H; injection H; auto].
  - split; discriminate.
  - split; discriminate.
  - tauto.
Qed.

(** The first record of the crosswalk that carries a given DOI. *)
Definition first_record (df : list doi_row) (d : option String.string)
  : option doi_row :=
  find (fun x => doi_eqb (doi x) d) df.

Lemma drop_duplicates_In (seen : list (option String.string)) (df : list doi_row)
      (r : doi_row) :
  In r (drop_duplicates seen df)
  <-> ~ In (doi r) seen /\ first_record df (doi r) = Some r.
Proof.
  unfold first_record. revert seen. induction df as [|x df IH]; intros seen.
  - cbn. split; [tauto | intros [_ H]; discriminate].
  - cbn [drop_duplicates find].
    destruct (existsb (doi_eqb (doi x)) seen) eqn:E.
    + apply (existsb_eqb_In doi_eqb_spec) in E. rewrite IH.
      destruct (doi_eqb (doi x) (doi r)) eqn:Ex; [|tauto].
      apply doi_eqb_spec in Ex. rewrite <- Ex. split; [tauto|].
      intros [Hn _]. contradiction.
    + assert (Hx : ~ In (doi x) seen).
      { intros H. apply (existsb_eqb_In doi_eqb_spec) in H. congruence. }
      cbn [In]. rewrite IH. cbn [In].
      destruct (doi_eqb (doi x) (doi r)) eqn:Ex.
      * apply doi_eqb_spec in Ex. split.
        -- intros [->|[Hn _]]; [split; [exact Hx | reflexivity]|].
           exfalso. apply Hn. left. exact Ex.
        -- intros [_ H]. injection H as ->. left. reflexivity.
      * assert (Hne : doi x <> doi r).
        { intros H. apply doi_eqb_spec in H. congruence. }
        split.
        -- intros [->|[Hn H]]; [congruence|]. split; [tauto | exact H].
        -- intros [Hn H]. right. split; [|exact H]. intros [H1|H1]; auto.
Qed.

Lemma drop_duplicates_NoDup (seen : list (option String.string)) (df : list doi_row) :
  NoDup (map doi (drop_duplicates seen df)).
Proof.
  revert seen. induction df as [|x df IH]; intros seen; [constructor|].
  cbn [drop_duplicates]. destruct (existsb (doi_eqb (doi x)) seen); [apply IH|].
  cbn [map]. constructor; [|apply IH].
  intros H. apply in_map_iff in H. destruct H as [r [E Hr]].
  apply drop_duplicates_In in Hr. destruct Hr as [Hn _]. apply Hn. left.
  symmetry. exact E.
Qed.

Lemma drop_duplicates_subsequence (seen : list (option String.string))
      (df : list doi_row) :
  subsequence (drop_duplicates seen df) df.
Proof.
  revert seen. induction df as [|x df IH]; intros seen; [constructor|].
  cbn [drop_duplicates]. destruct (existsb (doi_eqb (doi x)) seen);
    constructor; apply IH.
Qed.

Lemma subsequence_trans (A : Type) (l1 l2 l3 : list A) :
  subsequence l1 l2 -> subsequence l2 l3 -> subsequence l1 l3.
Proof.
  intros H12 H23. revert l1 H12.
  induction H23 as [|x l2 l3 _ IH|x l2 l3 _ IH]; intros l1 H12.
  - exact H12.
  - constructor. apply IH. exact H12.
  - inversion H12; subst; constructor; apply IH; assumption.
Qed.

(** X29 — the export keeps first records only: the exported frame has one
    row per DOI, in the order of the crosswalk, and a row is exported
    exactly when it is the first record of its DOI and its year lies in
    2020..2023.  The duplicates are dropped before the years are
    filtered, so a DOI whose first record lies outside the period is not
    exported even when a later record of it lies inside. *)
Theorem export_keeps_first_records (df : list doi_row) :
  NoDup (map doi (export_dois_for_shi_evans df))
  /\ subsequence (export_dois_for_shi_evans df) df
  /\ forall r, In r (export_dois_for_shi_evans df)
               <-> first_record df (doi r) = Some r /\ in_analysis_period r = true.
Proof.
  unfold export_dois_for_shi_evans. split; [|split].
  - apply (@subsequence_NoDup _ _ (map doi (drop_duplicates [] df))).
    + apply subsequence_map, subsequence_filter.
    + apply drop_duplicates_NoDup.
  - apply (@subsequence_trans _ _ (drop_duplicates [] df)).
    + apply subsequence_filter.
    + apply drop_duplicates_subsequence.
  - intros r. rewrite filter_In, drop_duplicates_In. cbn [In]. tauto.
Qed.
End DoiExport.

Section DoiAggregate.
Import Dois.

Lemma doi_key_eqb_spec (a b : key) : key_eqb a b = true <-> a = b.
Proof.
  unfold key_eqb. destruct a as [a1 [a2 a3]], b as [b1 [b2 b3]]. cbn [fst snd].
  rewrite !andb_true_iff, !Z.eqb_eq. split.
  - intros [[-> ->] ->]. reflexivity.
  - intros H; injection H; auto.
Qed.

Definition keyed (t : timed_doi) : bool :=
  match key_of t with Some _ => true | None => false end.

Lemma list_sum_step (x : nat) (l : list nat) : list_sum (x :: l) = (x + list_sum l)%nat.
Proof. reflexivity. Qed.

Lemma list_sum_indicator (k : key) (f : key -> nat) (keys : list key) :
  NoDup keys -> In k keys ->
  list_sum (map (fun k' => ((if key_eqb k k' then 1 else 0) + f k')%nat) keys)
  = S (list_sum (map f keys)).
Proof.
  induction 1 as [|s keys Hs Hnd IH]; [contradiction|].
  cbn [map]. rewrite !list_sum_step. intros [->|Hin].
  - rewrite (proj2 (doi_key_eqb_spec k k) eq_refl).
    assert (E : list_sum (map (fun k' => ((if key_eqb k k' then 1 else 0) + f k')%nat) keys)
                = list_sum (map f keys)).
    { f_equal. apply map_ext_in. intros k' Hk'.
      destruct (key_eqb k k') eqn:E; [|reflexivity].
      apply doi_key_eqb_spec in E. subst. contradiction. }
    rewrite E. reflexivity.
  - destruct (key_eqb k s) eqn:E.
    + apply doi_key_eqb_spec in E. subst. contradiction.
    + rewrite (IH Hin). lia.
Qed.

Lemma length_by_group (keys : list key) (l : list timed_doi) :
  NoDup keys ->
  (forall t k, In t l -> key_of t = Some k -> In k keys) ->
  list_sum (map (fun k => length (filter (has_key k) l)) keys)
  = length (filter keyed l).
Proof.
  intros Hnd. induction l as [|t l IH]; intros Hin.
  - clear. induction keys as [|k keys IHk]; [reflexivity|].
    cbn [map filter length]. rewrite list_sum_step. exact IHk.
  - cbn [filter]. unfold keyed at 1, has_key.
    destruct (key_of t) as [k|] eqn:Ek.
    + cbn [length]. rewrite <- IH by (intros; eapply Hin; [right|]; eassumption).
      rewrite <- (list_sum_indicator k (fun k' => length (filter (has_key k') l)) Hnd
                    (Hin t k (or_introl eq_refl) Ek)).
      f_equal. apply map_ext. intros k'. fold (has_key k').
      destruct (key_eqb k k'); reflexivity.
    + rewrite <- IH by (intros; eapply Hin; [right|]; eassumption).
      f_equal.
Qed.

Lemma doi_group_keys_In (df : list timed_doi) (k : key) :
  In k (group_keys df) <-> exists t, In t df /\ key_of t = Some k.
Proof.
  unfold group_keys. rewrite sort_by_In, (unique_In doi_key_eqb_spec), in_flat_map.
  split.
  - intros [t [Ht H]]. exists t. split; [exact Ht|].
    destruct (key_of t); [destruct H as [->|[]]; reflexivity | contradiction].
  - intros [t [Ht E]]. exists t. split; [exact Ht|]. rewrite E. left. reflexivity.
Qed.

(** The records that reach a gene-semester list: year in the period,
    month and gene present. *)
Definition grouped (r : doi_row) : bool :=
  in_analysis_period r
  && match month r with Some _ => true | None => false end
  && match gene_id r with Some _ => true | None => false end.

Lemma keyed_records (df : list doi_row) :
  length (filter keyed (create_time_variables (filter in_analysis_period df)))
  = length (filter grouped df).
Proof.
  induction df as [|r df IH]; [reflexivity|].
  cbn [filter]. unfold grouped at 1.
  destruct (in_analysis_period r) eqn:Ep; cbn [andb]; [|exact IH].
  unfold create_time_variables in *. cbn [flat_map].
  unfold in_analysis_period in Ep.
  destruct (year r) as [y|] eqn:Ey; [|discriminate].
  destruct (month r) as [m|] eqn:Em; cbn [app]; [|exact IH].
  cbn [filter]. unfold keyed at 1, key_of. cbn [record].
  destruct (gene_id r); cbn [length]; rewrite IH; reflexivity.
Qed.

Definition doi_agg_key (a : doi_agg) : key :=
  (a_gene_id a, (a_semester a, a_rel_semester a)).

(** X30 — every record lands in one list: the aggregate has one row per
    (gene, semester) of the records of 2020..2023 that have a month and a
    gene; the lengths of its DOI lists add up to the number of these
    records; no list is empty; [n_papers_doi] counts the records of the
    list whose [pmid] is not missing, and the relative semester is the
    semester minus 3. *)
Theorem doi_aggregate_counts (df : list doi_row) :
  NoDup (map doi_agg_key (aggregate_dois_by_gene_semester df))
  /\ list_sum (map (fun a => length (dois a)) (aggregate_dois_by_gene_semester df))
     = length (filter grouped df)
  /\ forall a, In a (aggregate_dois_by_gene_semester df) ->
       dois a <> []
       /\ (n_papers_doi a <= length (dois a))%nat
       /\ a_rel_semester a = (a_semester a - 3)%Z.
Proof.
  unfold aggregate_dois_by_gene_semester.
  set (tdf := create_time_variables (filter in_analysis_period df)).
  split; [|split].
  - rewrite map_map. unfold doi_agg_key. cbn [a_gene_id a_semester a_rel_semester].
    rewrite (map_ext _ (fun k => k)) by (intros [k1 [k2 k3]]; reflexivity).
    rewrite map_id. apply sort_by_NoDup, (unique_NoDup doi_key_eqb_spec).
  - rewrite map_map. cbn [dois].
    rewrite (map_ext _ (fun k => length (filter (has_key k) tdf)))
      by (intros; apply length_map).
    rewrite length_by_group.
    + apply keyed_records.
    + apply sort_by_NoDup, (unique_NoDup doi_key_eqb_spec).
    + intros t k Ht Ek. apply doi_group_keys_In. exists t. auto.
  - intros a Ha. apply in_map_iff in Ha. destruct Ha as [k [<- Hk]].
    cbn [dois n_papers_doi a_rel_semester a_semester].
    apply doi_group_keys_In in Hk. destruct Hk as [t [Ht Ek]].
    split; [|split].
    + assert (Hin : In t (filter (has_key k) tdf)).
      { apply filter_In. split; [exact Ht|]. unfold has_key. rewrite Ek.
        apply doi_key_eqb_spec. reflexivity. }
      intros E. apply (f_equal (@length _)) in E. rewrite length_map in E.
      destruct (filter (has_key k) tdf); [contradiction | discriminate].
    + unfold count_valid. rewrite length_map.
      rewrite <- (length_map (fun t => pmid (record t)) (filter (has_key k) tdf)).
      apply filter_length_le.
    + unfold key_of in Ek. destruct (gene_id (record t)); [|discriminate].
      injection Ek as <-. cbn [fst snd].
      apply doi_time_variables_In in Ht.
      destruct Ht as [y [m [_ [_ [_ [_ [_ Er]]]]]]]. exact Er.
Qed.
End DoiAggregate.

(** Crosswalk records for the worked examples. *)
Definition doi_name (n : nat) : String.string :=
  String.String (Ascii.ascii_of_nat n) String.EmptyString.

Definition doi_record (d : nat) (g y m : Z) : Dois.doi_row :=
  {| Dois.doi := Some (doi_name d); Dois.pmid := Some (Z.of_nat d);
     Dois.year := Some (inject_Z y); Dois.month := Some (inject_Z m);
     Dois.gene_id := Some g |}.

(** DOI 97 is recorded for genes 1 and 2 in July 2021; DOI 98 first in
    2019 and again in 2021. *)
Definition crosswalk : list Dois.doi_row :=
  [doi_record 97 1 2021 7; doi_record 97 2 2021 7;
   doi_record 98 1 2019 3; doi_record 98 1 2021 12].

Lemma doi_semester_calendar_witness :
  exists t,
    In t (Dois.create_time_variables crosswalk)
    /\ Dois.semester t = 3%Z /\ Dois.rel_semester t = 0%Z.
Proof.
  assert (Hin : exists t, In t (Dois.create_time_variables crosswalk)
                          /\ Dois.record t = doi_record 97 1 2021 7).
  { eexists. split; [left; reflexivity | reflexivity]. }
  destruct Hin as [t [Ht Hr]].
  destruct (@doi_semester_calendar crosswalk t (inject_Z 2021) (inject_Z 7) 2021 7 Ht)
    as [Es [Er _]].
  - rewrite Hr. reflexivity.
  - reflexivity.
  - rewrite Hr. reflexivity.
  - reflexivity.
  - exists t. split; [exact Ht|]. rewrite Er, Es. split; reflexivity.
Defined.

Lemma doi_and_panel_event_time_witness :
  exists p t,
    In p (fst (MonthlyPanel.create_time_variables raw_panel))
    /\ In t (Dois.create_time_variables crosswalk)
    /\ Dois.rel_semester t = MonthlyPanel.rel_semester (MonthlyPanel.cols p).
Proof.
  assert (Hp : In (timed 732 (raw_month 1 738 0 5))
                  (fst (MonthlyPanel.create_time_variables raw_panel))).
  { vm_compute. tauto. }
  assert (Hin : exists t, In t (Dois.create_time_variables crosswalk)
                          /\ Dois.record t = doi_record 97 1 2021 7).
  { eexists. split; [left; reflexivity | reflexivity]. }
  destruct Hin as [t [Ht Hr]].
  exists (timed 732 (raw_month 1 738 0 5)), t.
  split; [exact Hp|]. split; [exact Ht|].
  refine (proj1 (@doi_and_panel_event_time raw_panel _ crosswalk t
                   (inject_Z 2021) (inject_Z 7) 2021 7 732 Hp _ _ Ht _ _ _ _ _)).
  - reflexivity.
  - reflexivity.
  - rewrite Hr. reflexivity.
  - reflexivity.
  - rewrite Hr. reflexivity.
  - reflexivity.
  - reflexivity.
Defined.

(** DOI 98 has a record in 2021 and is not exported: its first record is
    of 2019. *)
Example export_drops_before_filtering :
  map Dois.doi (Dois.export_dois_for_shi_evans crosswalk) = [Some (doi_name 97)]
  /\ In (doi_record 98 1 2021 12) crosswalk
  /\ Dois.in_analysis_period (doi_record 98 1 2021 12) = true.
Proof. split; [reflexivity|]. split; [simpl; tauto | reflexivity]. Qed.

(** * Bin codes and stratum keys *)

Section StratumCodes.
Import Binning Matching.

Lemma unique_acc_length_le (A : Type) (eqb : A -> A -> bool) (seen l : list A) :
  (length (unique_acc eqb seen l) <= length l)%nat.
Proof.
  revert seen. induction l as [|x l IH]; intros seen; [apply le_n|].
  cbn [unique_acc]. destruct (existsb (eqb x) seen); cbn [length].
  - specialize (IH seen). lia.
  - specialize (IH (x :: seen)). lia.
Qed.

(** The boundaries the quantile binning of a column ends up with. *)
Definition qcut_bins (x : list Q) (n_bins : nat) : list Q :=
  if (length (unique Qeq_bool (quantile_edges x n_bins))
      <? length (quantile_edges x n_bins))%nat
     && negb (length (quantile_edges x n_bins) =? 2)%nat
  then unique Qeq_bool (quantile_edges x n_bins)
  else quantile_edges x n_bins.

Lemma coarsen_codes (x : list Q) (n_bins : nat) :
  coarsen x n_bins = Ret (map fill_code (bins_to_codes true (qcut_bins x n_bins) x)).
Proof. apply coarsen_qcut, qcut_drop_ret. Qed.

Lemma qcut_bins_length (x : list Q) (n_bins : nat) :
  (length (qcut_bins x n_bins) <= S n_bins)%nat.
Proof.
  unfold qcut_bins. destruct (_ && _).
  - rewrite <- (quantile_edges_length x n_bins). apply unique_acc_length_le.
  - rewrite quantile_edges_length. apply le_n.
Qed.

Definition code_in_range (n_bins : nat) (c : Z) : Prop :=
  (0 <= c <= Z.max 0 (Z.of_nat n_bins - 1))%Z.

Lemma coarsen_range (x : list Q) (n_bins : nat) (col : list Z) :
  coarsen x n_bins = Ret col ->
  length col = length x /\ Forall (code_in_range n_bins) col.
Proof.
  rewrite coarsen_codes. intros H; injection H as <-. split.
  - unfold bins_to_codes. rewrite !length_map. reflexivity.
  - pose proof (bins_to_codes_bounds true (qcut_bins x n_bins) x) as Hb.
    pose proof (qcut_bins_length x n_bins) as Hl.
    rewrite Forall_forall in *. intros c Hc. specialize (Hb c Hc).
    unfold code_in_range. lia.
Qed.

Lemma coarsen_all_range (vars : list (gene_features -> Q)) (df : list gene_features)
      (n_bins : nat) (cols : list (list Z)) :
  coarsen_all vars df n_bins = Ret cols ->
  length cols = length vars
  /\ Forall (fun col => length col = length df /\ Forall (code_in_range n_bins) col) cols.
Proof.
  revert cols. induction vars as [|v vars IH]; intros cols; cbn [coarsen_all].
  - intros H; injection H as <-. split; [reflexivity | constructor].
  - destruct (coarsen (map v df) n_bins) as [col|] eqn:Ec; cbn [py_bind]; [|discriminate].
    destruct (coarsen_all vars df n_bins) as [rest|]; cbn [py_bind]; [|discriminate].
    intros H; injection H as <-. destruct (IH rest eq_refl) as [Hl Hf].
    apply coarsen_range in Ec. rewrite length_map in Ec.
    split; [cbn; rewrite Hl; reflexivity|]. constructor; assumption.
Qed.

(** X11 — shape of the stratum keys: every gene of the feature table gets a
    key of five bin codes, one per matching covariate, each between 0 and
    [n_bins - 1]; so there are at most [n_bins ^ 5] strata. *)
Theorem stratum_key_codes (gf : list gene_features) (n_bins : nat)
        (df : list binned_gene) (r : binned_gene) :
  cem_strata gf n_bins = Ret df -> In r df ->
  length (stratum r) = 5%nat
  /\ Forall (code_in_range n_bins) (stratum r).
Proof.
  unfold cem_strata.
  destruct (coarsen_all match_vars gf n_bins) as [cols|] eqn:Ec; cbn [py_bind];
    [|discriminate].
  unfold assign_strata. destruct gf as [|g0 gf']; [discriminate|].
  intros H Hr. injection H as <-. apply coarsen_all_range in Ec.
  destruct Ec as [Hl Hf]. unfold with_strata in Hr. apply in_map_iff in Hr.
  destruct Hr as [[i g] [<- _]]. cbn [stratum fst].
  split; [rewrite length_map; exact Hl|].
  rewrite Forall_forall in *. intros c Hc. apply in_map_iff in Hc.
  destruct Hc as [col [<- Hcol]]. destruct (Hf col Hcol) as [_ Hrange].
  rewrite Forall_forall in Hrange.
  destruct (nth_in_or_default i col 0%Z) as [Hin | E0]; [apply Hrange, Hin | rewrite E0].
  unfold code_in_range. lia.
Qed.
End StratumCodes.

Lemma stratum_key_codes_witness :
  exists df r,
    Matching.cem_strata demo_features 10 = Ret df /\ In r df
    /\ length (Matching.stratum r) = 5%nat.
Proof.
  assert (H : exists df, Matching.cem_strata demo_features 10 = Ret df
                         /\ exists r, In r df).
  { eexists. split; [vm_compute; reflexivity|]. eexists. left. reflexivity. }
  destruct H as [df [E [r Hr]]]. exists df, r. split; [exact E|]. split; [exact Hr|].
  exact (proj1 (@stratum_key_codes demo_features 10 df r E Hr)).
Defined.

(** ** Quantile binning keeps the order of the values *)

Section QuantileOrder.
Import Binning Matching.

Lemma Qle_bool_total (a b : Q) : Qle_bool a b = false -> Qle_bool b a = true.
Proof.
  intros H. apply Qle_bool_iff. apply Qlt_le_weak. apply Qnot_le_lt.
  intros Hab. apply Qle_bool_iff in Hab. congruence.
Qed.

Lemma sorted_values (x : list Q) :
  StronglySorted Qle (sort_by Qle_bool x).
Proof.
  pose proof (sort_by_sorted Qle_bool Qle_bool_total x) as Hs.
  apply Sorted_StronglySorted in Hs.
  - induction Hs as [|a l Hs IH Hall]; constructor; [exact IH|].
    rewrite Forall_forall in *. intros y Hy. apply Qle_bool_iff. exact (Hall y Hy).
  - intros a b c Hab Hbc. apply Qle_bool_iff in Hab, Hbc. apply Qle_bool_iff.
    exact (Qle_trans _ _ _ Hab Hbc).
Qed.

Lemma sorted_first (l : list Q) (v : Q) :
  StronglySorted Qle l -> In v l -> nth 0 l 0 <= v.
Proof.
  intros Hs Hv. destruct Hs as [|a l Hs Hall]; [contradiction|].
  cbn [nth]. destruct Hv as [->|Hv]; [apply Qle_refl|].
  rewrite Forall_forall in Hall. exact (Hall v Hv).
Qed.

Lemma sorted_last (l : list Q) :
  StronglySorted Qle l -> forall v, In v l -> v <= nth (length l - 1) l 0.
Proof.
  induction 1 as [|a l Hs IH Hall]; intros v Hv; [contradiction|].
  destruct l as [|b l'].
  - destruct Hv as [->|[]]. apply Qle_refl.
  - replace (length (a :: b :: l') - 1)%nat with (S (length (b :: l') - 1))
      by (cbn [length]; lia).
    change (v <= nth (length (b :: l') - 1) (b :: l') 0).
    destruct Hv as [->|Hv]; [|exact (IH v Hv)].
    rewrite Forall_forall in Hall.
    apply (Qle_trans _ b).
    + apply Hall. left. reflexivity.
    + apply IH. left. reflexivity.
Qed.

Lemma quantile_zero (sorted : list Q) (p : positive) :
  quantile sorted (0 # p) == nth 0 sorted 0.
Proof.
  unfold quantile. cbv zeta.
  assert (Hpos : (0 # p) * inject_Z (Z.of_nat (length sorted) - 1) == 0).
  { unfold Qeq. cbn. reflexivity. }
  assert (Hf : Qfloor ((0 # p) * inject_Z (Z.of_nat (length sorted) - 1)) = 0%Z).
  { rewrite Hpos. reflexivity. }
  rewrite Hf, Hpos. cbn [Z.to_nat]. unfold inject_Z. ring.
Qed.

Lemma level_one (q : nat) : (1 <= q)%nat -> (Z.of_nat q # Pos.of_nat q) == 1.
Proof.
  intros Hq. destruct q as [|q']; [lia|].
  unfold Qeq. cbn [Qnum Qden]. rewrite <- Pos.of_nat_succ, Zpos_P_of_succ_nat.
  rewrite Nat2Z.inj_succ. ring.
Qed.

Lemma quantile_one (sorted : list Q) (q : nat) :
  (1 <= q)%nat -> sorted <> [] ->
  quantile sorted (Z.of_nat q # Pos.of_nat q) == nth (length sorted - 1) sorted 0.
Proof.
  intros Hq Hne. unfold quantile. cbv zeta.
  assert (Hpos : (Z.of_nat q # Pos.of_nat q) * inject_Z (Z.of_nat (length sorted) - 1)
                 == inject_Z (Z.of_nat (length sorted) - 1)).
  { rewrite (level_one Hq). ring. }
  assert (Hf : Qfloor ((Z.of_nat q # Pos.of_nat q)
                       * inject_Z (Z.of_nat (length sorted) - 1))
               = (Z.of_nat (length sorted) - 1)%Z).
  { rewrite Hpos. apply Qfloor_Z. }
  rewrite Hf, Hpos.
  replace (Z.to_nat (Z.of_nat (length sorted) - 1)) with (length sorted - 1)%nat by lia.
  ring.
Qed.

Lemma unique_acc_Qeq_In (seen l : list Q) (b : Q) :
  In b l ->
  (exists s, In s seen /\ s == b) \/ (exists b', In b' (unique_acc Qeq_bool seen l) /\ b' == b).
Proof.
  revert seen. induction l as [|a l IH]; intros seen; [contradiction|].
  cbn [unique_acc]. intros [->|Hb].
  - destruct (existsb (Qeq_bool b) seen) eqn:E.
    + left. apply existsb_exists in E. destruct E as [s [Hs E]].
      apply Qeq_bool_iff in E. exists s. split; [exact Hs | symmetry; exact E].
    + right. exists b. split; [left; reflexivity | reflexivity].
  - destruct (existsb (Qeq_bool a) seen).
    + exact (IH seen Hb).
    + destruct (IH (a :: seen) Hb) as [[s [[<-|Hs] E]]|[b' [Hb' E]]].
      * right. exists a. split; [left; reflexivity | exact E].
      * left. exists s. auto.
      * right. exists b'. split; [right; exact Hb' | exact E].
Qed.

Lemma unique_hd (l : list Q) : hd 0 (unique Qeq_bool l) = hd 0 l.
Proof. destruct l; reflexivity. Qed.

(** The boundaries of a non-empty column start at its minimum and reach
    its maximum. *)
Lemma qcut_bins_cover (x : list Q) (n_bins : nat) (v : Q) :
  (1 <= n_bins)%nat -> In v x ->
  qcut_bins x n_bins <> []
  /\ hd 0 (qcut_bins x n_bins) <= v
  /\ exists b, In b (qcut_bins x n_bins) /\ v <= b.
Proof.
  intros Hq Hv.
  set (sorted := sort_by Qle_bool x).
  assert (Hin : In v sorted) by (apply sort_by_In; exact Hv).
  assert (Hne : sorted <> []) by (intros E; rewrite E in Hin; contradiction).
  pose proof (sorted_values x) as Hs. fold sorted in Hs.
  assert (Hhd : hd 0 (quantile_edges x n_bins) == nth 0 sorted 0).
  { unfold quantile_edges, quantile_levels. cbn [seq map hd]. apply quantile_zero. }
  assert (Hlast : exists b, In b (quantile_edges x n_bins)
                            /\ b == nth (length sorted - 1) sorted 0).
  { exists (quantile sorted (Z.of_nat n_bins # Pos.of_nat n_bins)). split.
    - unfold quantile_edges, quantile_levels. fold sorted.
      apply in_map. apply (in_map (fun i => Z.of_nat i # Pos.of_nat n_bins)).
      apply in_seq. lia.
    - apply quantile_one; assumption. }
  assert (Hedges : quantile_edges x n_bins <> []).
  { destruct Hlast as [b [Hb _]]. intros E. rewrite E in Hb. contradiction. }
  assert (Hbins : hd 0 (qcut_bins x n_bins) = hd 0 (quantile_edges x n_bins)
                  /\ qcut_bins x n_bins <> []
                  /\ exists b, In b (qcut_bins x n_bins)
                               /\ b == nth (length sorted - 1) sorted 0).
  { unfold qcut_bins. destruct (_ && _).
    - split; [apply unique_hd|]. split.
      + destruct (quantile_edges x n_bins); [congruence | discriminate].
      + destruct Hlast as [b [Hb Eb]].
        destruct (@unique_acc_Qeq_In [] _ b Hb) as [[s [[] _]]|[b' [Hb' E]]].
        exists b'. split; [exact Hb'|]. rewrite E. exact Eb.
    - auto. }
  destruct Hbins as [E1 [E2 [b [Hb Eb]]]].
  split; [exact E2|]. split.
  - rewrite E1, Hhd. apply sorted_first; assumption.
  - exists b. split; [exact Hb|]. rewrite Eb. apply sorted_last; assumption.
Qed.

(** The code [bins_to_codes] gives one value, lowest boundary
    included. *)
Definition code_at (bins : list Q) (v : Q) : option Z :=
  let ids0 := searchsorted_left bins v in
  let ids := if true && Qeq_bool v (hd 0 bins) then 1%nat else ids0 in
  if (ids =? length bins)%nat || (ids =? 0)%nat then None
  else Some (Z.of_nat ids - 1)%Z.

Lemma filter_miss (A : Type) (f : A -> bool) (l : list A) (x : A) :
  In x l -> f x = false -> (length (filter f l) < length l)%nat.
Proof.
  induction l as [|a l IH]; [contradiction|]. intros [->|Hx] Hf; cbn [filter length].
  - rewrite Hf. pose proof (filter_length_le f l). lia.
  - specialize (IH Hx Hf). destruct (f a); cbn [length]; lia.
Qed.

Lemma searchsorted_left_mono (bins : list Q) (v v' : Q) :
  v <= v' -> (searchsorted_left bins v <= searchsorted_left bins v')%nat.
Proof.
  intros Hv. unfold searchsorted_left. induction bins as [|b bins IH]; [apply le_n|].
  cbn [filter].
  destruct (Qlt_bool b v) eqn:E1; destruct (Qlt_bool b v') eqn:E2; cbn [length];
    try lia.
  exfalso. unfold Qlt_bool in E1, E2.
  apply negb_true_iff in E1. apply negb_false_iff in E2. apply Qle_bool_iff in E2.
  assert (H : Qle_bool v b = true) by (apply Qle_bool_iff; exact (Qle_trans _ _ _ Hv E2)).
  congruence.
Qed.

Lemma filled_code (bins : list Q) (v : Q) :
  bins <> [] -> hd 0 bins <= v -> (exists b, In b bins /\ v <= b) ->
  (Qeq_bool v (hd 0 bins) = true /\ fill_code (code_at bins v) = 0%Z)
  \/ (Qeq_bool v (hd 0 bins) = false
      /\ (1 <= searchsorted_left bins v)%nat
      /\ fill_code (code_at bins v) = (Z.of_nat (searchsorted_left bins v) - 1)%Z).
Proof.
  intros Hne Hlo [b [Hb Hhi]]. unfold code_at. cbv zeta. cbn [andb].
  destruct (Qeq_bool v (hd 0 bins)) eqn:E.
  - left. split; [reflexivity|].
    destruct ((1 =? length bins)%nat || (1 =? 0)%nat); reflexivity.
  - right. split; [reflexivity|].
    assert (H1 : (1 <= searchsorted_left bins v)%nat).
    { destruct bins as [|h bins]; [congruence|]. cbn [hd] in *.
      unfold searchsorted_left. cbn [filter]. unfold Qlt_bool at 1.
      destruct (Qle_bool v h) eqn:Ev; cbn [negb length]; [|lia].
      exfalso. apply Qle_bool_iff in Ev.
      assert (Hq : Qeq_bool v h = true)
        by (apply Qeq_bool_iff; apply Qle_antisym; assumption).
      congruence. }
    assert (H2 : (searchsorted_left bins v < length bins)%nat).
    { unfold searchsorted_left. apply (filter_miss _ _ b Hb).
      unfold Qlt_bool. apply negb_false_iff. apply Qle_bool_iff. exact Hhi. }
    split; [exact H1|].
    destruct (Nat.eqb_spec (searchsorted_left bins v) (length bins)); [lia|].
    destruct (Nat.eqb_spec (searchsorted_left bins v) 0); [lia|]. reflexivity.
Qed.

Lemma coarsen_code_at (x : list Q) (n_bins : nat) :
  coarsen x n_bins
  = Ret (map (fun v => fill_code (code_at (qcut_bins x n_bins) v)) x).
Proof.
  rewrite coarsen_codes. unfold bins_to_codes. rewrite map_map. reflexivity.
Qed.

(** X12 — coarsening keeps the order of the values: for a non-empty
    covariate column and at least one bin, the code column has one code
    per value, a value that is not larger than another never gets the
    larger code, and the smallest values get code 0. *)
Theorem coarsen_preserves_order (x : list Q) (n_bins : nat) :
  x <> [] -> (1 <= n_bins)%nat ->
  exists codes,
    coarsen x n_bins = Ret codes
    /\ length codes = length x
    /\ (forall i j, (i < length x)%nat -> (j < length x)%nat ->
          nth i x 0 <= nth j x 0 -> (nth i codes 0 <= nth j codes 0)%Z)
    /\ (forall i, (i < length x)%nat ->
          (forall v, In v x -> nth i x 0 <= v) -> nth i codes 0%Z = 0%Z).
Proof.
  intros _ Hq. eexists. split; [apply coarsen_code_at|].
  set (bins := qcut_bins x n_bins).
  set (cf := fun v => fill_code (code_at bins v)).
  assert (Hnth : forall i, (i < length x)%nat -> nth i (map cf x) 0%Z = cf (nth i x 0)).
  { intros i Hi. rewrite (nth_indep _ 0%Z (cf 0)) by (rewrite length_map; exact Hi).
    apply map_nth. }
  split; [apply length_map|]. split.
  - intros i j Hi Hj Hle. rewrite (Hnth i Hi), (Hnth j Hj). unfold cf.
    destruct (@qcut_bins_cover x n_bins (nth i x 0) Hq (nth_In x 0 Hi))
      as [Hne [Hlo Hhi]].
    destruct (@qcut_bins_cover x n_bins (nth j x 0) Hq (nth_In x 0 Hj))
      as [_ [Hlo' Hhi']].
    fold bins in Hne, Hlo, Hhi, Hlo', Hhi'.
    destruct (filled_code Hne Hlo Hhi) as [[E ->]|[E [H1 ->]]];
      destruct (filled_code Hne Hlo' Hhi') as [[E' ->]|[E' [H1' ->]]].
    + lia.
    + lia.
    + exfalso. apply Qeq_bool_iff in E'.
      assert (Hq' : Qeq_bool (nth i x 0) (hd 0 bins) = true).
      { apply Qeq_bool_iff. apply Qle_antisym; [|exact Hlo].
        rewrite <- E'. exact Hle. }
      congruence.
    + pose proof (searchsorted_left_mono bins Hle). lia.
  - intros i Hi Hmin. rewrite (Hnth i Hi). unfold cf.
    destruct (@qcut_bins_cover x n_bins (nth i x 0) Hq (nth_In x 0 Hi))
      as [Hne [Hlo Hhi]].
    fold bins in Hne, Hlo, Hhi.
    destruct (filled_code Hne Hlo Hhi) as [[E ->]|[E _]]; [reflexivity|].
    exfalso.
    assert (Hq' : Qeq_bool (nth i x 0) (hd 0 bins) = true).
    { apply Qeq_bool_iff. apply Qle_antisym; [|exact Hlo].
      assert (Hm : exists m, In m x /\ hd 0 bins == m).
      { exists (nth 0 (sort_by Qle_bool x) 0). split.
        - apply (sort_by_In Qle_bool). apply nth_In. rewrite sort_by_length. lia.
        - unfold bins, qcut_bins. destruct (_ && _); [rewrite unique_hd|];
            unfold quantile_edges, quantile_levels; cbn [seq map hd];
            apply quantile_zero. }
      destruct Hm as [m [Hm Em]]. rewrite Em. apply Hmin. exact Hm. }
    congruence.
Qed.
End QuantileOrder.

Lemma coarsen_preserves_order_witness :
  exists codes,
    Matching.coarsen tied_column 10 = Ret codes
    /\ length codes = length tied_column.
Proof.
  destruct (@coarsen_preserves_order tied_column 10) as [codes [H1 [H2 _]]].
  - discriminate.
  - repeat constructor.
  - exists codes. split; assumption.
Defined.

(** * Bootstrap replicates and the within transformation *)

Section ReplicateRows.
Import Semester EventStudy.
Variable weight : delta_row -> Q.

Lemma filter_all (A : Type) (f : A -> bool) (l : list A) :
  (forall x, In x l -> f x = true) -> filter f l = l.
Proof.
  induction l as [|a l IH]; intros H; [reflexivity|]. cbn [filter].
  rewrite (H a (or_introl eq_refl)). f_equal. apply IH.
  intros; apply H; right; assumption.
Qed.

Lemma resampled_subsequence (rows : list obs) (g : rng) :
  subsequence (resampled rows g) rows.
Proof. unfold resampled, isin_genes. apply subsequence_filter. Qed.

Lemma resampled_single_gene (rows : list obs) (g : rng) :
  length (genes_of rows) = 1%nat -> resampled rows g = rows.
Proof.
  intros H. unfold resampled, isin_genes.
  destruct (genes_of rows) as [|a [|b l]] eqn:E; try discriminate.
  assert (Hd : draws [a] g = [a]).
  { unfold draws. cbn [length seq map]. rewrite Nat.mod_1_r. reflexivity. }
  rewrite Hd. apply filter_all. intros o Ho.
  assert (Hin : In (o_gene o) (genes_of rows)).
  { unfold genes_of. apply (unique_In Zeqb_spec'). apply in_map. exact Ho. }
  rewrite E in Hin. destruct Hin as [<-|[]]. cbn [existsb].
  rewrite Z.eqb_refl. reflexivity.
Qed.

(** X7 — the rows of a bootstrap replicate: under positive weights one
    pass of the bootstrap loop appends one statistic, the difference of
    the weighted means of a sub-frame of the treated rows and a sub-frame
    of the control rows, less the base difference: rows are kept or
    dropped, never repeated.  An arm made of a single gene is kept
    whole, so with one gene per arm every replicate repeats the same
    value.  The pass consumes one draw per treated gene and per control
    gene. *)
Theorem bootstrap_replicate_rows (treated_k control_k : list obs) (base_diff : Q)
        (boot_coefs : list Q) (g : rng) :
  treated_k <> [] -> control_k <> [] ->
  positive_weights weight treated_k -> positive_weights weight control_k ->
  exists boot_t boot_c g',
    boot_step weight treated_k control_k base_diff boot_coefs g
    = Ret (boot_coefs ++ [(wmean weight boot_t - wmean weight boot_c) - base_diff], g')
    /\ subsequence boot_t treated_k
    /\ subsequence boot_c control_k
    /\ boot_t <> [] /\ boot_c <> []
    /\ (length (genes_of treated_k) = 1%nat -> boot_t = treated_k)
    /\ (length (genes_of control_k) = 1%nat -> boot_c = control_k)
    /\ cursor g' = (cursor g + length (genes_of treated_k)
                    + length (genes_of control_k))%nat.
Proof.
  intros Ht Hc Pt Pc.
  exists (resampled treated_k g),
         (resampled control_k (advance g (length (genes_of treated_k)))),
         (after_replicate treated_k control_k g).
  split; [apply boot_step_ret; assumption|].
  split; [apply resampled_subsequence|]. split; [apply resampled_subsequence|].
  split; [apply resampled_nonempty; exact Ht|].
  split; [apply resampled_nonempty; exact Hc|].
  split; [apply resampled_single_gene|]. split; [apply resampled_single_gene|].
  reflexivity.
Qed.
End ReplicateRows.

Lemma bootstrap_replicate_rows_witness :
  exists boot_t boot_c g',
    EventStudy.boot_step cem_weight_of three_treated one_control 0 [] repeating_rng
    = Ret ([] ++ [(wmean cem_weight_of boot_t - wmean cem_weight_of boot_c) - 0], g')
    /\ subsequence boot_t three_treated
    /\ boot_c = one_control.
Proof.
  destruct (@bootstrap_replicate_rows cem_weight_of three_treated one_control 0 []
              repeating_rng)
    as [bt [bc [g' [H1 [H2 [_ [_ [_ [_ [H3 _]]]]]]]]]].
  - discriminate.
  - discriminate.
  - intros o Ho. simpl in Ho.
    repeat (destruct Ho as [<-|Ho]; [reflexivity|]). contradiction.
  - intros o Ho. simpl in Ho.
    repeat (destruct Ho as [<-|Ho]; [reflexivity|]). contradiction.
  - exists bt, bc, g'. split; [exact H1|]. split; [exact H2|]. apply H3. reflexivity.
Defined.

Section WithinTransformation.
Import Semester EventStudy.

Lemma np_sum_map_scale (A : Type) (c : Q) (f : A -> Q) (l : list A) :
  np_sum (map (fun x => f x * c) l) == np_sum (map f l) * c.
Proof.
  induction l as [|a l IH]; [simpl; ring|].
  cbn [map np_sum fold_right]. fold (np_sum (map (fun x => f x * c) l)).
  fold (np_sum (map f l)). rewrite IH. ring.
Qed.

Lemma np_sum_map_const (A : Type) (c : Q) (l : list A) :
  np_sum (map (fun _ => c) l) == inject_Z (Z.of_nat (length l)) * c.
Proof.
  induction l as [|a l IH]; [simpl; ring|].
  cbn [map np_sum fold_right length]. fold (np_sum (map (fun _ : A => c) l)).
  rewrite IH, Nat2Z.inj_succ. unfold Z.succ. rewrite inject_Z_plus. ring.
Qed.

Lemma count_nonzero (A : Type) (l : list A) :
  l <> [] -> ~ inject_Z (Z.of_nat (length l)) == 0.
Proof.
  intros Hne E. unfold Qeq in E. cbn [inject_Z Qnum Qden] in E.
  destruct l; [congruence | cbn [length] in E; lia].
Qed.

(** The group means of a column, summed over the rows, give the column
    total. *)
Lemma transform_mean_total (key : obs -> Z) (col : obs -> Q) (df : list obs) :
  np_sum (map (transform_mean key col df) df) == np_sum (map col df).
Proof.
  set (keys := unique Z.eqb (map key df)).
  assert (Hnd : NoDup keys) by apply (unique_NoDup Zeqb_spec').
  assert (Hin : forall r, In r df -> In (key r) keys).
  { intros r Hr. apply (unique_In Zeqb_spec'). apply in_map. exact Hr. }
  rewrite (np_sum_by_group Zeqb_spec' key (transform_mean key col df) Hnd Hin).
  rewrite (np_sum_by_group Zeqb_spec' key col Hnd Hin).
  apply np_sum_map_ext_in. intros k _.
  set (grp := filter (fun r => (key r =? k)%Z) df).
  rewrite (np_sum_map_ext_in (transform_mean key col df)
             (fun _ => np_sum (map col grp) / inject_Z (Z.of_nat (length grp))) grp).
  - rewrite np_sum_map_const. destruct grp as [|o l] eqn:Eg; [simpl; ring|].
    field. apply count_nonzero. discriminate.
  - intros o Ho. unfold transform_mean. apply filter_In in Ho. destruct Ho as [_ Ek].
    apply Z.eqb_eq in Ek. rewrite Ek. reflexivity.
Qed.

(** X8 — the within transformation centres a column: over the rows that
    enter the regression, a column demeaned by gene and by semester sums
    to zero, whatever the panel (balanced or not). *)
Theorem demean_sums_to_zero (col : obs -> Q) (df : list obs) :
  np_sum (map (demean col df) df) == 0.
Proof.
  unfold demean.
  rewrite (np_sum_map_plus
             (fun o => col o - transform_mean o_gene col df o
                       - transform_mean o_semester col df o)
             (fun _ => column_mean col df)).
  rewrite (np_sum_map_ext_in
             (fun o => col o - transform_mean o_gene col df o
                       - transform_mean o_semester col df o)
             (fun o => (col o + (-1) * transform_mean o_gene col df o)
                       + (-1) * transform_mean o_semester col df o))
    by (intros; ring).
  rewrite (np_sum_map_plus
             (fun o => col o + (-1) * transform_mean o_gene col df o)
             (fun o => (-1) * transform_mean o_semester col df o)).
  rewrite (np_sum_map_plus col (fun o => (-1) * transform_mean o_gene col df o)).
  rewrite (np_sum_map_ext_in (fun o => (-1) * transform_mean o_gene col df o)
             (fun o => transform_mean o_gene col df o * (-1)))
    by (intros; ring).
  rewrite (np_sum_map_ext_in (fun o => (-1) * transform_mean o_semester col df o)
             (fun o => transform_mean o_semester col df o * (-1)))
    by (intros; ring).
  rewrite !np_sum_map_scale, !transform_mean_total, np_sum_map_const.
  unfold column_mean. destruct df as [|o l] eqn:Ed; [simpl; ring|].
  field. apply count_nonzero. discriminate.
Qed.
End WithinTransformation.
